(** * The gRPC request gateway of the sidecar (pkg/api/grpc/grpc.go)

    A shallow embedding of the handlers of [pkg/api/grpc/grpc.go] together
    with the properties the specification states about them.

    Conventions of the embedding.
    - A handler is a function from the receiver [api], the request context
      and the request message to an [Outcome]: what the handler returns
      (response and error, as in Go), and the list of calls it made to its
      collaborators, in the order it made them.
    - The collaborators held by the Go struct (pubsub adapter, output binding
      function, outbox, state stores) are fields of the records below; the
      functions of imported packages are the fields of [Imports].  Their
      results are what the handler observes; each call is also recorded as an
      [Event].
    - A call that the source wraps in a resiliency policy runner is recorded
      as one event naming the driver operation; its result is the final
      result the runner hands back.  The event stands for the one
      invocation of the runner: how often the runner calls the driver, if
      at all, is the business of the policy and is not modelled.
    - Debug and warning log lines are not recorded. *)

From Stdlib Require Import Strings.String Strings.Ascii Strings.Byte List ZArith Lia DecimalString.
From stdpp Require Import base option gmap strings list sorting.

Open Scope string_scope.
Open Scope list_scope.
Open Scope Z_scope.

(** ** Bytes and Go formatting *)

Abbreviation bytes := (list byte).

(** [[]byte(s)] and [string(b)]. *)
Definition bytes_of_string (s : string) : bytes := list_byte_of_string s.
Definition string_of_bytes (b : bytes) : string := string_of_list_byte b.

(** [strings.Join]. *)
Fixpoint strings_Join (l : list string) (sep : string) : string :=
  match l with
  | [] => ""
  | [x] => x
  | x :: rest => x +:+ sep +:+ strings_Join rest sep
  end.

(** Decimal rendering of one byte, as [fmt] prints an element of a byte
    slice under the verb v. *)
Definition fmt_byte (b : byte) : string :=
  NilZero.string_of_uint (N.to_uint (Byte.to_N b)).

(** [fmt.Sprintf("%v", b)] for [b] a byte slice: the elements in decimal,
    separated by one space, in square brackets. *)
Definition Sprintf_v_bytes (b : bytes) : string :=
  "[" +:+ strings_Join (map fmt_byte b) " " +:+ "]".

(** ** Status codes (google.golang.org/grpc/codes) *)

Module codes.
Inductive Code : Set :=
| OK | Canceled | Unknown | InvalidArgument | DeadlineExceeded | NotFound
| AlreadyExists | PermissionDenied | ResourceExhausted | FailedPrecondition
| Aborted | OutOfRange | Unimplemented | Internal | Unavailable | DataLoss
| Unauthenticated.

#[export] Instance Code_eq_dec : EqDecision Code.
Proof. solve_decision. Defined.
End codes.

(** ** Errors *)

(** [state.ETagErrorKind] is a string type with two named values. *)
Inductive ETagErrorKind : Set :=
| ETagInvalid
| ETagMismatch
| ETagKindOther (s : string).

(** Error values handed to the gateway by drivers and libraries.  [Wrapf]
    is an error that wraps another one ([fmt.Errorf] with the verb w), so
    that [errors.As] has a chain to walk. *)
Inductive goerror : Set :=
| errors_New (msg : string)
| ETagError (kind : ETagErrorKind) (msg : string)
| KitError (code : codes.Code) (msg : string)
| NotAllowedError (msg : string)
| NotFoundError (msg : string)
| Wrapf (pre : string) (inner : goerror).

(** [err.Error()]. *)
Fixpoint Error (e : goerror) : string :=
  match e with
  | errors_New m | ETagError _ m | KitError _ m
  | NotAllowedError m | NotFoundError m => m
  | Wrapf pre inner => pre +:+ Error inner
  end.

(** [errors.As(err, &etagErr)] for [*state.ETagError]. *)
Fixpoint errors_As_ETagError (e : goerror) : option ETagErrorKind :=
  match e with
  | ETagError k _ => Some k
  | Wrapf _ inner => errors_As_ETagError inner
  | _ => None
  end.

(** [kiterrors.FromError(err)]: the first [*kiterrors.Error] in the chain. *)
Fixpoint kiterrors_FromError (e : goerror) : option (codes.Code * string) :=
  match e with
  | KitError c m => Some (c, m)
  | Wrapf _ inner => kiterrors_FromError inner
  | _ => None
  end.

Fixpoint errors_As_NotAllowedError (e : goerror) : bool :=
  match e with
  | NotAllowedError _ => true
  | Wrapf _ inner => errors_As_NotAllowedError inner
  | _ => false
  end.

Fixpoint errors_As_NotFoundError (e : goerror) : bool :=
  match e with
  | NotFoundError _ => true
  | Wrapf _ inner => errors_As_NotFoundError inner
  | _ => false
  end.

(** The format strings of package [messages]; their text is outside these
    sources, so a formatted message keeps the template and its arguments. *)
Inductive Template : Set :=
| ErrInvokeOutputBinding
| ErrStateGet
| ErrStateSave
| ErrStateDelete
| ErrStateDeleteBulk
| ErrStateTransaction
| ErrNotSupportedStateOperation
| ErrConfigurationStoresNotConfigured
| ErrConfigurationStoreNotFound
| ErrConfigurationSubscribe
| ErrConfigurationUnsubscribe.

Inductive Message : Set :=
| Lit (s : string)
| Sprintf (t : Template) (args : list string).

(** The arguments a message was built from. *)
Definition message_args (m : Message) : list string :=
  match m with
  | Lit _ => []
  | Sprintf _ args => args
  end.

(** Package [errorcodes]. *)
Inductive ErrorCode : Set :=
| BindingInvokeOutputBinding
| StateGet
| StateSave
| StateDelete
| StateBulkDelete
| StateTransaction
| StateNotSupportedOperation
| ConfigurationStoreNotConfigured
| ConfigurationStoreNotFound
| ConfigurationSubscribe
| ConfigurationUnsubscribe.

(** The builders of package [apierrors] for pubsub and state stores. *)
Inductive PubSubErrorKind : Set :=
| PS_NotConfigured
| PS_NameEmpty
| PS_NotFound
| PS_TopicEmpty
| PS_DeserializeError
| PS_MarshalEvents
| PS_CloudEventCreation
| PS_MarshalEnvelope
| PS_PublishForbidden
| PS_TestNotFound
| PS_PublishMessage.

Inductive StateStoreErrorKind : Set :=
| SS_TransactionsNotSupported
| SS_TooManyTransactionalOps (count max : Z).

(** The errors a handler returns. *)
Inductive apierror : Set :=
| Basic (code : codes.Code) (httpCode : Z) (tag : ErrorCode) (msg : Message)
| PubSubError (kind : PubSubErrorKind) (pubsubName topic : string)
              (cause : option goerror)
| StateStoreError (kind : StateStoreErrorKind) (storeName : string)
| PubSubOutbox (appID : string) (cause : goerror)
| StoreLookupError (notConfigured : bool) (storeName : string)
    (* what Universal.GetStateStore reports for a missing store *)
| KitErr (code : codes.Code) (msg : string)
| KitStatusErr (code : codes.Code) (msg : string)
| Upstream (e : goerror).

(** The kinds of the error taxonomy. *)
Inductive Kind : Set :=
| KNotConfigured | KNotFound | KInvalidArgument | KNotSupported | KForbidden
| KConditionFailed | KSerializationError | KInternal | KUnavailable
| KDeadlineExceeded | KCanceled | KPublishFailed.

#[export] Instance Kind_eq_dec : EqDecision Kind.
Proof. solve_decision. Defined.

(** The taxonomy kind a status code stands for.  A failed etag precondition
    is reported with the code [Aborted]. *)
Definition kind_of_code (c : codes.Code) : option Kind :=
  match c with
  | codes.InvalidArgument => Some KInvalidArgument
  | codes.Aborted => Some KConditionFailed
  | codes.Internal => Some KInternal
  | codes.FailedPrecondition => Some KNotConfigured
  | codes.NotFound => Some KNotFound
  | codes.Unimplemented => Some KNotSupported
  | codes.PermissionDenied => Some KForbidden
  | codes.Unavailable => Some KUnavailable
  | codes.DeadlineExceeded => Some KDeadlineExceeded
  | codes.Canceled => Some KCanceled
  | _ => None
  end.

(** Modelled from the spec: the kinds of the errors built by package
    [apierrors], which is not part of these sources.  Publish errors are
    NotConfigured, NotFound, Forbidden, SerializationError and PublishFailed;
    an entry-id violation in a bulk publish and an empty pubsub name or topic
    are InvalidArgument. *)
Definition pubsub_kind (k : PubSubErrorKind) : Kind :=
  match k with
  | PS_NotConfigured => KNotConfigured
  | PS_NameEmpty => KInvalidArgument
  | PS_NotFound => KNotFound
  | PS_TopicEmpty => KInvalidArgument
  | PS_DeserializeError => KSerializationError
  | PS_MarshalEvents => KInvalidArgument
  | PS_CloudEventCreation => KSerializationError
  | PS_MarshalEnvelope => KSerializationError
  | PS_PublishForbidden => KForbidden
  | PS_TestNotFound => KNotFound
  | PS_PublishMessage => KPublishFailed
  end.

(** Modelled from the spec: a store without the transactional capability is
    NotSupported; exceeding the advertised bound is InvalidArgument. *)
Definition statestore_kind (k : StateStoreErrorKind) : Kind :=
  match k with
  | SS_TransactionsNotSupported => KNotSupported
  | SS_TooManyTransactionalOps _ _ => KInvalidArgument
  end.

(** The kind under which a returned error reaches the caller.  An error
    returned as the library or driver produced it carries a kind only when a
    rich error sits in its chain. *)
Definition kind_of (e : apierror) : option Kind :=
  match e with
  | Basic c _ _ _ => kind_of_code c
  | PubSubError k _ _ _ => Some (pubsub_kind k)
  | StateStoreError k _ => Some (statestore_kind k)
  | PubSubOutbox _ _ => Some KInternal
  | StoreLookupError true _ => Some KNotConfigured
  | StoreLookupError false _ => Some KNotFound
  | KitErr c _ | KitStatusErr c _ => kind_of_code c
  | Upstream g =>
      match kiterrors_FromError g with
      | Some (c, _) => kind_of_code c
      | None => None
      end
  end.

(** ** Messages of the API and of the component interfaces *)

Abbreviation Metadata := (gmap string string).

(** [runtimev1pb.BulkPublishRequestEntry]; [bpe_Metadata] is [None] for a
    nil map. *)
Record BulkPublishRequestEntry : Type := {
  bpe_EntryId : string;
  bpe_Event : bytes;
  bpe_ContentType : string;
  bpe_Metadata : option Metadata;
}.

(** [runtimev1pb.BulkPublishRequest]. *)
Record BulkPublishRequest : Type := {
  bpr_PubsubName : string;
  bpr_Topic : string;
  bpr_Entries : list BulkPublishRequestEntry;
  bpr_Metadata : Metadata;
}.

(** [runtimev1pb.BulkPublishResponseFailedEntry] and
    [runtimev1pb.BulkPublishResponse]. *)
Record BulkPublishResponseFailedEntry : Type := {
  fe_EntryId : string;
  fe_Error : string;
}.

Record BulkPublishResponse : Type := {
  bres_FailedEntries : list BulkPublishResponseFailedEntry;
}.

Module pubsub.
(** [pubsub.BulkMessageEntry]. *)
Record BulkMessageEntry : Type := {
  EntryId : string;
  Event : bytes;
  ContentType : string;
  Metadata : option (gmap string string);
}.

(** [pubsub.BulkPublishRequest]. *)
Record BulkPublishRequest : Type := {
  Entries : list BulkMessageEntry;
  PubsubName : string;
  Topic : string;
  ReqMetadata : gmap string string;
}.

(** [pubsub.BulkPublishResponseFailedEntry]; [FailedError] is [None] for
    a nil error. *)
Record BulkPublishResponseFailedEntry : Type := {
  FailedEntryId : string;
  FailedError : option goerror;
}.

Record BulkPublishResponse : Type := {
  FailedEntries : list BulkPublishResponseFailedEntry;
}.

(** The component behind a pubsub name: its feature list. *)
Record PubSub : Type := {
  Features : list string;
}.
End pubsub.

(** [runtimePubsub.CloudEvent], the argument of [NewCloudEvent]. *)
Record CloudEvent : Type := {
  ce_Source : string;
  ce_Topic : string;
  ce_DataContentType : string;
  ce_Data : bytes;
  ce_TraceID : string;
  ce_TraceState : string;
  ce_Pubsub : string;
}.

Module bindings.
Record InvokeRequest : Type := {
  Data : bytes;
  Metadata : gmap string string;
  Operation : string;
}.

Record InvokeResponse : Type := {
  RespData : bytes;
  RespMetadata : gmap string string;
}.
End bindings.

(** [runtimev1pb.InvokeBindingRequest] and [InvokeBindingResponse]. *)
Record InvokeBindingRequest : Type := {
  ibr_Name : string;
  ibr_Data : bytes;
  ibr_Metadata : Metadata;
  ibr_Operation : string;
}.

Record InvokeBindingResponse : Type := {
  ibres_Data : bytes;
  ibres_Metadata : Metadata;
}.

(** A value of Go type [any] held by a set request: a byte slice, or what
    [json.Unmarshal] decoded from the given bytes. *)
Inductive AnyValue : Set :=
| VBytes (b : bytes)
| VJSON (decodedFrom : bytes).

Module state.
Record GetStateOption : Type := { GetConsistency : string }.
Record SetStateOption : Type := { SetConcurrency : string; SetConsistency : string }.
Record DeleteStateOption : Type := { DelConcurrency : string; DelConsistency : string }.

Record GetRequest : Type := {
  GetKey : string;
  GetMetadata : gmap string string;
  GetOptions : GetStateOption;
}.

(** A nil [*GetResponse] is [None] where the source tests for it. *)
Record GetResponse : Type := {
  Data : bytes;
  ETag : option string;
  Metadata : gmap string string;
}.

Record BulkGetResponse : Type := {
  BulkKey : string;
  BulkData : bytes;
  BulkETag : option string;
  BulkMetadata : gmap string string;
  BulkError : string;
}.

Record SetRequest : Type := {
  SetKey : string;
  SetValue : AnyValue;
  SetETag : option string;
  SetMetadata : gmap string string;
  SetOptions : SetStateOption;
}.

Record DeleteRequest : Type := {
  DelKey : string;
  DelETag : option string;
  DelMetadata : gmap string string;
  DelOptions : DeleteStateOption;
}.

(** [state.TransactionalStateOperation]: a set or a delete request. *)
Inductive TransactionalStateOperation : Type :=
| OpSet (r : SetRequest)
| OpDelete (r : DeleteRequest).

Record TransactionalStateRequest : Type := {
  Operations : list TransactionalStateOperation;
  TxMetadata : gmap string string;
}.

Definition OperationUpsert : string := "upsert".
Definition OperationDelete : string := "delete".
Definition FeatureTransactional : string := "TRANSACTIONAL".

(** A state store as the gateway sees it: its feature list, whether it
    implements [TransactionalStore], the bound it advertises when it
    implements [TransactionalStoreMultiMaxSize], and the results of its
    operations.  The handlers run [Get], [BulkGet], [Delete] and [Multi]
    inside a resiliency policy runner: for these the field gives the
    final result of the runner for the request, whatever number of calls
    of the driver the policy makes of it. *)
Record Store : Type := {
  Features : list string;
  IsTransactionalStore : bool;
  MultiMaxSize : option Z;
  Get : GetRequest -> option GetResponse * option goerror;
  BulkGet : list GetRequest -> Z -> list BulkGetResponse * option goerror;
  Set_ : SetRequest -> option goerror;
  BulkSet : list SetRequest -> option goerror;
  Delete : DeleteRequest -> option goerror;
  BulkDelete : list DeleteRequest -> option goerror;
  Multi : TransactionalStateRequest -> option goerror;
}.
End state.

(** [commonv1pb.StateOptions], [commonv1pb.StateItem] and the requests of
    the state API.  An absent etag or options message is [None]. *)
Inductive StateConcurrency : Set :=
| CONCURRENCY_UNSPECIFIED | CONCURRENCY_FIRST_WRITE | CONCURRENCY_LAST_WRITE.
Inductive StateConsistency : Set :=
| CONSISTENCY_UNSPECIFIED | CONSISTENCY_EVENTUAL | CONSISTENCY_STRONG.

Record StateOptions : Type := {
  so_Concurrency : StateConcurrency;
  so_Consistency : StateConsistency;
}.

Record StateItem : Type := {
  si_Key : string;
  si_Value : bytes;
  si_Etag : option string;
  si_Metadata : Metadata;
  si_Options : option StateOptions;
}.

Record GetStateRequest : Type := {
  gsr_StoreName : string;
  gsr_Key : string;
  gsr_Consistency : StateConsistency;
  gsr_Metadata : Metadata;
}.

Record GetStateResponse : Type := {
  gsres_Data : bytes;
  gsres_Etag : string;
  gsres_Metadata : Metadata;
}.

Record GetBulkStateRequest : Type := {
  gbr_StoreName : string;
  gbr_Keys : list string;
  gbr_Parallelism : Z;
  gbr_Metadata : Metadata;
}.

Record BulkStateItem : Type := {
  bsi_Key : string;
  bsi_Data : bytes;
  bsi_Etag : string;
  bsi_Error : string;
  bsi_Metadata : Metadata;
}.

Record GetBulkStateResponse : Type := {
  gbres_Items : list BulkStateItem;
}.

Record SaveStateRequest : Type := {
  ssr_StoreName : string;
  ssr_States : list StateItem;
}.

Record DeleteStateRequest : Type := {
  dsr_StoreName : string;
  dsr_Key : string;
  dsr_Etag : option string;
  dsr_Options : option StateOptions;
  dsr_Metadata : Metadata;
}.

Record DeleteBulkStateRequest : Type := {
  dbr_StoreName : string;
  dbr_States : list StateItem;
}.

Record TransactionalStateOperation : Type := {
  tso_OperationType : string;
  tso_Request : StateItem;
}.

Record ExecuteStateTransactionRequest : Type := {
  etr_StoreName : string;
  etr_Operations : list TransactionalStateOperation;
  etr_Metadata : Metadata;
}.

(** ** The request context *)

(** What a handler reads from its [context.Context]: the current span, the
    child spans the tracer would start, the incoming gRPC metadata, and the
    baggage attached to the context. *)
Record RequestContext : Type := {
  SpanNonNil : bool;
  SpanContextToW3CString : string;
  TraceStateToW3CString : option string;
  ChildTraceIDAndState : nat -> string * string;
  FromIncomingContext : option (gmap string (list string));
  BaggageOfContext : option string;
}.

(** [otelbaggage.ContextWithBaggage]. *)
Definition ContextWithBaggage (ctx : RequestContext) (b : string) : RequestContext :=
  {| SpanNonNil := SpanNonNil ctx;
     SpanContextToW3CString := SpanContextToW3CString ctx;
     TraceStateToW3CString := TraceStateToW3CString ctx;
     ChildTraceIDAndState := ChildTraceIDAndState ctx;
     FromIncomingContext := FromIncomingContext ctx;
     BaggageOfContext := Some b |}.

(** ** Calls to collaborators *)

(** The operation labels of [diag.DefaultComponentMonitoring.StateInvoked]. *)
Inductive diag_Op : Set :=
| diag_Get | diag_Set | diag_Delete | diag_BulkGet | diag_BulkDelete
| diag_StateTransaction.

(** What a handler does to the outside, in order.  [Call_Get] (lines
    666-671), [Call_BulkGet] (lines 599-604), [Call_Delete] (lines
    838-843) and [Call_Multi] (lines 1035-1044) each record one invocation
    of the policy runner that wraps the operation of the store, not the
    calls of the driver the runner makes. *)
Inductive Event : Type :=
| StartChildSpan (i : nat)
| EndChildSpan (i : nat) (err : option apierror)
| Call_BulkPublish (req : pubsub.BulkPublishRequest)
| BulkPubsubEgressEvent (pubsubName topic : string) (success : bool)
                        (eventsPublished : Z)
| Call_sendToOutputBindingFn (ctx : RequestContext) (name : string)
                             (req : bindings.InvokeRequest)
| OutputBindingEvent (name operation : string) (success : bool)
| grpc_SetHeader (key value : string)
| Call_Get (storeName : string) (req : state.GetRequest)
| Call_BulkGet (storeName : string) (reqs : list state.GetRequest)
               (parallelism : Z)
| Call_PerformBulkStoreOperation_Set (storeName : string)
                                     (reqs : list state.SetRequest)
| Call_PerformBulkStoreOperation_Delete (storeName : string)
                                        (reqs : list state.DeleteRequest)
| Call_Delete (storeName : string) (req : state.DeleteRequest)
| Call_outbox_PublishInternal (storeName : string)
                 (ops : list state.TransactionalStateOperation)
| Call_Multi (storeName : string) (req : state.TransactionalStateRequest)
| StateInvoked (storeName : string) (op : diag_Op) (success : bool)
| RecordErrorCode (tag : ErrorCode).

(** An event that hands work to a driver or a collaborator, as opposed to
    tracing and metrics. *)
Definition is_dispatch (ev : Event) : bool :=
  match ev with
  | Call_BulkPublish _ | Call_sendToOutputBindingFn _ _ _
  | Call_Get _ _ | Call_BulkGet _ _ _
  | Call_PerformBulkStoreOperation_Set _ _
  | Call_PerformBulkStoreOperation_Delete _ _
  | Call_Delete _ _ | Call_outbox_PublishInternal _ _ | Call_Multi _ _ => true
  | _ => false
  end.


(** ** Handlers as programs with early return *)

(** How a handler ends: it returns a response and an error, or it panics. *)
Inductive Exit (R : Type) : Type :=
| Return (r : R) (err : option apierror)
| Panic.
Arguments Return {R} r err.
Arguments Panic {R}.

Definition Outcome (R : Type) : Type := Exit R * list Event.

(** A step of a handler with response type [R]: given the calls made so
    far, it either goes on with a value or leaves the handler. *)
Definition M (R A : Type) : Type := list Event -> (A + Exit R) * list Event.

#[export] Instance M_ret R : MRet (M R) :=
  fun A (x : A) t => (inl x, t).

#[export] Instance M_bind R : MBind (M R) :=
  fun A B (k : A -> M R B) (m : M R A) t =>
    match m t with
    | (inl x, t') => k x t'
    | (inr e, t') => (inr e, t')
    end.

Definition emit {R} (ev : Event) : M R unit := fun t => (inl tt, t ++ [ev]).

Definition return_ {R A} (r : R) (err : option apierror) : M R A :=
  fun t => (inr (Return r err), t).

Definition panic {R A} : M R A := fun t => (inr Panic, t).

Definition run {R} (m : M R Empty_set) : Outcome R :=
  match m [] with
  | (inl x, _) => match x with end
  | (inr e, t) => (e, t)
  end.

Definition result {R} (o : Outcome R) : Exit R := fst o.
Definition calls {R} (o : Outcome R) : list Event := snd o.

(** ** Imported packages and the receiver *)

(** The functions of other packages that the handlers call.  A result of
    Go type [(T, error)] is a sum with the error on the left.
    [TryDecryptValue] is [None] where the call panics: it takes the value
    apart at the key marker, and a panic in it ends the handler like any
    other.  [mapRangeRank] stands for the order in which a [range] visits
    the keys of a map, which Go leaves open: the keys are visited by
    ascending rank. *)
Record Imports : Type := {
  Envelope : Type;
  IsRawPayload : Metadata -> goerror + bool;
  PopulateMetadataForBulkPublishEntry : Metadata -> Metadata -> Metadata;
  NewCloudEvent : CloudEvent -> option Metadata -> goerror + Envelope;
  ApplyMetadata : Envelope -> list string -> option Metadata -> Envelope;
  json_Marshal : Envelope -> goerror + bytes;
  json_Unmarshal : bytes -> option goerror;
  Sprintf_v_decoded : bytes -> string;
  otelbaggage_Parse : string -> option goerror;
  ReservedGRPCMetadataToDaprPrefixHeader : string -> string;
  GetModifiedStateKey : string -> string -> string -> goerror + string;
  GetOriginalStateKey : string -> string;
  PerformBulkStoreOperation :
    forall T : Type, list T -> (T -> option goerror) ->
                     (list T -> option goerror) -> option goerror;
  EncryptedStateStore : string -> bool;
  TryEncryptValue : string -> bytes -> goerror + bytes;
  TryDecryptValue : string -> bytes -> option (goerror + bytes);
  stateConsistencyToString : StateConsistency -> string;
  stateConcurrencyToString : StateConcurrency -> string;
  mapRangeRank : nat -> nat;
}.

(** Header names of package [diagConsts], the metadata key and content type
    of the component library, and the constants of grpc.go. *)
Definition TraceparentHeader : string := "traceparent".
Definition TracestateHeader : string := "tracestate".
Definition BaggageHeader : string := "baggage".
Definition contribMetadata_ContentType : string := "contentType".
Definition JSONContentType : string := "application/json".
Definition daprHTTPStatusHeader : string := "dapr-http-status".
Definition metadataPrefix : string := "metadata.".

Record PubsubAdapter : Type := {
  BulkPublish :
    pubsub.BulkPublishRequest -> pubsub.BulkPublishResponse * option goerror;
}.

Record Outbox : Type := {
  Enabled : string -> bool;
  PublishInternal :
    string -> list state.TransactionalStateOperation -> string -> string ->
    string -> goerror + list state.TransactionalStateOperation;
}.

(** The receiver [*api]: the fields and the methods of the embedded
    [Universal] that the handlers below use. *)
Record api : Type := {
  AppID : string;
  pubsubAdapter : option PubsubAdapter;
  GetPubSub : string -> option pubsub.PubSub;
  GetStateStore : string -> apierror + state.Store;
  outbox : Outbox;
  sendToOutputBindingFn :
    RequestContext -> string -> bindings.InvokeRequest ->
    option bindings.InvokeResponse * option goerror;
}.

(** ** The handlers *)

Section Handlers.
Context (pkg : Imports) (a : api).

(** [validateAndGetPubsubAndTopic] (grpc.go, lines 141-171). *)
Definition validateAndGetPubsubAndTopic (pubsubName topic : string)
    (reqMeta : Metadata)
  : apierror + (pubsub.PubSub * string * string * bool) :=
  match pubsubAdapter a with
  | None => inl (PubSubError PS_NotConfigured pubsubName "" None)
  | Some _ =>
      if decide (pubsubName = "") then
        inl (PubSubError PS_NameEmpty pubsubName "" None)
      else
        match GetPubSub a pubsubName with
        | None => inl (PubSubError PS_NotFound pubsubName "" None)
        | Some thepubsub =>
            if decide (topic = "") then
              inl (PubSubError PS_TopicEmpty pubsubName "" None)
            else
              match IsRawPayload pkg reqMeta with
              | inl metaErr =>
                  inl (PubSubError PS_DeserializeError pubsubName ""
                                   (Some metaErr))
              | inr rawPayload =>
                  inr (thepubsub, pubsubName, topic, rawPayload)
              end
        end
  end.

(** [for _, span := range spanMap] over a map with the keys [keys]: the
    order of the visits. *)
Definition mapRange (keys : list nat) : list nat :=
  merge_sort
    (fun i j => Nat.leb (mapRangeRank pkg i) (mapRangeRank pkg j)) keys.

(** The spans are given their status and ended, one after the other. *)
Fixpoint endSpans {R} (spans : list nat) (err : option apierror)
  : M R unit :=
  match spans with
  | [] => mret tt
  | i :: rest => _ ← emit (EndChildSpan i err); endSpans rest err
  end.

(** The closure [closeChildSpans] of [BulkPublishEventAlpha1] (lines
    370-375): every span of the span map gets its status and is ended, in
    the order in which the map is ranged over.  [spanMap] holds the keys of
    the map. *)
Definition closeChildSpans {R} (spanMap : list nat) (err : option apierror)
  : M R unit :=
  endSpans (mapRange spanMap) err.

(** The loop over the entries of [BulkPublishEventAlpha1] (lines 381-439),
    from entry number [i] on: [entryIdSet] holds the ids seen so far,
    [spanMap] the entries a child span was started for, [entries] the
    entries built so far. *)
Fixpoint bulkPublishEntries (ctx : RequestContext) (in_ : BulkPublishRequest)
    (features : list string) (pubsubName topic : string) (rawPayload : bool)
    (i : nat) (rest : list BulkPublishRequestEntry)
    (entryIdSet : gset string) (spanMap : list nat)
    (entries : list pubsub.BulkMessageEntry)
  : M BulkPublishResponse (list nat * list pubsub.BulkMessageEntry) :=
  match rest with
  | [] => mret (spanMap, entries)
  | entry :: rest' =>
      if decide (bpe_EntryId entry ∈ entryIdSet ∨ bpe_EntryId entry = "")
      then
        return_ {| bres_FailedEntries := [] |}
          (Some (PubSubError PS_MarshalEvents pubsubName topic
             (Some (errors_New
                "entryId is duplicated or not present for entry"))))
      else
        let entryIdSet := {[ bpe_EntryId entry ]} ∪ entryIdSet in
        let md :=
          match bpe_Metadata entry with
          | Some m =>
              Some (PopulateMetadataForBulkPublishEntry pkg
                      (bpr_Metadata in_) m)
          | None => None
          end in
        if rawPayload then
          bulkPublishEntries ctx in_ features pubsubName topic rawPayload
            (S i) rest' entryIdSet spanMap
            (entries ++
             [{| pubsub.EntryId := bpe_EntryId entry;
                 pubsub.Event := bpe_Event entry;
                 pubsub.ContentType := bpe_ContentType entry;
                 pubsub.Metadata := md |}])
        else
          _ ← emit (StartChildSpan i);
          let '(traceID, traceState) := ChildTraceIDAndState ctx i in
          let spanMap := spanMap ++ [i] in
          match NewCloudEvent pkg
                  {| ce_Source := AppID a;
                     ce_Topic := topic;
                     ce_DataContentType := bpe_ContentType entry;
                     ce_Data := bpe_Event entry;
                     ce_TraceID := traceID;
                     ce_TraceState := traceState;
                     ce_Pubsub := pubsubName |} md with
          | inl err =>
              let nerr :=
                PubSubError PS_CloudEventCreation pubsubName "" (Some err) in
              _ ← closeChildSpans spanMap (Some nerr);
              return_ {| bres_FailedEntries := [] |} (Some nerr)
          | inr envelope =>
              let envelope := ApplyMetadata pkg envelope features md in
              match json_Marshal pkg envelope with
              | inl err =>
                  let nerr :=
                    PubSubError PS_MarshalEnvelope pubsubName topic
                                (Some err) in
                  _ ← closeChildSpans spanMap (Some nerr);
                  return_ {| bres_FailedEntries := [] |} (Some nerr)
              | inr event =>
                  bulkPublishEntries ctx in_ features pubsubName topic
                    rawPayload (S i) rest' entryIdSet spanMap
                    (entries ++
                     [{| pubsub.EntryId := bpe_EntryId entry;
                         pubsub.Event := event;
                         pubsub.ContentType := bpe_ContentType entry;
                         pubsub.Metadata := md |}])
              end
          end
  end.

(** The failed entries of the broker as entries of the response (lines
    483-490). *)
Definition failedEntries (res : pubsub.BulkPublishResponse)
  : list BulkPublishResponseFailedEntry :=
  map (fun r =>
         {| fe_EntryId := pubsub.FailedEntryId r;
            fe_Error := match pubsub.FailedError r with
                        | Some e => Error e
                        | None => ""
                        end |})
      (pubsub.FailedEntries res).

(** [BulkPublishEventAlpha1] (lines 358-494). *)
Definition BulkPublishEventAlpha1 (ctx : RequestContext) (in_ : BulkPublishRequest)
  : Outcome BulkPublishResponse :=
  run (
    match validateAndGetPubsubAndTopic (bpr_PubsubName in_) (bpr_Topic in_)
            (bpr_Metadata in_) with
    | inl validationErr =>
        return_ {| bres_FailedEntries := [] |} (Some validationErr)
    | inr (thepubsub, pubsubName, topic, rawPayload) =>
        let features := pubsub.Features thepubsub in
        '(spanMap, entries) ←
          bulkPublishEntries ctx in_ features pubsubName topic rawPayload
            0%nat (bpr_Entries in_) ∅ [] [];
        let req :=
          {| pubsub.PubsubName := pubsubName;
             pubsub.Topic := topic;
             pubsub.Entries := entries;
             pubsub.ReqMetadata := bpr_Metadata in_ |} in
        match pubsubAdapter a with
        | None => panic
        | Some adapter =>
            _ ← emit (Call_BulkPublish req);
            let '(res, err) := BulkPublish adapter req in
            let eventsPublished :=
              if decide (length (pubsub.FailedEntries res) ≠ 0%nat) then
                Z.of_nat (length (pubsub.Entries req))
                - Z.of_nat (length (pubsub.FailedEntries res))
              else Z.of_nat (length (pubsub.Entries req)) in
            _ ← emit (BulkPubsubEgressEvent pubsubName topic
                        (bool_decide (err = None)) eventsPublished);
            match err with
            | Some err =>
                let nerr :=
                  if errors_As_NotAllowedError err then
                    PubSubError PS_PublishForbidden pubsubName topic
                                (Some err)
                  else if errors_As_NotFoundError err then
                    PubSubError PS_TestNotFound pubsubName topic (Some err)
                  else
                    PubSubError PS_PublishMessage pubsubName topic
                                (Some err) in
                _ ← closeChildSpans spanMap (Some nerr);
                return_ {| bres_FailedEntries := [] |} (Some nerr)
            | None =>
                _ ← closeChildSpans spanMap None;
                return_ {| bres_FailedEntries := failedEntries res |} None
            end
        end
    end).

(** [stringValueOrEmpty] (lines 1201-1207). *)
Definition stringValueOrEmpty (value : option string) : string :=
  match value with
  | None => ""
  | Some v => v
  end.

(** The baggage block of [InvokeBinding] (lines 523-531). *)
Definition invokeBindingBaggage {R} (ctx : RequestContext)
    (incomingMD : gmap string (list string)) (reqMetadata : Metadata)
  : M (option R) (RequestContext * Metadata) :=
  let baggageValues := default [] (incomingMD !! BaggageHeader) in
  if decide (0 < length baggageValues)%nat then
    let baggageString := strings_Join baggageValues "," in
    match otelbaggage_Parse pkg baggageString with
    | Some err => return_ None (Some (Upstream err))
    | None =>
        mret (ContextWithBaggage ctx baggageString,
              <[BaggageHeader := baggageString]> reqMetadata)
    end
  else mret (ctx, reqMetadata).

(** The loop over the incoming metadata of [InvokeBinding] (lines
    533-540), over the pairs in the order the map yields them.  Indexing
    an empty value slice panics. *)
Fixpoint invokeBindingIncoming {R} (kvs : list (string * list string))
    (reqMetadata : Metadata) : M R Metadata :=
  match kvs with
  | [] => mret reqMetadata
  | (key, val) :: rest =>
      let sanitizedKey := ReservedGRPCMetadataToDaprPrefixHeader pkg key in
      if decide (reqMetadata !! sanitizedKey = None
                 ∨ key = TraceparentHeader ∨ key = TracestateHeader)
      then
        match val with
        | [] => panic
        | v0 :: _ =>
            invokeBindingIncoming rest (<[sanitizedKey := v0]> reqMetadata)
        end
      else invokeBindingIncoming rest reqMetadata
  end.

Fixpoint setHeaders {R} (kvs : list (string * string)) : M R unit :=
  match kvs with
  | [] => mret tt
  | (k, v) :: rest =>
      _ ← emit (grpc_SetHeader (metadataPrefix +:+ k) v); setHeaders rest
  end.

(** [InvokeBinding] (lines 496-569).  The response is [None] where the
    source returns a nil response. *)
Definition InvokeBinding (ctx : RequestContext) (in_ : InvokeBindingRequest)
  : Outcome (option InvokeBindingResponse) :=
  run (
    let reqMetadata := ibr_Metadata in_ in
    let tp := SpanContextToW3CString ctx in
    let reqMetadata :=
      if SpanNonNil ctx then
        let m :=
          match reqMetadata !! TraceparentHeader with
          | Some _ => reqMetadata
          | None => <[TraceparentHeader := tp]> reqMetadata
          end in
        match m !! TracestateHeader with
        | Some _ => m
        | None =>
            match TraceStateToW3CString ctx with
            | Some ts => <[TracestateHeader := ts]> m
            | None => m
            end
        end
      else reqMetadata in
    '(ctx, reqMetadata) ←
      match FromIncomingContext ctx with
      | Some incomingMD =>
          '(ctx, reqMetadata) ←
            invokeBindingBaggage ctx incomingMD reqMetadata;
          reqMetadata ←
            invokeBindingIncoming (map_to_list incomingMD) reqMetadata;
          mret (ctx, reqMetadata)
      | None => mret (ctx, reqMetadata)
      end;
    let req :=
      {| bindings.Metadata := reqMetadata;
         bindings.Operation := ibr_Operation in_;
         bindings.Data := ibr_Data in_ |} in
    let r := {| ibres_Data := []; ibres_Metadata := ∅ |} in
    _ ← emit (Call_sendToOutputBindingFn ctx (ibr_Name in_) req);
    let '(resp, err) := sendToOutputBindingFn a ctx (ibr_Name in_) req in
    _ ← emit (OutputBindingEvent (ibr_Name in_) (ibr_Operation in_)
                (bool_decide (err = None)));
    _ ← match resp with
        | Some resp => setHeaders (map_to_list (bindings.RespMetadata resp))
        | None => mret tt
        end;
    match err with
    | Some err =>
        return_ (Some r)
          (Some (Basic codes.Internal 500 BindingInvokeOutputBinding
                   (Sprintf ErrInvokeOutputBinding
                      [ibr_Name in_; Error err])))
    | None =>
        match resp with
        | Some resp =>
            return_ (Some {| ibres_Data := bindings.RespData resp;
                             ibres_Metadata := bindings.RespMetadata resp |})
                    None
        | None => return_ (Some r) None
        end
    end).

(** The loop building the driver requests of [GetBulkState] (lines
    585-595). *)
Fixpoint getBulkStateReqs (in_ : GetBulkStateRequest) (keys : list string)
  : M GetBulkStateResponse (list state.GetRequest) :=
  match keys with
  | [] => mret []
  | k :: rest =>
      match GetModifiedStateKey pkg k (gbr_StoreName in_) (AppID a) with
      | inl err => return_ {| gbres_Items := [] |} (Some (Upstream err))
      | inr key =>
          reqs ← getBulkStateReqs in_ rest;
          mret ({| state.GetKey := key;
                   state.GetMetadata := gbr_Metadata in_;
                   state.GetOptions := {| state.GetConsistency := "" |} |}
                :: reqs)
      end
  end.

(** One driver response as an item of the response (lines 615-621). *)
Definition bulkStateItem (r : state.BulkGetResponse) : BulkStateItem :=
  {| bsi_Key := GetOriginalStateKey pkg (state.BulkKey r);
     bsi_Data := state.BulkData r;
     bsi_Etag := stringValueOrEmpty (state.BulkETag r);
     bsi_Metadata := state.BulkMetadata r;
     bsi_Error := state.BulkError r |}.

(** The decryption of one item on an encrypted store (lines 626-641). *)
Definition decryptBulkItem {R} (storeName : string) (item : BulkStateItem)
  : M R BulkStateItem :=
  if decide (bsi_Error item ≠ "" ∨ length (bsi_Data item) = 0%nat) then
    mret {| bsi_Key := bsi_Key item; bsi_Data := [];
            bsi_Etag := bsi_Etag item; bsi_Error := bsi_Error item;
            bsi_Metadata := bsi_Metadata item |}
  else
    match TryDecryptValue pkg storeName (bsi_Data item) with
    | None => panic
    | Some (inl err) =>
        mret {| bsi_Key := bsi_Key item; bsi_Data := [];
                bsi_Etag := bsi_Etag item; bsi_Error := Error err;
                bsi_Metadata := bsi_Metadata item |}
    | Some (inr val) =>
        mret {| bsi_Key := bsi_Key item; bsi_Data := val;
                bsi_Etag := bsi_Etag item; bsi_Error := bsi_Error item;
                bsi_Metadata := bsi_Metadata item |}
    end.

(** The loop over the items on an encrypted store (lines 625-642). *)
Fixpoint decryptBulkItems {R} (storeName : string)
    (items : list BulkStateItem) : M R (list BulkStateItem) :=
  match items with
  | [] => mret []
  | item :: rest =>
      item ← decryptBulkItem storeName item;
      rest ← decryptBulkItems storeName rest;
      mret (item :: rest)
  end.

(** [GetBulkState] (lines 571-645). *)
Definition GetBulkState (ctx : RequestContext) (in_ : GetBulkStateRequest)
  : Outcome GetBulkStateResponse :=
  run (
    let bulkResp := {| gbres_Items := [] |} in
    match GetStateStore a (gbr_StoreName in_) with
    | inl err => return_ bulkResp (Some err)
    | inr store =>
        if decide (length (gbr_Keys in_) = 0%nat) then
          return_ bulkResp None
        else
          reqs ← getBulkStateReqs in_ (gbr_Keys in_);
          _ ← emit (Call_BulkGet (gbr_StoreName in_) reqs
                      (gbr_Parallelism in_));
          let '(responses, err) :=
            state.BulkGet store reqs (gbr_Parallelism in_) in
          _ ← emit (StateInvoked (gbr_StoreName in_) diag_BulkGet
                      (bool_decide (err = None)));
          match err with
          | Some err => return_ bulkResp (Some (Upstream err))
          | None =>
              let items := map bulkStateItem responses in
              items ←
                (if EncryptedStateStore pkg (gbr_StoreName in_) then
                   decryptBulkItems (gbr_StoreName in_) items
                 else mret items);
              return_ {| gbres_Items := items |} None
          end
    end).

(** [GetState] (lines 647-709). *)
Definition GetState (ctx : RequestContext) (in_ : GetStateRequest)
  : Outcome GetStateResponse :=
  run (
    let zero := {| gsres_Data := []; gsres_Etag := ""; gsres_Metadata := ∅ |} in
    match GetStateStore a (gsr_StoreName in_) with
    | inl err => return_ zero (Some err)
    | inr store =>
        match GetModifiedStateKey pkg (gsr_Key in_) (gsr_StoreName in_)
                (AppID a) with
        | inl err => return_ zero (Some (Upstream err))
        | inr key =>
            let req :=
              {| state.GetKey := key;
                 state.GetMetadata := gsr_Metadata in_;
                 state.GetOptions :=
                   {| state.GetConsistency :=
                        stateConsistencyToString pkg (gsr_Consistency in_) |}
              |} in
            _ ← emit (Call_Get (gsr_StoreName in_) req);
            let '(getResponse, err) := state.Get store req in
            _ ← emit (StateInvoked (gsr_StoreName in_) diag_Get
                        (bool_decide (err = None)));
            match err with
            | Some err =>
                let err :=
                  match kiterrors_FromError err with
                  | Some (c, m) => KitStatusErr c m
                  | None =>
                      Basic codes.Internal 500 StateGet
                        (Sprintf ErrStateGet
                           [gsr_Key in_; gsr_StoreName in_; Error err])
                  end in
                return_ zero (Some err)
            | None =>
                let getResponse :=
                  default {| state.Data := []; state.ETag := None;
                             state.Metadata := ∅ |} getResponse in
                data ←
                  (if EncryptedStateStore pkg (gsr_StoreName in_) then
                     match TryDecryptValue pkg (gsr_StoreName in_)
                             (state.Data getResponse) with
                     | None => panic
                     | Some (inl err) =>
                         return_ zero
                           (Some (Basic codes.Internal 500 StateGet
                              (Sprintf ErrStateGet
                                 [gsr_Key in_; gsr_StoreName in_;
                                  Error err])))
                     | Some (inr val) => mret val
                     end
                   else mret (state.Data getResponse));
                return_
                  {| gsres_Etag :=
                       stringValueOrEmpty (state.ETag getResponse);
                     gsres_Data := data;
                     gsres_Metadata := state.Metadata getResponse |}
                  None
            end
        end
    end).

(** [getStateErrorCode] (lines 795-808). *)
Definition getStateErrorCode (err : goerror) : codes.Code :=
  match errors_As_ETagError err with
  | Some ETagMismatch => codes.Aborted
  | Some ETagInvalid => codes.InvalidArgument
  | _ => codes.Internal
  end.

Definition zeroSetStateOption : state.SetStateOption :=
  {| state.SetConcurrency := ""; state.SetConsistency := "" |}.
Definition zeroDeleteStateOption : state.DeleteStateOption :=
  {| state.DelConcurrency := ""; state.DelConsistency := "" |}.

Definition setStateOption (o : option StateOptions) : state.SetStateOption :=
  match o with
  | Some o =>
      {| state.SetConsistency :=
           stateConsistencyToString pkg (so_Consistency o);
         state.SetConcurrency :=
           stateConcurrencyToString pkg (so_Concurrency o) |}
  | None => zeroSetStateOption
  end.

Definition deleteStateOption (o : option StateOptions)
  : state.DeleteStateOption :=
  match o with
  | Some o =>
      {| state.DelConcurrency :=
           stateConcurrencyToString pkg (so_Concurrency o);
         state.DelConsistency :=
           stateConsistencyToString pkg (so_Consistency o) |}
  | None => zeroDeleteStateOption
  end.

(** The loop building the set requests of [SaveState] (lines 726-770). *)
Fixpoint saveStateReqs (storeName : string) (states : list StateItem)
  : M unit (list state.SetRequest) :=
  match states with
  | [] => mret []
  | s :: rest =>
      if decide (String.length (si_Key s) = 0%nat) then
        return_ tt (Some (Basic codes.InvalidArgument 400 StateSave
                            (Lit "state key cannot be empty")))
      else
        match GetModifiedStateKey pkg (si_Key s) storeName (AppID a) with
        | inl err => return_ tt (Some (Upstream err))
        | inr key =>
            value ←
              (if decide (si_Metadata s !! contribMetadata_ContentType
                          = Some JSONContentType) then
                 match json_Unmarshal pkg (si_Value s) with
                 | Some err => return_ tt (Some (Upstream err))
                 | None => mret (VJSON (si_Value s))
                 end
               else mret (VBytes (si_Value s)));
            value ←
              (if EncryptedStateStore pkg storeName then
                 match TryEncryptValue pkg storeName (si_Value s) with
                 | inl encErr => return_ tt (Some (Upstream encErr))
                 | inr val => mret (VBytes val)
                 end
               else mret value);
            reqs ← saveStateReqs storeName rest;
            mret ({| state.SetKey := key;
                     state.SetValue := value;
                     state.SetETag := si_Etag s;
                     state.SetMetadata := si_Metadata s;
                     state.SetOptions := setStateOption (si_Options s) |}
                  :: reqs)
        end
  end.

(** [SaveState] (lines 711-793). *)
Definition SaveState (ctx : RequestContext) (in_ : SaveStateRequest)
  : Outcome unit :=
  run (
    match GetStateStore a (ssr_StoreName in_) with
    | inl err => return_ tt (Some err)
    | inr store =>
        let l := length (ssr_States in_) in
        if decide (l = 0%nat) then return_ tt None
        else
          reqs ← saveStateReqs (ssr_StoreName in_) (ssr_States in_);
          _ ← emit (Call_PerformBulkStoreOperation_Set (ssr_StoreName in_)
                      reqs);
          let err :=
            PerformBulkStoreOperation pkg state.SetRequest reqs
              (state.Set_ store) (state.BulkSet store) in
          _ ← emit (StateInvoked (ssr_StoreName in_) diag_Set
                      (bool_decide (err = None)));
          match err with
          | Some err =>
              let err :=
                match kiterrors_FromError err with
                | Some (c, m) => KitErr c m
                | None =>
                    Basic (getStateErrorCode err) 500 StateSave
                      (Sprintf ErrStateSave
                         [ssr_StoreName in_; Error err])
                end in
              return_ tt (Some err)
          | None => return_ tt None
          end
    end).

(** [DeleteState] (lines 810-858). *)
Definition DeleteState (ctx : RequestContext) (in_ : DeleteStateRequest)
  : Outcome unit :=
  run (
    match GetStateStore a (dsr_StoreName in_) with
    | inl err => return_ tt (Some err)
    | inr store =>
        match GetModifiedStateKey pkg (dsr_Key in_) (dsr_StoreName in_)
                (AppID a) with
        | inl err => return_ tt (Some (Upstream err))
        | inr key =>
            let req :=
              {| state.DelKey := key;
                 state.DelMetadata := dsr_Metadata in_;
                 state.DelETag := dsr_Etag in_;
                 state.DelOptions := deleteStateOption (dsr_Options in_) |}
            in
            _ ← emit (Call_Delete (dsr_StoreName in_) req);
            let err := state.Delete store req in
            _ ← emit (StateInvoked (dsr_StoreName in_) diag_Delete
                        (bool_decide (err = None)));
            match err with
            | Some err =>
                let err :=
                  match kiterrors_FromError err with
                  | Some (c, m) => KitErr c m
                  | None =>
                      Basic (getStateErrorCode err) 500 StateDelete
                        (Sprintf ErrStateDelete [dsr_Key in_; Error err])
                  end in
                return_ tt (Some err)
            | None => return_ tt None
            end
        end
    end).

(** The loop building the delete requests of [DeleteBulkState] (lines
    870-889). *)
Fixpoint deleteBulkStateReqs (storeName : string) (states : list StateItem)
  : M unit (list state.DeleteRequest) :=
  match states with
  | [] => mret []
  | item :: rest =>
      match GetModifiedStateKey pkg (si_Key item) storeName (AppID a) with
      | inl err1 => return_ tt (Some (Upstream err1))
      | inr key =>
          reqs ← deleteBulkStateReqs storeName rest;
          mret ({| state.DelKey := key;
                   state.DelMetadata := si_Metadata item;
                   state.DelETag := si_Etag item;
                   state.DelOptions := deleteStateOption (si_Options item) |}
                :: reqs)
      end
  end.

(** [DeleteBulkState] (lines 860-913). *)
Definition DeleteBulkState (ctx : RequestContext) (in_ : DeleteBulkStateRequest)
  : Outcome unit :=
  run (
    match GetStateStore a (dbr_StoreName in_) with
    | inl err => return_ tt (Some err)
    | inr store =>
        reqs ← deleteBulkStateReqs (dbr_StoreName in_) (dbr_States in_);
        _ ← emit (Call_PerformBulkStoreOperation_Delete (dbr_StoreName in_)
                    reqs);
        let err :=
          PerformBulkStoreOperation pkg state.DeleteRequest reqs
            (state.Delete store) (state.BulkDelete store) in
        _ ← emit (StateInvoked (dbr_StoreName in_) diag_BulkDelete
                    (bool_decide (err = None)));
        match err with
        | Some err =>
            let err :=
              match kiterrors_FromError err with
              | Some (c, m) => KitErr c m
              | None =>
                  Basic (getStateErrorCode err) 500 StateBulkDelete
                    (Sprintf ErrStateDeleteBulk
                       [dbr_StoreName in_; Error err])
              end in
            return_ tt (Some err)
        | None => return_ tt None
        end
    end).

(** [extractEtag] (lines 915-920). *)
Definition extractEtag (req : StateItem) : bool * string :=
  match si_Etag req with
  | Some v => (true, v)
  | None => (false, "")
  end.

(** The loop building the operations of [ExecuteStateTransaction] (lines
    937-991). *)
Fixpoint transactionOperations (storeName : string)
    (ops : list TransactionalStateOperation)
  : M unit (list state.TransactionalStateOperation) :=
  match ops with
  | [] => mret []
  | inputReq :: rest =>
      let req := tso_Request inputReq in
      let '(hasEtag, etag) := extractEtag req in
      match GetModifiedStateKey pkg (si_Key req) storeName (AppID a) with
      | inl err => return_ tt (Some (Upstream err))
      | inr key =>
          op ←
            (if decide (tso_OperationType inputReq = state.OperationUpsert)
             then
               mret (state.OpSet
                 {| state.SetKey := key;
                    state.SetValue := VBytes (si_Value req);
                    state.SetMetadata := si_Metadata req;
                    state.SetETag := if hasEtag then Some etag else None;
                    state.SetOptions := setStateOption (si_Options req) |})
             else if decide (tso_OperationType inputReq
                             = state.OperationDelete)
             then
               mret (state.OpDelete
                 {| state.DelKey := key;
                    state.DelMetadata := si_Metadata req;
                    state.DelETag := if hasEtag then Some etag else None;
                    state.DelOptions :=
                      deleteStateOption (si_Options req) |})
             else
               return_ tt
                 (Some (Basic codes.Unimplemented 500
                          StateNotSupportedOperation
                          (Sprintf ErrNotSupportedStateOperation
                             [tso_OperationType inputReq]))));
          operations ← transactionOperations storeName rest;
          mret (op :: operations)
      end
  end.

(** [fmt.Sprintf("%v", req.Value)]. *)
Definition Sprintf_v (v : AnyValue) : string :=
  match v with
  | VBytes b => Sprintf_v_bytes b
  | VJSON raw => Sprintf_v_decoded pkg raw
  end.

(** The encryption loop of [ExecuteStateTransaction] (lines 1003-1017). *)
Fixpoint encryptOperations (storeName : string)
    (operations : list state.TransactionalStateOperation)
  : M unit (list state.TransactionalStateOperation) :=
  match operations with
  | [] => mret []
  | op :: rest =>
      op ←
        match op with
        | state.OpSet req =>
            let data := bytes_of_string (Sprintf_v (state.SetValue req)) in
            match TryEncryptValue pkg storeName data with
            | inl err =>
                return_ tt
                  (Some (Basic codes.Internal 500 StateTransaction
                           (Sprintf ErrStateTransaction [Error err])))
            | inr val =>
                mret (state.OpSet
                  {| state.SetKey := state.SetKey req;
                     state.SetValue := VBytes val;
                     state.SetETag := state.SetETag req;
                     state.SetMetadata := state.SetMetadata req;
                     state.SetOptions := state.SetOptions req |})
            end
        | state.OpDelete _ => mret op
        end;
      rest ← encryptOperations storeName rest;
      mret (op :: rest)
  end.

(** [ExecuteStateTransaction] (lines 922-1055).  The trace identifier and
    state handed to the outbox are those of the span of the context. *)
Definition ExecuteStateTransaction (ctx : RequestContext)
    (in_ : ExecuteStateTransactionRequest) : Outcome unit :=
  run (
    match GetStateStore a (etr_StoreName in_) with
    | inl storeErr => return_ tt (Some storeErr)
    | inr store =>
        if negb (state.IsTransactionalStore store)
           || negb (bool_decide
                      (state.FeatureTransactional ∈ state.Features store))
        then
          return_ tt (Some (StateStoreError SS_TransactionsNotSupported
                              (etr_StoreName in_)))
        else
          operations ←
            transactionOperations (etr_StoreName in_) (etr_Operations in_);
          _ ←
            match state.MultiMaxSize store with
            | Some max =>
                if decide (0 < max ∧ max < Z.of_nat (length operations))
                then
                  return_ tt
                    (Some (StateStoreError
                             (SS_TooManyTransactionalOps
                                (Z.of_nat (length operations)) max)
                             (etr_StoreName in_)))
                else mret tt
            | None => mret tt
            end;
          operations ←
            (if EncryptedStateStore pkg (etr_StoreName in_) then
               encryptOperations (etr_StoreName in_) operations
             else mret operations);
          operations ←
            (if Enabled (outbox a) (etr_StoreName in_) then
               _ ← emit (Call_outbox_PublishInternal (etr_StoreName in_)
                           operations);
               match PublishInternal (outbox a) (etr_StoreName in_)
                       operations (AppID a) (SpanContextToW3CString ctx)
                       (default "" (TraceStateToW3CString ctx)) with
               | inl err => return_ tt (Some (PubSubOutbox (AppID a) err))
               | inr ops => mret ops
               end
             else mret operations);
          let storeReq :=
            {| state.Operations := operations;
               state.TxMetadata := etr_Metadata in_ |} in
          _ ← emit (Call_Multi (etr_StoreName in_) storeReq);
          let err := state.Multi store storeReq in
          _ ← emit (StateInvoked (etr_StoreName in_) diag_StateTransaction
                      (bool_decide (err = None)));
          match err with
          | Some err =>
              return_ tt
                (Some (Basic codes.Internal 500 StateTransaction
                         (Sprintf ErrStateTransaction [Error err])))
          | None => return_ tt None
          end
    end).
End Handlers.

(** ** Configuration subscriptions *)

Module configuration.
Record Item : Type := {
  Value : string;
  Version : string;
  Metadata : gmap string string;
}.

(** [configuration.UpdateEvent]. *)
Record UpdateEvent : Type := {
  ID : string;
  Items : gmap string Item;
}.
End configuration.

(** [commonv1pb.ConfigurationItem]. *)
Record ConfigurationItem : Type := {
  ci_Value : string;
  ci_Version : string;
  ci_Metadata : Metadata;
}.

(** [runtimev1pb.SubscribeConfigurationResponse]. *)
Record SubscribeConfigurationResponse : Type := {
  scr_Id : string;
  scr_Items : gmap string ConfigurationItem;
}.

Record UnsubscribeConfigurationRequest : Type := {
  ucr_StoreName : string;
  ucr_Id : string;
}.

Record UnsubscribeConfigurationResponse : Type := {
  ucres_Ok : bool;
  ucres_Message : Message;
}.

(** The part of the component store that holds configuration stores and
    the subscription table.  A stop channel is named by a number;
    [closedChannels] are the channels closed so far. *)
Record ComponentStore : Type := {
  configurations : gset string;
  configurationSubscribes : gmap string nat;
  closedChannels : gset nat;
}.

(** Modelled from the spec: the methods of the component store (package
    compstore is not part of these sources).  The subscription table is
    indexed by subscription id; an entry is created on subscribe and removed
    on unsubscribe, and removing it flips the stop signal of the owning
    stream. *)
Definition ConfigurationsLen (cs : ComponentStore) : nat :=
  size (configurations cs).

Definition GetConfiguration (cs : ComponentStore) (name : string) : bool :=
  bool_decide (name ∈ configurations cs).

Definition GetConfigurationSubscribe (cs : ComponentStore) (id : string)
  : option nat :=
  configurationSubscribes cs !! id.

Definition AddConfigurationSubscribe (cs : ComponentStore) (id : string)
    (stop : nat) : ComponentStore :=
  {| configurations := configurations cs;
     configurationSubscribes := <[id := stop]> (configurationSubscribes cs);
     closedChannels := closedChannels cs |}.

Definition DeleteConfigurationSubscribe (cs : ComponentStore) (id : string)
  : ComponentStore :=
  {| configurations := configurations cs;
     configurationSubscribes := delete id (configurationSubscribes cs);
     closedChannels :=
       match configurationSubscribes cs !! id with
       | Some stop => {[ stop ]} ∪ closedChannels cs
       | None => closedChannels cs
       end |}.

(** [getConfigurationStore] (lines 1209-1221): the error, if any. *)
Definition getConfigurationStore (cs : ComponentStore) (name : string)
  : option apierror :=
  if decide (ConfigurationsLen cs = 0%nat) then
    Some (Basic codes.FailedPrecondition 500 ConfigurationStoreNotConfigured
            (Sprintf ErrConfigurationStoresNotConfigured []))
  else if GetConfiguration cs name then None
  else
    Some (Basic codes.InvalidArgument 500 ConfigurationStoreNotFound
            (Sprintf ErrConfigurationStoreNotFound [name])).

(** [UnsubscribeConfiguration] (lines 1435-1455): the outcome and the
    component store it leaves. *)
Definition UnsubscribeConfiguration (cs : ComponentStore)
    (request : UnsubscribeConfigurationRequest)
  : Outcome UnsubscribeConfigurationResponse * ComponentStore :=
  let subscribeID := ucr_Id request in
  match GetConfigurationSubscribe cs subscribeID with
  | None =>
      (Return {| ucres_Ok := false;
                 ucres_Message :=
                   Sprintf ErrConfigurationUnsubscribe
                     [subscribeID; "subscription does not exist"] |} None,
       [RecordErrorCode ConfigurationUnsubscribe],
       cs)
  | Some _ =>
      (Return {| ucres_Ok := true; ucres_Message := Lit "" |} None,
       [],
       DeleteConfigurationSubscribe cs subscribeID)
  end.

(** ** The stream behind [SubscribeConfiguration]

    [SubscribeConfiguration] runs in one goroutine while the driver invokes
    [updateEventHandler] from goroutines of its own.  The stream is modelled
    as a machine whose state holds where each of them stands; a [Label]
    names who moves next and what the environment answers.  [step] returns
    [None] when that move is not possible in the state (the goroutine is
    blocked, or is not at that statement). *)
Module Subscription.

Record SubscribeConfigurationRequest : Type := {
  StoreName : string;
  Keys : list string;
  ReqMetadata : gmap string string;
}.

(** The statement [SubscribeConfiguration] is about to execute. *)
Inductive MainPC : Type :=
| AtGetStore                        (* line 1319 *)
| AtSubscribe                       (* lines 1325-1338 *)
| AtSendID (subscribeID : string)   (* line 1346 *)
| AtAddSubscribe (subscribeID : string)   (* lines 1354-1355 *)
| AtReady (subscribeID : string)    (* line 1358 *)
| AtSelect (subscribeID : string)   (* lines 1361-1364 *)
| AtUnsubscribe (subscribeID : string)    (* lines 1367-1371 *)
| AtDelete (subscribeID : string)   (* line 1378 *)
| Returned (err : option apierror).

(** The statement an invocation of [updateEventHandler] is about to
    execute. *)
Inductive HandlerPC : Type :=
| AtReadyCh                         (* line 1292 *)
| AtLock                            (* line 1295 *)
| AtSend                            (* lines 1298-1310 *)
| AtUnlock (err : option goerror)   (* the deferred Unlock *)
| HandlerReturned (err : option goerror).

(** A call of [Send] on the server stream: who made it, the message, and
    what [Send] returned. *)
Inductive Sent : Type :=
| SentBySubscribe (m : SubscribeConfigurationResponse) (err : option goerror)
| SentByHandler (m : SubscribeConfigurationResponse) (err : option goerror).

Inductive ConfigOp : Set :=
| diag_ConfigurationSubscribe | diag_ConfigurationUnsubscribe.

(** What a stream does at the configuration store.  [Driver_Subscribe]
    (lines 1391-1396) and [Driver_Unsubscribe] (lines 1411-1420) each
    record one invocation of the policy runner that wraps the operation of
    the driver, not the calls of the driver the runner makes. *)
Inductive ConfigCall : Type :=
| Driver_Subscribe (keys : list string) (metadata : gmap string string)
| Driver_Unsubscribe (id : string)
| ConfigurationInvoked (storeName : string) (op : ConfigOp) (success : bool).

Record State : Type := {
  pc : MainPC;
  readyClosed : bool;
  lockHeld : option nat;
  handlers : list (configuration.UpdateEvent * HandlerPC);
  stream : list Sent;
  compStore : ComponentStore;
  stop : option nat;
  nextChannel : nat;
  ctxDone : bool;
  subscribeCtxDone : bool;
  configCalls : list ConfigCall;
}.

Definition init (cs : ComponentStore) (nextChannel : nat) : State :=
  {| pc := AtGetStore; readyClosed := false; lockHeld := None;
     handlers := []; stream := []; compStore := cs; stop := None;
     nextChannel := nextChannel; ctxDone := false;
     subscribeCtxDone := false; configCalls := [] |}.

Definition with_pc (s : State) (p : MainPC) : State :=
  {| pc := p; readyClosed := readyClosed s; lockHeld := lockHeld s;
     handlers := handlers s; stream := stream s; compStore := compStore s;
     stop := stop s; nextChannel := nextChannel s; ctxDone := ctxDone s;
     subscribeCtxDone := subscribeCtxDone s;
     configCalls := configCalls s |}.

Definition with_stream (s : State) (l : list Sent) : State :=
  {| pc := pc s; readyClosed := readyClosed s; lockHeld := lockHeld s;
     handlers := handlers s; stream := l; compStore := compStore s;
     stop := stop s; nextChannel := nextChannel s; ctxDone := ctxDone s;
     subscribeCtxDone := subscribeCtxDone s;
     configCalls := configCalls s |}.

Definition with_handlers (s : State)
    (h : list (configuration.UpdateEvent * HandlerPC)) : State :=
  {| pc := pc s; readyClosed := readyClosed s; lockHeld := lockHeld s;
     handlers := h; stream := stream s; compStore := compStore s;
     stop := stop s; nextChannel := nextChannel s; ctxDone := ctxDone s;
     subscribeCtxDone := subscribeCtxDone s;
     configCalls := configCalls s |}.

Definition with_lock (s : State) (l : option nat) : State :=
  {| pc := pc s; readyClosed := readyClosed s; lockHeld := l;
     handlers := handlers s; stream := stream s; compStore := compStore s;
     stop := stop s; nextChannel := nextChannel s; ctxDone := ctxDone s;
     subscribeCtxDone := subscribeCtxDone s;
     configCalls := configCalls s |}.

Definition with_compStore (s : State) (cs : ComponentStore) : State :=
  {| pc := pc s; readyClosed := readyClosed s; lockHeld := lockHeld s;
     handlers := handlers s; stream := stream s; compStore := cs;
     stop := stop s; nextChannel := nextChannel s; ctxDone := ctxDone s;
     subscribeCtxDone := subscribeCtxDone s;
     configCalls := configCalls s |}.

Definition with_calls (s : State) (l : list ConfigCall) : State :=
  {| pc := pc s; readyClosed := readyClosed s; lockHeld := lockHeld s;
     handlers := handlers s; stream := stream s; compStore := compStore s;
     stop := stop s; nextChannel := nextChannel s; ctxDone := ctxDone s;
     subscribeCtxDone := subscribeCtxDone s;
     configCalls := l |}.

(** [make(chan struct{})] at line 1354. *)
Definition make_stop (s : State) : State :=
  {| pc := pc s; readyClosed := readyClosed s; lockHeld := lockHeld s;
     handlers := handlers s; stream := stream s; compStore := compStore s;
     stop := Some (nextChannel s); nextChannel := S (nextChannel s);
     ctxDone := ctxDone s; subscribeCtxDone := subscribeCtxDone s;
     configCalls := configCalls s |}.

Definition cancel_ctx (s : State) : State :=
  {| pc := pc s; readyClosed := readyClosed s; lockHeld := lockHeld s;
     handlers := handlers s; stream := stream s; compStore := compStore s;
     stop := stop s; nextChannel := nextChannel s; ctxDone := true;
     subscribeCtxDone := true; configCalls := configCalls s |}.

(** [subscribeCancel()]. *)
Definition subscribeCancel (s : State) : State :=
  {| pc := pc s; readyClosed := readyClosed s; lockHeld := lockHeld s;
     handlers := handlers s; stream := stream s; compStore := compStore s;
     stop := stop s; nextChannel := nextChannel s; ctxDone := ctxDone s;
     subscribeCtxDone := true; configCalls := configCalls s |}.

(** [configurationEventHandler.ready] (lines 1283-1288): closes the ready
    channel unless it is closed already. *)
Definition ready (s : State) : State :=
  if readyClosed s then s
  else
    {| pc := pc s; readyClosed := true; lockHeld := lockHeld s;
       handlers := handlers s; stream := stream s;
       compStore := compStore s; stop := stop s;
       nextChannel := nextChannel s; ctxDone := ctxDone s;
       subscribeCtxDone := subscribeCtxDone s;
       configCalls := configCalls s |}.

(** A return of [SubscribeConfiguration] after the handler was built: the
    deferred [subscribeCancel] and [handler.ready] run. *)
Definition return_deferred (s : State) (err : option apierror) : State :=
  with_pc (ready (subscribeCancel s)) (Returned err).

(** The message [updateEventHandler] sends for an update event (lines
    1298-1310). *)
Definition updateMessage (e : configuration.UpdateEvent)
  : SubscribeConfigurationResponse :=
  {| scr_Items :=
       (fun v => {| ci_Value := configuration.Value v;
                    ci_Version := configuration.Version v;
                    ci_Metadata := configuration.Metadata v |})
         <$> configuration.Items e;
     scr_Id := configuration.ID e |}.

(** The first message of the stream (lines 1346-1348). *)
Definition idMessage (subscribeID : string)
  : SubscribeConfigurationResponse :=
  {| scr_Id := subscribeID; scr_Items := ∅ |}.

(** [slices.Sort] on strings. *)
Definition slices_Sort (l : list string) : list string :=
  merge_sort (fun x y => String.leb x y) l.

Inductive Label : Type :=
| GetStore
| Subscribe (res : goerror + string)
| SendID (res : option goerror)
| AddSubscribe
| Ready
| Select
| Unsubscribe (res : option goerror)
| Delete
| ConsumerCancel
| UnsubscribeRPC (req : UnsubscribeConfigurationRequest)
| Callback (e : configuration.UpdateEvent)
| Handler (i : nat) (sendResult : option goerror).

(** One step of invocation [i] of [updateEventHandler] (lines
    1290-1316). *)
Definition updateEventHandler_step (s : State) (i : nat) (sendResult : option goerror)
  : option State :=
  match handlers s !! i with
  | Some (e, AtReadyCh) =>
      if readyClosed s then Some (with_handlers s (<[i := (e, AtLock)]> (handlers s)))
      else None
  | Some (e, AtLock) =>
      match lockHeld s with
      | None =>
          Some (with_lock
                  (with_handlers s (<[i := (e, AtSend)]> (handlers s)))
                  (Some i))
      | Some _ => None
      end
  | Some (e, AtSend) =>
      Some (with_stream
              (with_handlers s
                 (<[i := (e, AtUnlock sendResult)]> (handlers s)))
              (stream s ++ [SentByHandler (updateMessage e) sendResult]))
  | Some (e, AtUnlock err) =>
      Some (with_lock
              (with_handlers s
                 (<[i := (e, HandlerReturned err)]> (handlers s)))
              None)
  | Some (_, HandlerReturned _) => None
  | None => None
  end.

Section Stream.
Context (request : SubscribeConfigurationRequest).

(** [SubscribeConfiguration] (lines 1318-1381), with
    [subscribeConfiguration] (lines 1383-1408) and
    [unsubscribeConfiguration] (lines 1410-1426), one statement at a
    time, interleaved with the driver callbacks. *)
Definition step (s : State) (l : Label) : option State :=
  match l, pc s with
  | GetStore, AtGetStore =>
      match getConfigurationStore (compStore s) (StoreName request) with
      | Some err => Some (with_pc s (Returned (Some err)))
      | None => Some (with_pc s AtSubscribe)
      end
  | Subscribe res, AtSubscribe =>
      let keys := slices_Sort (Keys request) in
      let s :=
        with_calls s
          (configCalls s ++
           [Driver_Subscribe keys (ReqMetadata request);
            ConfigurationInvoked (StoreName request)
              diag_ConfigurationSubscribe
              (match res with inr _ => true | inl _ => false end)]) in
      match res with
      | inl err =>
          Some (return_deferred s
                  (Some (Basic codes.InvalidArgument 500
                           ConfigurationSubscribe
                           (Sprintf ErrConfigurationSubscribe
                              [strings_Join keys " ";
                               StoreName request; Error err]))))
      | inr subscribeID => Some (with_pc s (AtSendID subscribeID))
      end
  | SendID res, AtSendID subscribeID =>
      let s :=
        with_stream s
          (stream s ++ [SentBySubscribe (idMessage subscribeID) res]) in
      match res with
      | Some err => Some (return_deferred s (Some (Upstream err)))
      | None => Some (with_pc s (AtAddSubscribe subscribeID))
      end
  | AddSubscribe, AtAddSubscribe subscribeID =>
      let s := make_stop s in
      Some (with_pc
              (with_compStore s
                 (AddConfigurationSubscribe (compStore s) subscribeID
                    (default 0%nat (stop s))))
              (AtReady subscribeID))
  | Ready, AtReady subscribeID =>
      Some (with_pc (ready s) (AtSelect subscribeID))
  | Select, AtSelect subscribeID =>
      if ctxDone s
         || bool_decide (default 0%nat (stop s)
                         ∈ closedChannels (compStore s))
      then Some (with_pc (subscribeCancel s) (AtUnsubscribe subscribeID))
      else None
  | Unsubscribe res, AtUnsubscribe subscribeID =>
      let s :=
        with_calls s
          (configCalls s ++
           [Driver_Unsubscribe subscribeID;
            ConfigurationInvoked (StoreName request)
              diag_ConfigurationUnsubscribe
              (bool_decide (res = None))]) in
      match res with
      | Some err => Some (return_deferred s (Some (Upstream err)))
      | None => Some (with_pc s (AtDelete subscribeID))
      end
  | Delete, AtDelete subscribeID =>
      Some (return_deferred
              (with_compStore s
                 (DeleteConfigurationSubscribe (compStore s) subscribeID))
              None)
  | ConsumerCancel, _ => Some (cancel_ctx s)
  | UnsubscribeRPC req, _ =>
      Some (with_compStore s (snd (UnsubscribeConfiguration (compStore s) req)))
  | Callback e, AtGetStore => None
  | Callback e, _ => Some (with_handlers s (handlers s ++ [(e, AtReadyCh)]))
  | Handler i sendResult, _ => updateEventHandler_step s i sendResult
  | _, _ => None
  end.

(** A run: the labels taken one after the other. *)
Fixpoint exec (s : State) (ls : list Label) : option State :=
  match ls with
  | [] => Some s
  | l :: rest =>
      match step s l with
      | Some s' => exec s' rest
      | None => None
      end
  end.
End Stream.
End Subscription.

(** ** A small instance

    An instance of the imported packages and of the receiver on which the
    handlers can be run: keys are prefixed with the application id and the
    separator ["||"], encryption reverses the bytes behind a marker byte,
    decryption undoes it, leaves no bytes as they are, fails on a value
    behind the marker of a retired key and panics on a value without a
    marker, baggage parses when it holds an equals sign, and a batch of one
    request goes to the single operation of the store. *)
Module Demo.

Definition contains (sub s : string) : bool :=
  match String.index 0 sub s with
  | Some _ => true
  | None => false
  end.

Definition modifiedKey (key storeName appID : string)
  : goerror + string :=
  if contains "||" key then
    inl (errors_New "input key can't contain '||'")
  else inr (appID +:+ "||" +:+ key).

Definition originalKey (modifiedStateKey : string) : string :=
  match String.index 0 "||" modifiedStateKey with
  | Some n =>
      String.substring (n + 2) (String.length modifiedStateKey - (n + 2))
        modifiedStateKey
  | None => modifiedStateKey
  end.

Definition marker : byte := Byte.x01.

Definition encrypt (storeName : string) (value : bytes)
  : goerror + bytes :=
  inr (marker :: rev value).

Definition retired : byte := Byte.x02.

Definition decrypt (storeName : string) (value : bytes)
  : option (goerror + bytes) :=
  match value with
  | b :: rest =>
      if Byte.eqb b marker then Some (inr (rev rest))
      else if Byte.eqb b retired then
        Some (inl (errors_New "could not decrypt value"))
      else None
  | [] => Some (inr [])
  end.

Definition isRawPayload (md : Metadata) : goerror + bool :=
  match md !! "rawPayload" with
  | None => inr false
  | Some v =>
      if decide (v = "true") then inr true
      else if decide (v = "false") then inr false
      else inl (errors_New "rawPayload value must be a valid boolean")
  end.

Definition parseBaggage (s : string) : option goerror :=
  if contains "=" s then None
  else Some (errors_New "invalid baggage list-member").

Definition bulkStoreOperation (T : Type) (reqs : list T)
    (execSingle : T -> option goerror)
    (execMulti : list T -> option goerror) : option goerror :=
  match reqs with
  | [r] => execSingle r
  | _ => execMulti reqs
  end.

Definition pkg : Imports :=
  {| Envelope := CloudEvent;
     IsRawPayload := isRawPayload;
     PopulateMetadataForBulkPublishEntry := fun reqMeta entryMeta =>
       entryMeta ∪ reqMeta;
     NewCloudEvent := fun ce _ => inr ce;
     ApplyMetadata := fun e _ _ => e;
     json_Marshal := fun e => inr (ce_Data e);
     json_Unmarshal := fun _ => None;
     Sprintf_v_decoded := string_of_bytes;
     otelbaggage_Parse := parseBaggage;
     ReservedGRPCMetadataToDaprPrefixHeader := fun k => k;
     GetModifiedStateKey := modifiedKey;
     GetOriginalStateKey := originalKey;
     PerformBulkStoreOperation := bulkStoreOperation;
     EncryptedStateStore := fun name => bool_decide (name = "secure");
     TryEncryptValue := encrypt;
     TryDecryptValue := decrypt;
     stateConsistencyToString := fun c =>
       match c with
       | CONSISTENCY_EVENTUAL => "eventual"
       | CONSISTENCY_STRONG => "strong"
       | CONSISTENCY_UNSPECIFIED => ""
       end;
     stateConcurrencyToString := fun c =>
       match c with
       | CONCURRENCY_FIRST_WRITE => "first-write"
       | CONCURRENCY_LAST_WRITE => "last-write"
       | CONCURRENCY_UNSPECIFIED => ""
       end;
     mapRangeRank := fun i => i |}.

(** A state store whose operations answer as given. *)
Definition store (maxSize : option Z) (getData : bytes)
    (writeErr : option goerror) : state.Store :=
  {| state.Features := [state.FeatureTransactional];
     state.IsTransactionalStore := true;
     state.MultiMaxSize := maxSize;
     state.Get := fun _ =>
       (Some {| state.Data := getData; state.ETag := None;
                state.Metadata := ∅ |}, None);
     state.BulkGet := fun reqs _ =>
       (map (fun r => {| state.BulkKey := state.GetKey r;
                         state.BulkData := getData;
                         state.BulkETag := None;
                         state.BulkMetadata := ∅;
                         state.BulkError := "" |}) reqs, None);
     state.Set_ := fun _ => writeErr;
     state.BulkSet := fun _ => writeErr;
     state.Delete := fun _ => writeErr;
     state.BulkDelete := fun _ => writeErr;
     state.Multi := fun _ => writeErr |}.

(** A receiver with application id ["app"], the pubsub ["ps1"] behind the
    given adapter, and the given store under the names ["store1"] and
    ["secure"]. *)
Definition receiver (adapter : option PubsubAdapter) (st : state.Store)
  : api :=
  {| AppID := "app";
     pubsubAdapter := adapter;
     GetPubSub := fun name =>
       if decide (name = "ps1") then Some {| pubsub.Features := [] |}
       else None;
     GetStateStore := fun name =>
       if decide (name = "store1" ∨ name = "secure") then inr st
       else inl (StoreLookupError false name);
     outbox := {| Enabled := fun _ => false;
                  PublishInternal := fun _ ops _ _ _ => inr ops |};
     sendToOutputBindingFn := fun _ _ _ => (None, None) |}.

Definition ctx (incoming : option (gmap string (list string))) : RequestContext :=
  {| SpanNonNil := true;
     SpanContextToW3CString := "00-0af7651916cd43dd8448eb211c80319c-b7ad6b7169203331-01";
     TraceStateToW3CString := None;
     ChildTraceIDAndState := fun _ => ("", "");
     FromIncomingContext := incoming;
     BaggageOfContext := None |}.

Definition entry (id : string) (event : string) : BulkPublishRequestEntry :=
  {| bpe_EntryId := id; bpe_Event := bytes_of_string event;
     bpe_ContentType := "text/plain"; bpe_Metadata := None |}.

Definition item (key value : string) : StateItem :=
  {| si_Key := key; si_Value := bytes_of_string value; si_Etag := None;
     si_Metadata := ∅; si_Options := None |}.
End Demo.

(** * Vocabulary of the properties *)

(** A step is quiet when it makes no call: it hands on the list of calls
    it was given, and what it computes does not depend on that list. *)
Definition quiet {R A} (m : M R A) : Prop :=
  forall t, m t = (fst (m []), t).

(** A step is strict when it leaves the handler only with an error. *)
Definition strict {R A} (m : M R A) : Prop :=
  forall t ex, fst (m t) = inr ex -> exists r e, ex = Return r (Some e).

(** How a failed write surfaces (the error branch shared, line for line, by
    [SaveState], [DeleteState] and [DeleteBulkState]). *)
Definition surfaced_write_error (tag : ErrorCode) (t : Template)
    (subject : string) (err : goerror) : apierror :=
  match kiterrors_FromError err with
  | Some (c, m) => KitErr c m
  | None => Basic (getStateErrorCode err) 500 tag
              (Sprintf t [subject; Error err])
  end.

(** The error returned for a broker error (lines 469-476). *)
Definition publish_error (pubsubName topic : string) (err : goerror)
  : apierror :=
  if errors_As_NotAllowedError err then
    PubSubError PS_PublishForbidden pubsubName topic (Some err)
  else if errors_As_NotFoundError err then
    PubSubError PS_TestNotFound pubsubName topic (Some err)
  else PubSubError PS_PublishMessage pubsubName topic (Some err).

(** An operation the loop accepts: an upsert or a delete whose key can be
    rewritten. *)
Definition well_formed_operation (pkg : Imports) (a : api)
    (storeName : string)
    (op : TransactionalStateOperation) : Prop :=
  (tso_OperationType op = state.OperationUpsert
   \/ tso_OperationType op = state.OperationDelete)
  /\ exists key,
       GetModifiedStateKey pkg (si_Key (tso_Request op)) storeName (AppID a)
       = inr key.

(** Tracing events, as opposed to calls that hand work over or count it. *)
Definition is_tracing (ev : Event) : bool :=
  match ev with
  | StartChildSpan _ | EndChildSpan _ _ => true
  | _ => false
  end.

(** The entry list breaks the rule on entry ids: some id is empty, or the
    ids are not pairwise distinct. *)
Definition has_invalid_entry_id (entries : list BulkPublishRequestEntry)
  : Prop :=
  (exists e, e ∈ entries /\ bpe_EntryId e = "")
  \/ ~ NoDup (map bpe_EntryId entries).

(** The same, relative to the ids the loop has seen already. *)
Definition invalid_entry_ids (seen : gset string)
    (entries : list BulkPublishRequestEntry) : Prop :=
  (exists e, e ∈ entries /\ (bpe_EntryId e = "" \/ bpe_EntryId e ∈ seen))
  \/ ~ NoDup (map bpe_EntryId entries).

(** Building an envelope never fails. *)
Definition envelopes_succeed (pkg : Imports) : Prop :=
  (forall ce md, exists envelope, NewCloudEvent pkg ce md = inr envelope)
  /\ (forall envelope, exists event, json_Marshal pkg envelope = inr event).

(** The envelope of entry number [i] of a request can be built (lines
    403-437): the cloud event of the entry is accepted and the envelope,
    with the metadata applied, can be marshalled. *)
Definition envelope_built (pkg : Imports) (a : api) (ctx : RequestContext)
    (in_ : BulkPublishRequest) (features : list string)
    (pubsubName topic : string) (i : nat) (entry : BulkPublishRequestEntry)
  : Prop :=
  let md :=
    match bpe_Metadata entry with
    | Some m =>
        Some (PopulateMetadataForBulkPublishEntry pkg (bpr_Metadata in_) m)
    | None => None
    end in
  exists envelope event,
    NewCloudEvent pkg
      {| ce_Source := AppID a;
         ce_Topic := topic;
         ce_DataContentType := bpe_ContentType entry;
         ce_Data := bpe_Event entry;
         ce_TraceID := fst (ChildTraceIDAndState ctx i);
         ce_TraceState := snd (ChildTraceIDAndState ctx i);
         ce_Pubsub := pubsubName |} md = inr envelope
    /\ json_Marshal pkg (ApplyMetadata pkg envelope features md) = inr event.

(** Envelope construction does not fail for a request: the envelope of
    every entry that stands before the first entry with an empty or a
    repeated id can be built.  [i] is the number of the first entry of
    [rest] and [seen] holds the ids of the entries before it. *)
Fixpoint envelopes_built (pkg : Imports) (a : api) (ctx : RequestContext)
    (in_ : BulkPublishRequest) (features : list string)
    (pubsubName topic : string) (i : nat) (seen : gset string)
    (rest : list BulkPublishRequestEntry) : Prop :=
  match rest with
  | [] => True
  | entry :: rest' =>
      if decide (bpe_EntryId entry ∈ seen \/ bpe_EntryId entry = "") then True
      else
        envelope_built pkg a ctx in_ features pubsubName topic i entry
        /\ envelopes_built pkg a ctx in_ features pubsubName topic (S i)
             ({[ bpe_EntryId entry ]} ∪ seen) rest'
  end.

Section StreamVocabulary.
Import Subscription.

(** The id with which the driver answered the subscribe call of a run, if
    it did. *)
Fixpoint subscribed (ls : list Label) : option string :=
  match ls with
  | [] => None
  | Subscribe (inr id) :: _ => Some id
  | _ :: rest => subscribed rest
  end.

(** The first call of [Send] on the stream is the one made by
    [SubscribeConfiguration], with a message that carries the id [id] and
    no items. *)
Definition starts_with_id (id : string) (s : State) : Prop :=
  exists m res rest,
    stream s = SentBySubscribe m res :: rest
    /\ scr_Id m = id /\ scr_Items m = ∅.

(** What holds along a run; [o] is the id the driver has answered with so
    far. *)
Definition stream_inv (o : option string) (s : State) : Prop :=
  (readyClosed s = false ->
   Forall (fun h => snd h = AtReadyCh) (handlers s))
  /\ match o with
     | None =>
         match pc s with
         | AtGetStore | AtSubscribe =>
             stream s = [] /\ readyClosed s = false
         | Returned _ => True
         | _ => False
         end
     | Some id =>
         match pc s with
         | AtGetStore | AtSubscribe => False
         | AtSendID id' => id' = id /\ stream s = [] /\ readyClosed s = false
         | AtAddSubscribe id' | AtReady id' | AtSelect id'
         | AtUnsubscribe id' | AtDelete id' =>
             id' = id /\ starts_with_id id s
         | Returned _ => starts_with_id id s
         end
     end.
End StreamVocabulary.

(** ** Runs used as examples *)

Module PartialFailure.
(** An adapter that reports a partial failure the way the comment at the
    call site describes it: the failed entries and a non-nil error. *)
Definition adapter : PubsubAdapter :=
  {| BulkPublish := fun req =>
       ({| pubsub.FailedEntries :=
             [{| pubsub.FailedEntryId := "a";
                 pubsub.FailedError := Some (errors_New "broker timeout") |}]
        |},
        Some (errors_New "1 of 2 entries failed to publish")) |}.

Definition request : BulkPublishRequest :=
  {| bpr_PubsubName := "ps1"; bpr_Topic := "t";
     bpr_Entries := [Demo.entry "a" "1"; Demo.entry "b" "2"];
     bpr_Metadata := ∅ |}.

Definition dispatched : pubsub.BulkPublishRequest :=
  {| pubsub.Entries :=
       [{| pubsub.EntryId := "a"; pubsub.Event := bytes_of_string "1";
           pubsub.ContentType := "text/plain"; pubsub.Metadata := None |};
        {| pubsub.EntryId := "b"; pubsub.Event := bytes_of_string "2";
           pubsub.ContentType := "text/plain"; pubsub.Metadata := None |}];
     pubsub.PubsubName := "ps1";
     pubsub.Topic := "t";
     pubsub.ReqMetadata := ∅ |}.
End PartialFailure.

Module EncryptedTransaction.
(** The upsert of key ["k"] with value ["hi"] on the encrypted store, and
    a store that answers reads with the ciphertext it was handed. *)
Definition written : bytes :=
  Demo.marker :: rev (bytes_of_string "[104 105]").

Definition receiver : api :=
  Demo.receiver None (Demo.store None written None).

Definition request : ExecuteStateTransactionRequest :=
  {| etr_StoreName := "secure";
     etr_Operations :=
       [{| tso_OperationType := "upsert";
           tso_Request := Demo.item "k" "hi" |}];
     etr_Metadata := ∅ |}.

Definition read : GetStateRequest :=
  {| gsr_StoreName := "secure"; gsr_Key := "k";
     gsr_Consistency := CONSISTENCY_UNSPECIFIED; gsr_Metadata := ∅ |}.
End EncryptedTransaction.

Module StreamRun.
Import Subscription.

Definition request : SubscribeConfigurationRequest :=
  {| StoreName := "cfg"; Keys := ["k2"; "k1"]; ReqMetadata := ∅ |}.

Definition componentStore : ComponentStore :=
  {| configurations := {[ "cfg" ]}; configurationSubscribes := ∅;
     closedChannels := ∅ |}.

Definition update : configuration.UpdateEvent :=
  {| configuration.ID := "sub-1";
     configuration.Items :=
       {[ "k1" := {| configuration.Value := "v";
                     configuration.Version := "1";
                     configuration.Metadata := ∅ |} ]} |}.

(** The driver answers with the id ["sub-1"] and delivers an update before
    the id message is sent; the update goes out once the ready channel is
    closed. *)
Definition labels : list Label :=
  [GetStore; Subscribe (inr "sub-1"); Callback update; SendID None;
   AddSubscribe; Ready; Handler 0 None; Handler 0 None; Handler 0 None;
   Handler 0 None].

(** The same run with the handler scheduled before the id message. *)
Definition early : list Label :=
  [GetStore; Subscribe (inr "sub-1"); Callback update; Handler 0 None].
End StreamRun.

(** * Further handlers *)

(** ** [PublishEvent] *)

(** [runtimev1pb.PublishEventRequest]; [pe_Data] is [None] for nil data. *)
Record PublishEventRequest : Type := {
  pe_PubsubName : string;
  pe_Topic : string;
  pe_Data : option bytes;
  pe_DataContentType : string;
  pe_Metadata : Metadata;
}.

(** [pubsub.PublishRequest]. *)
Record PublishRequest : Type := {
  pr_Data : bytes;
  pr_PubsubName : string;
  pr_Topic : string;
  pr_Metadata : Metadata;
}.

(** The calls of [PublishEvent]: the publish handed to the adapter and the
    egress metric. *)
Inductive PublishCall : Type :=
| Call_Publish (req : PublishRequest)
| PubsubEgressEvent (pubsubName topic : string) (success : bool).

(** [PublishEvent] (grpc.go, lines 173-251).  [publish] is the method
    [Publish] of the pubsub adapter of the receiver. *)
Definition PublishEvent (pkg : Imports) (a : api)
    (publish : PublishRequest -> option goerror)
    (ctx : RequestContext) (in_ : PublishEventRequest)
  : Exit unit * list PublishCall :=
  match validateAndGetPubsubAndTopic pkg a (pe_PubsubName in_) (pe_Topic in_)
          (pe_Metadata in_) with
  | inl validationErr => (Return tt (Some validationErr), [])
  | inr (thepubsub, pubsubName, topic, rawPayload) =>
      let body := match pe_Data in_ with
                  | Some d => d
                  | None => []
                  end in
      let data : apierror + bytes :=
        if negb rawPayload then
          match NewCloudEvent pkg
                  {| ce_Source := AppID a;
                     ce_Topic := pe_Topic in_;
                     ce_DataContentType := pe_DataContentType in_;
                     ce_Data := body;
                     ce_TraceID := SpanContextToW3CString ctx;
                     ce_TraceState := default "" (TraceStateToW3CString ctx);
                     ce_Pubsub := pe_PubsubName in_ |}
                  (Some (pe_Metadata in_)) with
          | inl err =>
              inl (PubSubError PS_CloudEventCreation pubsubName "" (Some err))
          | inr envelope =>
              let envelope :=
                ApplyMetadata pkg envelope (pubsub.Features thepubsub)
                  (Some (pe_Metadata in_)) in
              match json_Marshal pkg envelope with
              | inl _ =>
                  inl (PubSubError PS_MarshalEnvelope pubsubName topic None)
              | inr data => inr data
              end
          end
        else inr body in
      match data with
      | inl err => (Return tt (Some err), [])
      | inr data =>
          let req := {| pr_PubsubName := pubsubName;
                        pr_Topic := topic;
                        pr_Data := data;
                        pr_Metadata := pe_Metadata in_ |} in
          let err := publish req in
          (Return tt (publish_error pubsubName topic <$> err),
           [Call_Publish req;
            PubsubEgressEvent pubsubName topic (bool_decide (err = None))])
      end
  end.

(** ** Actor handlers *)

Module Actors.

(** An error coming back from the actor collaborators, by what the handlers
    ask of it: whether [status.FromError] accepts it, whether
    [actorerrors.Is] does, and its message. *)
Record error : Type := {
  IsStatus : bool;
  IsActorError : bool;
  Message : string;
}.

(** The errors the actor handlers return: the error of the collaborator as
    it is, one of the errors of package [messages] formatted with it, or the
    error of an unsupported operation. *)
Inductive apierror : Type :=
| AsIs (e : error)
| ErrActorStateGet (cause : error)
| ErrActorStateTransactionSave (cause : error)
| ErrActorInvoke (cause : error)
| NotSupportedStateOperation (operationType : string).

(** [runtimev1pb.TransactionalActorStateOperation]; the value is [None]
    where the message has none. *)
Record TransactionalActorStateOperation : Type := {
  OperationType : string;
  Key : string;
  Value : option bytes;
  OpMetadata : gmap string string;
}.

Record ExecuteActorStateTransactionRequest : Type := {
  ActorType : string;
  ActorId : string;
  Operations : list TransactionalActorStateOperation;
}.

(** [actorapi.TransactionalOperation]: the request map of an upsert holds
    the key, the value and, when not empty, the metadata; that of a delete
    holds the key. *)
Inductive TransactionalOperation : Type :=
| Upsert (key : string) (value : bytes)
         (metadata : option (gmap string string))
| Delete (key : string).

Record TransactionalRequest : Type := {
  ReqActorType : string;
  ReqActorID : string;
  ReqOperations : list TransactionalOperation;
}.

(** The loop over the operations of [ExecuteActorStateTransaction] (lines
    1103-1138). *)
Fixpoint actorOperations (ops : list TransactionalActorStateOperation)
  : apierror + list TransactionalOperation :=
  match ops with
  | [] => inr []
  | op :: rest =>
      let actorOp : apierror + TransactionalOperation :=
        if decide (OperationType op = state.OperationUpsert) then
          inr (Upsert (Key op) (default [] (Value op))
                 (if decide (0 < size (OpMetadata op))%nat
                  then Some (OpMetadata op) else None))
        else if decide (OperationType op = state.OperationDelete) then
          inr (Delete (Key op))
        else inl (NotSupportedStateOperation (OperationType op)) in
      match actorOp with
      | inl err => inl err
      | inr actorOp =>
          match actorOperations rest with
          | inl err => inl err
          | inr actorOps => inr (actorOp :: actorOps)
          end
      end
  end.

(** [ExecuteActorStateTransaction] (lines 1092-1159).  [actorState] is
    the result of [a.ActorState(ctx)]: an error, or the function
    [TransactionalStateOperation] of the actor state collaborator.  The
    result is the response (nil or empty), the error, and the requests
    handed to the collaborator. *)
Definition ExecuteActorStateTransaction
    (actorState : error + (TransactionalRequest -> option error))
    (in_ : ExecuteActorStateTransactionRequest)
  : option unit * option apierror * list TransactionalRequest :=
  match actorState with
  | inl err => (None, Some (AsIs err), [])
  | inr astate =>
      match actorOperations (Operations in_) with
      | inl err => (None, Some err, [])
      | inr actorOps =>
          let req := {| ReqActorID := ActorId in_;
                        ReqActorType := ActorType in_;
                        ReqOperations := actorOps |} in
          match astate req with
          | Some err =>
              if IsStatus err then (None, Some (AsIs err), [req])
              else (None, Some (ErrActorStateTransactionSave err), [req])
          | None => (Some tt, None, [req])
          end
      end
  end.

(** [runtimev1pb.InvokeActorRequest]. *)
Record InvokeActorRequest : Type := {
  InvActorType : string;
  InvActorId : string;
  Method : string;
  Data : bytes;
  InvMetadata : option (gmap string string);
}.

(** [InvokeActor] (lines 1161-1199).  [Internal] is the type of the
    internal request and [ToInternalInvokeRequest] the conversion of line
    1174, which is applied to the request after the handler has set the
    marker in its metadata; what the conversion keeps of the request is
    its own business.  [router] is the result of [a.ActorRouter(ctx)]: an
    error, or the function [Call] of the router as the pre-lock policy
    runner runs it (lines 1178-1182), from the internal request to the
    final answer of the runner; a nil response is [None].  The result is
    the response (nil or with the data), the error, and the internal
    requests handed to the runner. *)
Definition InvokeActor {Internal : Type}
    (ToInternalInvokeRequest : InvokeActorRequest -> Internal)
    (router : error + (Internal -> option bytes * option error))
    (in_ : InvokeActorRequest)
  : option bytes * option apierror * list Internal :=
  match router with
  | inl err => (None, Some (AsIs err), [])
  | inr call =>
      let metadata := default ∅ (InvMetadata in_) in
      let in_ := {| InvActorType := InvActorType in_;
                    InvActorId := InvActorId in_;
                    Method := Method in_;
                    Data := Data in_;
                    InvMetadata := Some (<["Dapr-API-Call" := "true"]> metadata)
                 |} in
      let req := ToInternalInvokeRequest in_ in
      let '(res, err) := call req in
      let data := match res with
                  | Some d => d
                  | None => []
                  end in
      match err with
      | Some err =>
          if IsStatus err then (None, Some (AsIs err), [req])
          else if negb (IsActorError err) then
            (Some [], Some (ErrActorInvoke err), [req])
          else (Some data, None, [req])
      | None => (Some data, None, [req])
      end
  end.
End Actors.

(** ** Lifecycle *)

(** Modelled from the spec: [DeleteAllConfigurationSubscribe] of the
    component store (package compstore is not part of these sources) drops
    every entry of the subscription table, flipping the stop signal of
    each. *)
Definition DeleteAllConfigurationSubscribe (cs : ComponentStore)
  : ComponentStore :=
  {| configurations := configurations cs;
     configurationSubscribes := ∅;
     closedChannels :=
       map_img (configurationSubscribes cs) ∪ closedChannels cs |}.

(** The fields of the receiver that [Close] works on: the flag [closed],
    whether the channel [closeCh] has been closed, and the component
    store. *)
Record Lifecycle : Type := {
  closed : bool;
  closeChClosed : bool;
  lifecycleStore : ComponentStore;
}.

(** [NewAPI] (lines 122-137): the flag is unset and the channel open. *)
Definition NewAPI (cs : ComponentStore) : Lifecycle :=
  {| closed := false; closeChClosed := false; lifecycleStore := cs |}.

(** [Close] (lines 1462-1472).  Closing a closed channel panics: the
    result is [None] then.  Waiting for the wait group is not part of the
    model. *)
Definition Close (l : Lifecycle) : option Lifecycle :=
  if closed l then
    Some {| closed := true; closeChClosed := closeChClosed l;
            lifecycleStore :=
              DeleteAllConfigurationSubscribe (lifecycleStore l) |}
  else if closeChClosed l then None
  else
    Some {| closed := true; closeChClosed := true;
            lifecycleStore :=
              DeleteAllConfigurationSubscribe (lifecycleStore l) |}.

(** A number of calls of [Close], one after the other. *)
Fixpoint CloseTimes (n : nat) (l : Lifecycle) : option Lifecycle :=
  match n with
  | O => Some l
  | S n => match Close l with
           | Some l' => CloseTimes n l'
           | None => None
           end
  end.

(** * Vocabulary of the further properties *)

(** The entry handed to the broker for an entry of the request: the id and
    the content type are those of the request, the metadata is the merged
    metadata, and with a raw payload the event is the event of the
    request. *)
Definition entry_of (pkg : Imports) (in_ : BulkPublishRequest)
    (rawPayload : bool) (e : BulkPublishRequestEntry)
    (m : pubsub.BulkMessageEntry) : Prop :=
  pubsub.EntryId m = bpe_EntryId e
  /\ pubsub.ContentType m = bpe_ContentType e
  /\ pubsub.Metadata m
     = (PopulateMetadataForBulkPublishEntry pkg (bpr_Metadata in_)
          <$> bpe_Metadata e)
  /\ (rawPayload = true -> pubsub.Event m = bpe_Event e).

(** The spans of a bulk publish of [n] entries: one for each entry, unless
    the payload is raw. *)
Definition child_spans (rawPayload : bool) (i n : nat) : list nat :=
  if rawPayload then [] else seq i n.

(** The number of entries the loop accepts before it meets an entry whose
    id is empty or seen already. *)
Fixpoint entries_before_invalid (seen : gset string)
    (entries : list BulkPublishRequestEntry) : nat :=
  match entries with
  | [] => 0
  | e :: rest =>
      if decide (bpe_EntryId e ∈ seen \/ bpe_EntryId e = "") then 0%nat
      else S (entries_before_invalid ({[ bpe_EntryId e ]} ∪ seen) rest)
  end.

Module RawPublish.
(** A bulk publish of two raw events. *)
Definition adapter : PubsubAdapter :=
  {| BulkPublish := fun _ => ({| pubsub.FailedEntries := [] |}, None) |}.

Definition request : BulkPublishRequest :=
  {| bpr_PubsubName := "ps1"; bpr_Topic := "t";
     bpr_Entries := [Demo.entry "a" "1"; Demo.entry "b" "2"];
     bpr_Metadata := {[ "rawPayload" := "true" ]} |}.

Definition dispatched : pubsub.BulkPublishRequest :=
  {| pubsub.Entries :=
       [{| pubsub.EntryId := "a"; pubsub.Event := bytes_of_string "1";
           pubsub.ContentType := "text/plain"; pubsub.Metadata := None |};
        {| pubsub.EntryId := "b"; pubsub.Event := bytes_of_string "2";
           pubsub.ContentType := "text/plain"; pubsub.Metadata := None |}];
     pubsub.PubsubName := "ps1";
     pubsub.Topic := "t";
     pubsub.ReqMetadata := {[ "rawPayload" := "true" ]} |}.
End RawPublish.

(** The response headers [InvokeBinding] sets from what the binding
    answered, one per metadata pair, under the [metadata.] prefix. *)
Definition binding_headers (resp : option bindings.InvokeResponse)
  : list Event :=
  match resp with
  | Some resp =>
      map (fun kv => grpc_SetHeader (metadataPrefix +:+ kv.1) kv.2)
          (map_to_list (bindings.RespMetadata resp))
  | None => []
  end.

(** What [InvokeBinding] returns once the binding has answered. *)
Definition binding_exit (name : string)
    (resp : option bindings.InvokeResponse) (err : option goerror)
  : Exit (option InvokeBindingResponse) :=
  match err, resp with
  | Some err, _ =>
      Return (Some {| ibres_Data := []; ibres_Metadata := ∅ |})
        (Some (Basic codes.Internal 500 BindingInvokeOutputBinding
                 (Sprintf ErrInvokeOutputBinding [name; Error err])))
  | None, Some resp =>
      Return (Some {| ibres_Data := bindings.RespData resp;
                      ibres_Metadata := bindings.RespMetadata resp |}) None
  | None, None =>
      Return (Some {| ibres_Data := []; ibres_Metadata := ∅ |}) None
  end.

Module BindingRun.
(** A binding that fails after it has answered with data and metadata,
    called by a client whose incoming metadata carry baggage and a key the
    request sets as well. *)
Definition answer : bindings.InvokeResponse :=
  {| bindings.RespData := bytes_of_string "partial";
     bindings.RespMetadata := {[ "status" := "503" ]} |}.

Definition failure : goerror := errors_New "connection reset".

Definition receiver : api :=
  {| AppID := "app";
     pubsubAdapter := None;
     GetPubSub := fun _ => None;
     GetStateStore := fun name => inl (StoreLookupError false name);
     outbox := {| Enabled := fun _ => false;
                  PublishInternal := fun _ ops _ _ _ => inr ops |};
     sendToOutputBindingFn := fun _ _ _ => (Some answer, Some failure) |}.

Definition incoming : gmap string (list string) :=
  {[ "baggage" := ["user=alice"]; "x-id" := ["incoming"] ]}.

Definition request : InvokeBindingRequest :=
  {| ibr_Name := "out"; ibr_Data := bytes_of_string "d";
     ibr_Metadata := {[ "x-id" := "caller" ]};
     ibr_Operation := "create" |}.

Definition dispatched : bindings.InvokeRequest :=
  {| bindings.Metadata :=
       {[ "x-id" := "caller"; "baggage" := "user=alice";
          "traceparent" :=
            "00-0af7651916cd43dd8448eb211c80319c-b7ad6b7169203331-01" ]};
     bindings.Operation := "create";
     bindings.Data := bytes_of_string "d" |}.

Definition context : RequestContext :=
  (ContextWithBaggage (Demo.ctx (Some incoming)) "user=alice").
End BindingRun.

(** A handler that makes no call at all, or hands one operation over (to
    the policy runner of the store, or to [PerformBulkStoreOperation]) and
    then records one metric, whose success flag tells whether the handler
    returns without an error. *)
Definition call_then_metric {R} (o : Outcome R) (storeName : string)
    (op : diag_Op) : Prop :=
  calls o = []
  \/ exists c success,
       calls o = [c; StateInvoked storeName op success]
       /\ is_dispatch c = true
       /\ (success = true <-> exists r, result o = Return r None).

Module SaveRun.
(** A save of two items, the second one declared as JSON. *)
Definition request : SaveStateRequest :=
  {| ssr_StoreName := "store1";
     ssr_States :=
       [Demo.item "k1" "v1";
        {| si_Key := "k2"; si_Value := bytes_of_string "{}";
           si_Etag := Some "7";
           si_Metadata := {[ "contentType" := "application/json" ]};
           si_Options := None |}] |}.

Definition dispatched : list state.SetRequest :=
  [{| state.SetKey := "app||k1";
      state.SetValue := VBytes (bytes_of_string "v1");
      state.SetETag := None; state.SetMetadata := ∅;
      state.SetOptions := zeroSetStateOption |};
   {| state.SetKey := "app||k2";
      state.SetValue := VJSON (bytes_of_string "{}");
      state.SetETag := Some "7";
      state.SetMetadata := {[ "contentType" := "application/json" ]};
      state.SetOptions := zeroSetStateOption |}].
End SaveRun.

Module TransactionRun.
(** An upsert and a delete on a store that takes two operations at most,
    and a receiver whose outbox adds an operation of its own. *)
Definition request : ExecuteStateTransactionRequest :=
  {| etr_StoreName := "store1";
     etr_Operations :=
       [{| tso_OperationType := "upsert";
           tso_Request := Demo.item "k1" "v1" |};
        {| tso_OperationType := "delete";
           tso_Request := Demo.item "k2" "" |}];
     etr_Metadata := {[ "partitionKey" := "p" ]} |}.

Definition staged : list state.TransactionalStateOperation :=
  [state.OpSet
     {| state.SetKey := "app||k1";
        state.SetValue := VBytes (bytes_of_string "v1");
        state.SetETag := None; state.SetMetadata := ∅;
        state.SetOptions := zeroSetStateOption |};
   state.OpDelete
     {| state.DelKey := "app||k2"; state.DelETag := None;
        state.DelMetadata := ∅;
        state.DelOptions := zeroDeleteStateOption |}].

Definition dispatched : state.TransactionalStateRequest :=
  {| state.Operations := staged;
     state.TxMetadata := {[ "partitionKey" := "p" ]} |}.

Definition outboxMessage : state.TransactionalStateOperation :=
  state.OpSet
    {| state.SetKey := "outbox-1";
       state.SetValue := VBytes (bytes_of_string "0");
       state.SetETag := None; state.SetMetadata := ∅;
       state.SetOptions := zeroSetStateOption |}.

Definition withOutbox (publish :
    list state.TransactionalStateOperation ->
    goerror + list state.TransactionalStateOperation) : api :=
  {| AppID := "app";
     pubsubAdapter := None;
     GetPubSub := fun _ => None;
     GetStateStore := fun name =>
       if decide (name = "store1") then inr (Demo.store (Some 2) [] None)
       else inl (StoreLookupError false name);
     outbox := {| Enabled := fun _ => true;
                  PublishInternal := fun _ ops _ _ _ => publish ops |};
     sendToOutputBindingFn := fun _ _ _ => (None, None) |}.
End TransactionRun.

Module BulkRead.
(** An encrypted store that answers a bulk read with an item it could not
    read, an item sealed with a retired key, and a readable item; and one
    that answers with a value that was never sealed. *)
Definition responses : list state.BulkGetResponse :=
  [{| state.BulkKey := "app||k1"; state.BulkData := [];
      state.BulkETag := None; state.BulkMetadata := ∅;
      state.BulkError := "timeout" |};
   {| state.BulkKey := "app||k2";
      state.BulkData := Demo.retired :: bytes_of_string "old";
      state.BulkETag := Some "3"; state.BulkMetadata := ∅;
      state.BulkError := "" |};
   {| state.BulkKey := "app||k3";
      state.BulkData := Demo.marker :: rev (bytes_of_string "v3");
      state.BulkETag := None; state.BulkMetadata := ∅;
      state.BulkError := "" |}].

Definition unsealed : list state.BulkGetResponse :=
  [{| state.BulkKey := "app||k1"; state.BulkData := bytes_of_string "plain";
      state.BulkETag := None; state.BulkMetadata := ∅;
      state.BulkError := "" |}].

Definition answering (rs : list state.BulkGetResponse) : state.Store :=
  {| state.Features := [];
     state.IsTransactionalStore := false;
     state.MultiMaxSize := None;
     state.Get := fun _ => (None, None);
     state.BulkGet := fun _ _ => (rs, None);
     state.Set_ := fun _ => None;
     state.BulkSet := fun _ => None;
     state.Delete := fun _ => None;
     state.BulkDelete := fun _ => None;
     state.Multi := fun _ => None |}.

Definition store : state.Store := answering responses.

Definition request : GetBulkStateRequest :=
  {| gbr_StoreName := "secure"; gbr_Keys := ["k1"; "k2"; "k3"];
     gbr_Parallelism := 1; gbr_Metadata := ∅ |}.

Definition dispatched : list state.GetRequest :=
  map (fun k => {| state.GetKey := k; state.GetMetadata := ∅;
                   state.GetOptions := {| state.GetConsistency := "" |} |})
      ["app||k1"; "app||k2"; "app||k3"].
End BulkRead.

Section SessionVocabulary.
Import Subscription.
Context (request : SubscribeConfigurationRequest).

(** What a stream records when it subscribes, and when it unsubscribes:
    the operation handed to the policy runner, and the metric. *)
Definition subscribe_calls (ok : bool) : list ConfigCall :=
  [Driver_Subscribe (slices_Sort (Keys request)) (ReqMetadata request);
   ConfigurationInvoked (StoreName request) diag_ConfigurationSubscribe ok].

Definition unsubscribe_calls (id : string) (ok : bool) : list ConfigCall :=
  [Driver_Unsubscribe id;
   ConfigurationInvoked (StoreName request) diag_ConfigurationUnsubscribe
     ok].

(** What holds of the driver calls, the stop channel and the subscription
    table along a run; [o] is the id the driver has answered with so
    far. *)
Definition session_inv (o : option string) (s : State) : Prop :=
  match pc s with
  | AtGetStore | AtSubscribe => o = None /\ configCalls s = []
  | AtSendID id | AtAddSubscribe id =>
      o = Some id /\ configCalls s = subscribe_calls true
  | AtReady id | AtSelect id =>
      o = Some id /\ configCalls s = subscribe_calls true
      /\ exists c,
           stop s = Some c
           /\ (configurationSubscribes (compStore s) !! id = Some c
               \/ c ∈ closedChannels (compStore s))
  | AtUnsubscribe id =>
      o = Some id /\ configCalls s = subscribe_calls true
      /\ subscribeCtxDone s = true
  | AtDelete id =>
      o = Some id
      /\ configCalls s = subscribe_calls true ++ unsubscribe_calls id true
      /\ subscribeCtxDone s = true
  | Returned None =>
      exists id,
        o = Some id
        /\ configCalls s = subscribe_calls true ++ unsubscribe_calls id true
        /\ configurationSubscribes (compStore s) !! id = None
        /\ subscribeCtxDone s = true
  | Returned (Some _) =>
      (o = None /\ configCalls s = [])
      \/ (o = None /\ configCalls s = subscribe_calls false)
      \/ (exists id, o = Some id /\ configCalls s = subscribe_calls true)
      \/ exists id,
           o = Some id
           /\ configCalls s
              = subscribe_calls true ++ unsubscribe_calls id false
  end.

(** An invocation of the update handler that is between [Lock] and
    [Unlock]. *)
Definition in_critical_section (h : HandlerPC) : Prop :=
  match h with
  | AtSend | AtUnlock _ => True
  | _ => False
  end.

(** The lock is held by the one invocation that is between [Lock] and
    [Unlock], if there is one. *)
Definition lock_inv (s : State) : Prop :=
  (forall i e hpc,
     handlers s !! i = Some (e, hpc) -> in_critical_section hpc ->
     lockHeld s = Some i)
  /\ (forall i, lockHeld s = Some i ->
        exists e hpc,
          handlers s !! i = Some (e, hpc) /\ in_critical_section hpc).
End SessionVocabulary.

Module StreamEnd.
Import Subscription.

(** The run of [StreamRun] carried on: a second update arrives, the
    client unsubscribes by id, and the stream winds down. *)
Definition unsubscribe : UnsubscribeConfigurationRequest :=
  {| ucr_StoreName := "cfg"; ucr_Id := "sub-1" |}.

Definition waiting : list Label :=
  StreamRun.labels ++ [Callback StreamRun.update; Handler 1 None;
                       Handler 1 None].

Definition labels : list Label :=
  waiting ++ [UnsubscribeRPC unsubscribe; Select; Unsubscribe None; Delete].
End StreamEnd.

(** * Properties *)

(** ** Steps that call no collaborator *)

Ltac munfold :=
  unfold mbind, M_bind, mret, M_ret, emit, return_, panic in *.

Lemma quiet_ret {R A} (x : A) : quiet (mret x : M R A).
Proof. done. Qed.

Lemma quiet_return {R A} (r : R) (e : option apierror) :
  quiet (return_ r e : M R A).
Proof. done. Qed.

Lemma quiet_bind {R A B} (m : M R A) (k : A -> M R B) :
  quiet m -> (forall x, quiet (k x)) -> quiet (m ≫= k).
Proof.
  intros Hm Hk t. munfold.
  pose proof (Hm t) as Ht. pose proof (Hm []) as H0.
  destruct (m []) as [r0 t0]; simpl in *.
  injection H0 as ->. rewrite Ht.
  destruct r0 as [x|e]; [apply Hk|done].
Qed.

Ltac quiet_step :=
  first
    [ apply quiet_ret
    | apply quiet_return
    | apply quiet_bind; [|intros ?]
    | match goal with
      | |- quiet (if ?c then _ else _) => destruct c
      | |- quiet (match ?c with _ => _ end) => destruct c
      | |- quiet (let '(_, _) := ?c in _) => destruct c
      end ].

Section Quiet.
Context (pkg : Imports) (a : api).

Lemma getBulkStateReqs_quiet in_ keys :
  quiet (getBulkStateReqs pkg a in_ keys).
Proof. induction keys; simpl; repeat quiet_step; done. Qed.

Lemma saveStateReqs_quiet storeName states :
  quiet (saveStateReqs pkg a storeName states).
Proof. induction states; simpl; repeat quiet_step; done. Qed.

Lemma deleteBulkStateReqs_quiet storeName states :
  quiet (deleteBulkStateReqs pkg a storeName states).
Proof. induction states; simpl; repeat quiet_step; done. Qed.

Lemma transactionOperations_quiet storeName ops :
  quiet (transactionOperations pkg a storeName ops).
Proof. induction ops; simpl; repeat quiet_step; done. Qed.

Lemma encryptOperations_quiet storeName ops :
  quiet (encryptOperations pkg storeName ops).
Proof. induction ops; simpl; repeat quiet_step; done. Qed.
End Quiet.

(** ** Empty request lists *)

Section EmptyLists.
Context (pkg : Imports) (a : api).

(** [GetBulkState] with no keys returns before it builds a request. *)
Lemma GetBulkState_empty ctx in_ store :
  GetStateStore a (gbr_StoreName in_) = inr store ->
  gbr_Keys in_ = [] ->
  GetBulkState pkg a ctx in_ = (Return {| gbres_Items := [] |} None, []).
Proof.
  intros Hstore Hkeys. unfold GetBulkState, run.
  rewrite Hstore, Hkeys. done.
Qed.

(** [SaveState] with no states returns before it builds a request. *)
Lemma SaveState_empty ctx in_ store :
  GetStateStore a (ssr_StoreName in_) = inr store ->
  ssr_States in_ = [] ->
  SaveState pkg a ctx in_ = (Return tt None, []).
Proof.
  intros Hstore Hstates. unfold SaveState, run.
  rewrite Hstore, Hstates. done.
Qed.

(** C7, the behaviour of the code on its failing input: [DeleteBulkState]
    has no guard for an empty list of states.  On a configured store it
    hands the empty batch, with the single and the bulk delete of the
    store, to [PerformBulkStoreOperation], records a [StateInvoked] metric
    for the bulk delete, and returns what that call reports; the list of
    calls it makes is not empty, unlike [GetBulkState] and [SaveState]. *)
Theorem DeleteBulkState_empty_is_dispatched ctx in_ store :
  GetStateStore a (dbr_StoreName in_) = inr store ->
  dbr_States in_ = [] ->
  let err :=
    PerformBulkStoreOperation pkg state.DeleteRequest []
      (state.Delete store) (state.BulkDelete store) in
  DeleteBulkState pkg a ctx in_
  = (Return tt
       (surfaced_write_error StateBulkDelete ErrStateDeleteBulk
          (dbr_StoreName in_) <$> err),
     [Call_PerformBulkStoreOperation_Delete (dbr_StoreName in_) [];
      StateInvoked (dbr_StoreName in_) diag_BulkDelete
        (bool_decide (err = None))])
  /\ calls (DeleteBulkState pkg a ctx in_) <> [].
Proof.
  intros Hstore Hstates err.
  assert (Heq : DeleteBulkState pkg a ctx in_
    = (Return tt
         (surfaced_write_error StateBulkDelete ErrStateDeleteBulk
            (dbr_StoreName in_) <$> err),
       [Call_PerformBulkStoreOperation_Delete (dbr_StoreName in_) [];
        StateInvoked (dbr_StoreName in_) diag_BulkDelete
          (bool_decide (err = None))])).
  { unfold DeleteBulkState, run. rewrite Hstore, Hstates. simpl.
    munfold. simpl. fold err.
    destruct err as [e|]; simpl; [|done].
    unfold surfaced_write_error. by destruct (kiterrors_FromError e) as [[c m]|]. }
  split; [exact Heq|]. rewrite Heq. done.
Qed.
End EmptyLists.

Lemma DeleteBulkState_empty_is_dispatched_witness :
  GetStateStore (Demo.receiver None (Demo.store None [] None)) "store1"
  = inr (Demo.store None [] None)
  /\ calls (DeleteBulkState Demo.pkg
              (Demo.receiver None (Demo.store None [] None)) (Demo.ctx None)
              {| dbr_StoreName := "store1"; dbr_States := [] |}) <> [].
Proof.
  split; [reflexivity|].
  exact (proj2 (DeleteBulkState_empty_is_dispatched Demo.pkg
                  (Demo.receiver None (Demo.store None [] None))
                  (Demo.ctx None)
                  {| dbr_StoreName := "store1"; dbr_States := [] |}
                  (Demo.store None [] None) eq_refl eq_refl)).
Defined.

(** ** Malformed baggage in [InvokeBinding] *)

(** C8, as amended: when the incoming metadata carries baggage values whose
    joined string the baggage parser rejects, [InvokeBinding] returns a nil
    response and the error of the parser, unchanged, having made no call at
    all: the output binding is not invoked, no metric is recorded and no
    header is set. *)
Theorem InvokeBinding_malformed_baggage pkg a ctx in_ incomingMD
    baggageValues err :
  FromIncomingContext ctx = Some incomingMD ->
  incomingMD !! BaggageHeader = Some baggageValues ->
  baggageValues <> [] ->
  otelbaggage_Parse pkg (strings_Join baggageValues ",") = Some err ->
  InvokeBinding pkg a ctx in_ = (Return None (Some (Upstream err)), []).
Proof.
  intros Hmd Hbag Hne Hparse. unfold InvokeBinding, run.
  rewrite Hmd. munfold. unfold invokeBindingBaggage. rewrite Hbag. simpl.
  destruct baggageValues as [|v vs]; [done|]. simpl length.
  case_decide; [|simpl in *; lia].
  munfold. rewrite Hparse. done.
Qed.

Lemma InvokeBinding_malformed_baggage_witness :
  otelbaggage_Parse Demo.pkg (strings_Join ["not a member"] ",")
  = Some (errors_New "invalid baggage list-member")
  /\ InvokeBinding Demo.pkg (Demo.receiver None (Demo.store None [] None))
       (Demo.ctx (Some {[ BaggageHeader := ["not a member"] ]}))
       {| ibr_Name := "out"; ibr_Data := []; ibr_Metadata := ∅;
          ibr_Operation := "create" |}
     = (Return None (Some (Upstream (errors_New "invalid baggage list-member"))),
        []).
Proof.
  split; [reflexivity|].
  apply (InvokeBinding_malformed_baggage Demo.pkg _ _ _
           {[ BaggageHeader := ["not a member"] ]} ["not a member"]);
    [reflexivity | reflexivity | discriminate | reflexivity].
Defined.

(** C8 as the specification states it does not hold: the error that comes
    back for a malformed baggage header is the plain error of the parser,
    which carries no status, and not an InvalidArgument error. *)
Lemma InvokeBinding_malformed_baggage_not_InvalidArgument :
  ~ (forall pkg a ctx in_ incomingMD baggageValues err,
       FromIncomingContext ctx = Some incomingMD ->
       incomingMD !! BaggageHeader = Some baggageValues ->
       baggageValues <> [] ->
       otelbaggage_Parse pkg (strings_Join baggageValues ",") = Some err ->
       exists r e,
         result (InvokeBinding pkg a ctx in_) = Return r (Some e)
         /\ kind_of e = Some KInvalidArgument
         /\ calls (InvokeBinding pkg a ctx in_) = []).
Proof.
  intros H.
  destruct (H Demo.pkg (Demo.receiver None (Demo.store None [] None))
              (Demo.ctx (Some {[ BaggageHeader := ["not a member"] ]}))
              {| ibr_Name := "out"; ibr_Data := []; ibr_Metadata := ∅;
                 ibr_Operation := "create" |}
              {[ BaggageHeader := ["not a member"] ]} ["not a member"]
              (errors_New "invalid baggage list-member")
              ltac:(reflexivity) ltac:(reflexivity) ltac:(discriminate)
              ltac:(reflexivity))
    as (r & e & Hres & Hkind & _).
  vm_compute in Hres. injection Hres as _ <-. discriminate Hkind.
Qed.

(** ** [UnsubscribeConfiguration] *)

(** C10: [UnsubscribeConfiguration] always returns a response and a nil
    error.  For an id that is not in the subscription table the response
    has Ok false and a message built from the id, and the table is left as
    it was; for an id in the table the response has Ok true, the entry is
    gone from the table, its stop channel is closed, and the other entries
    are untouched. *)
Theorem UnsubscribeConfiguration_response cs request :
  exists resp,
    fst (UnsubscribeConfiguration cs request) = (Return resp None,
      if ucres_Ok resp then [] else [RecordErrorCode ConfigurationUnsubscribe])
    /\ match configurationSubscribes cs !! ucr_Id request with
       | None =>
           ucres_Ok resp = false
           /\ ucr_Id request ∈ message_args (ucres_Message resp)
           /\ snd (UnsubscribeConfiguration cs request) = cs
       | Some stop =>
           let cs' := snd (UnsubscribeConfiguration cs request) in
           ucres_Ok resp = true
           /\ configurationSubscribes cs' !! ucr_Id request = None
           /\ stop ∈ closedChannels cs'
           /\ (forall id, id <> ucr_Id request ->
                 configurationSubscribes cs' !! id
                 = configurationSubscribes cs !! id)
       end.
Proof.
  unfold UnsubscribeConfiguration, GetConfigurationSubscribe.
  destruct (configurationSubscribes cs !! ucr_Id request) as [stop|] eqn:Hget.
  - exists {| ucres_Ok := true; ucres_Message := Lit "" |}.
    split; [reflexivity|]. simpl. rewrite Hget.
    repeat split.
    + apply lookup_delete_eq.
    + set_solver.
    + intros id Hne. by rewrite lookup_delete_ne.
  - exists {| ucres_Ok := false;
              ucres_Message :=
                Sprintf ErrConfigurationUnsubscribe
                  [ucr_Id request; "subscription does not exist"] |}.
    split; [reflexivity|]. simpl.
    repeat split. set_solver.
Qed.

(** ** Errors of state writes *)

Section StateWrites.
Context (pkg : Imports) (a : api).

(** [SaveState] once its requests are built: one hand-over of the batch,
    one metric, and the error of the batch, if any, surfaced. *)
Lemma SaveState_dispatched ctx in_ store reqs :
  GetStateStore a (ssr_StoreName in_) = inr store ->
  ssr_States in_ <> [] ->
  fst (saveStateReqs pkg a (ssr_StoreName in_) (ssr_States in_) [])
  = inl reqs ->
  let err :=
    PerformBulkStoreOperation pkg state.SetRequest reqs
      (state.Set_ store) (state.BulkSet store) in
  SaveState pkg a ctx in_
  = (Return tt
       (surfaced_write_error StateSave ErrStateSave (ssr_StoreName in_)
          <$> err),
     [Call_PerformBulkStoreOperation_Set (ssr_StoreName in_) reqs;
      StateInvoked (ssr_StoreName in_) diag_Set (bool_decide (err = None))]).
Proof.
  intros Hstore Hne Hloop err. unfold SaveState, run. rewrite Hstore.
  case_decide as Hlen.
  { destruct (ssr_States in_); [done|discriminate Hlen]. }
  munfold.
  pose proof (saveStateReqs_quiet pkg a (ssr_StoreName in_)
                (ssr_States in_) []) as Hq.
  rewrite Hloop in Hq. rewrite Hq. simpl. fold err.
  destruct err as [e|]; simpl; [|done].
  unfold surfaced_write_error.
  by destruct (kiterrors_FromError e) as [[c m]|].
Qed.

(** [DeleteState] once the key is rewritten. *)
Lemma DeleteState_dispatched ctx in_ store key :
  GetStateStore a (dsr_StoreName in_) = inr store ->
  GetModifiedStateKey pkg (dsr_Key in_) (dsr_StoreName in_) (AppID a)
  = inr key ->
  let req :=
    {| state.DelKey := key;
       state.DelMetadata := dsr_Metadata in_;
       state.DelETag := dsr_Etag in_;
       state.DelOptions := deleteStateOption pkg (dsr_Options in_) |} in
  let err := state.Delete store req in
  DeleteState pkg a ctx in_
  = (Return tt
       (surfaced_write_error StateDelete ErrStateDelete (dsr_Key in_)
          <$> err),
     [Call_Delete (dsr_StoreName in_) req;
      StateInvoked (dsr_StoreName in_) diag_Delete
        (bool_decide (err = None))]).
Proof.
  intros Hstore Hkey req err. unfold DeleteState, run.
  rewrite Hstore, Hkey. munfold. simpl. fold req. fold err.
  destruct err as [e|]; simpl; [|done].
  unfold surfaced_write_error.
  by destruct (kiterrors_FromError e) as [[c m]|].
Qed.

(** [DeleteBulkState] once its requests are built. *)
Lemma DeleteBulkState_dispatched ctx in_ store reqs :
  GetStateStore a (dbr_StoreName in_) = inr store ->
  fst (deleteBulkStateReqs pkg a (dbr_StoreName in_) (dbr_States in_) [])
  = inl reqs ->
  let err :=
    PerformBulkStoreOperation pkg state.DeleteRequest reqs
      (state.Delete store) (state.BulkDelete store) in
  DeleteBulkState pkg a ctx in_
  = (Return tt
       (surfaced_write_error StateBulkDelete ErrStateDeleteBulk
          (dbr_StoreName in_) <$> err),
     [Call_PerformBulkStoreOperation_Delete (dbr_StoreName in_) reqs;
      StateInvoked (dbr_StoreName in_) diag_BulkDelete
        (bool_decide (err = None))]).
Proof.
  intros Hstore Hloop err. unfold DeleteBulkState, run. rewrite Hstore.
  munfold.
  pose proof (deleteBulkStateReqs_quiet pkg a (dbr_StoreName in_)
                (dbr_States in_) []) as Hq.
  rewrite Hloop in Hq. rewrite Hq. simpl. fold err.
  destruct err as [e|]; simpl; [|done].
  unfold surfaced_write_error.
  by destruct (kiterrors_FromError e) as [[c m]|].
Qed.
End StateWrites.

(** The etag taxonomy of [getStateErrorCode]. *)
Lemma getStateErrorCode_taxonomy err :
  match errors_As_ETagError err with
  | Some ETagMismatch => getStateErrorCode err = codes.Aborted
  | Some ETagInvalid => getStateErrorCode err = codes.InvalidArgument
  | _ => getStateErrorCode err = codes.Internal
  end.
Proof.
  unfold getStateErrorCode.
  by destruct (errors_As_ETagError err) as [[| |?]|].
Qed.

(** C9, as amended: when the dispatch of [SaveState], [DeleteState] or
    [DeleteBulkState] fails with a driver error, the error returned to the
    caller is determined as follows.  A driver error that is, or wraps, a
    rich error of the kit library is returned as that rich error, with the
    code it carries.  Any other driver error becomes an error whose message
    is built from a template and ends with the message of the driver error,
    and whose code is Aborted (ConditionFailed) when the driver error is an
    etag mismatch, InvalidArgument when it is an invalid etag, and Internal
    otherwise. *)
Theorem state_write_error_mapping pkg a ctx err :
  (forall in_ store reqs,
     GetStateStore a (ssr_StoreName in_) = inr store ->
     ssr_States in_ <> [] ->
     fst (saveStateReqs pkg a (ssr_StoreName in_) (ssr_States in_) [])
     = inl reqs ->
     PerformBulkStoreOperation pkg state.SetRequest reqs
       (state.Set_ store) (state.BulkSet store) = Some err ->
     result (SaveState pkg a ctx in_)
     = Return tt (Some (surfaced_write_error StateSave ErrStateSave
                          (ssr_StoreName in_) err)))
  /\ (forall in_ store key,
     GetStateStore a (dsr_StoreName in_) = inr store ->
     GetModifiedStateKey pkg (dsr_Key in_) (dsr_StoreName in_) (AppID a)
     = inr key ->
     state.Delete store
       {| state.DelKey := key;
          state.DelMetadata := dsr_Metadata in_;
          state.DelETag := dsr_Etag in_;
          state.DelOptions := deleteStateOption pkg (dsr_Options in_) |}
     = Some err ->
     result (DeleteState pkg a ctx in_)
     = Return tt (Some (surfaced_write_error StateDelete ErrStateDelete
                          (dsr_Key in_) err)))
  /\ (forall in_ store reqs,
     GetStateStore a (dbr_StoreName in_) = inr store ->
     fst (deleteBulkStateReqs pkg a (dbr_StoreName in_) (dbr_States in_) [])
     = inl reqs ->
     PerformBulkStoreOperation pkg state.DeleteRequest reqs
       (state.Delete store) (state.BulkDelete store) = Some err ->
     result (DeleteBulkState pkg a ctx in_)
     = Return tt (Some (surfaced_write_error StateBulkDelete
                          ErrStateDeleteBulk (dbr_StoreName in_) err)))
  /\ (forall tag t subject,
     match kiterrors_FromError err with
     | Some (c, m) => surfaced_write_error tag t subject err = KitErr c m
     | None =>
         surfaced_write_error tag t subject err
         = Basic (getStateErrorCode err) 500 tag
             (Sprintf t [subject; Error err])
         /\ match errors_As_ETagError err with
            | Some ETagMismatch =>
                kind_of (surfaced_write_error tag t subject err)
                = Some KConditionFailed
            | Some ETagInvalid =>
                kind_of (surfaced_write_error tag t subject err)
                = Some KInvalidArgument
            | _ =>
                kind_of (surfaced_write_error tag t subject err)
                = Some KInternal
            end
     end).
Proof.
  repeat split.
  - intros in_ store reqs Hstore Hne Hloop Herr.
    rewrite (SaveState_dispatched pkg a ctx in_ store reqs Hstore Hne Hloop).
    simpl. by rewrite Herr.
  - intros in_ store key Hstore Hkey Herr.
    rewrite (DeleteState_dispatched pkg a ctx in_ store key Hstore Hkey).
    simpl. by rewrite Herr.
  - intros in_ store reqs Hstore Hloop Herr.
    rewrite (DeleteBulkState_dispatched pkg a ctx in_ store reqs Hstore Hloop).
    simpl. by rewrite Herr.
  - intros tag t subject. unfold surfaced_write_error.
    destruct (kiterrors_FromError err) as [[c m]|]; [done|].
    split; [done|]. unfold getStateErrorCode.
    by destruct (errors_As_ETagError err) as [[| |?]|].
Qed.

Lemma state_write_error_mapping_witness :
  result (SaveState Demo.pkg
            (Demo.receiver None
               (Demo.store None []
                  (Some (ETagError ETagMismatch "etag mismatch: 1 != 2"))))
            (Demo.ctx None)
            {| ssr_StoreName := "store1";
               ssr_States :=
                 [{| si_Key := "k"; si_Value := bytes_of_string "v";
                     si_Etag := Some "1"; si_Metadata := ∅;
                     si_Options := None |}] |})
  = Return tt
      (Some (Basic codes.Aborted 500 StateSave
               (Sprintf ErrStateSave ["store1"; "etag mismatch: 1 != 2"]))).
Proof.
  eapply (proj1 (state_write_error_mapping Demo.pkg _ (Demo.ctx None)
                   (ETagError ETagMismatch "etag mismatch: 1 != 2")));
    [reflexivity | discriminate | reflexivity | reflexivity].
Defined.

(** C9 as the specification states it does not hold: a driver error that is
    not an etag error need not surface as Internal.  A store that fails a
    save with a rich error of code Unavailable has that error returned. *)
Lemma state_write_error_not_always_Internal :
  ~ (forall pkg a ctx in_ store reqs err,
       GetStateStore a (ssr_StoreName in_) = inr store ->
       ssr_States in_ <> [] ->
       fst (saveStateReqs pkg a (ssr_StoreName in_) (ssr_States in_) [])
       = inl reqs ->
       PerformBulkStoreOperation pkg state.SetRequest reqs
         (state.Set_ store) (state.BulkSet store) = Some err ->
       errors_As_ETagError err = None ->
       exists e,
         result (SaveState pkg a ctx in_) = Return tt (Some e)
         /\ kind_of e = Some KInternal).
Proof.
  intros H.
  destruct (H Demo.pkg
              (Demo.receiver None
                 (Demo.store None []
                    (Some (KitError codes.Unavailable "store is down"))))
              (Demo.ctx None)
              {| ssr_StoreName := "store1";
                 ssr_States := [Demo.item "k" "v"] |}
              (Demo.store None []
                 (Some (KitError codes.Unavailable "store is down")))
              _ (KitError codes.Unavailable "store is down")
              ltac:(reflexivity) ltac:(discriminate) ltac:(reflexivity)
              ltac:(reflexivity) ltac:(reflexivity))
    as (e & Hres & Hkind).
  vm_compute in Hres. injection Hres as <-. discriminate Hkind.
Qed.

(** ** The bound on transactional operations *)

Lemma strict_ret {R A} (x : A) : strict (mret x : M R A).
Proof. intros t ex H. discriminate H. Qed.

Lemma strict_return {R A} (r : R) (e : apierror) :
  strict (return_ r (Some e) : M R A).
Proof. intros t ex H. injection H as <-. eauto. Qed.

Lemma strict_bind {R A B} (m : M R A) (k : A -> M R B) :
  strict m -> (forall x, strict (k x)) -> strict (m ≫= k).
Proof.
  intros Hm Hk t ex. munfold. specialize (Hm t).
  destruct (m t) as [[x|e] t']; simpl.
  - apply Hk.
  - intros [= <-]. by apply Hm.
Qed.

Ltac strict_step :=
  first
    [ apply strict_ret
    | apply strict_return
    | apply strict_bind; [|intros ?]
    | match goal with
      | |- strict (if ?c then _ else _) => destruct c
      | |- strict (match ?c with _ => _ end) => destruct c
      | |- strict (let '(_, _) := ?c in _) => destruct c
      end ].

Section TransactionBound.
Context (pkg : Imports) (a : api).

Lemma transactionOperations_strict storeName ops :
  strict (transactionOperations pkg a storeName ops).
Proof. induction ops; simpl; repeat strict_step; done. Qed.

(** The loop builds one operation for each operation of the request. *)
Lemma transactionOperations_length storeName ops t operations :
  fst (transactionOperations pkg a storeName ops t) = inl operations ->
  length operations = length ops.
Proof.
  revert t operations; induction ops as [|op ops IH]; intros t operations;
    simpl.
  { by intros [= <-]. }
  destruct (extractEtag (tso_Request op)) as [hasEtag etag].
  destruct (GetModifiedStateKey pkg _ _ _) as [e|key]; [done|].
  munfold.
  repeat case_decide; simpl; try done;
    specialize (IH t);
    destruct (transactionOperations pkg a storeName ops t) as [[x|e] t'];
      simpl in *; try done;
    intros [= <-]; simpl; f_equal; by apply IH.
Qed.

End TransactionBound.




(** ** Keys in [GetBulkState] *)

Section BulkGetKeys.
Context (pkg : Imports) (a : api).

(** Each request the loop builds carries the rewritten form of the key at
    the same position. *)
Lemma getBulkStateReqs_keys in_ keys t reqs :
  fst (getBulkStateReqs pkg a in_ keys t) = inl reqs ->
  Forall2 (fun k r =>
             GetModifiedStateKey pkg k (gbr_StoreName in_) (AppID a)
             = inr (state.GetKey r)) keys reqs.
Proof.
  revert t reqs; induction keys as [|k keys IH]; intros t reqs; simpl.
  { intros [= <-]. constructor. }
  destruct (GetModifiedStateKey pkg k _ _) as [e|key] eqn:Hkey; [done|].
  munfold. specialize (IH t).
  destruct (getBulkStateReqs pkg a in_ keys t) as [[x|e] t']; simpl in *;
    [|done].
  intros [= <-]. constructor; [exact Hkey|]. by apply IH.
Qed.

Lemma decryptBulkItem_quiet {R} storeName item :
  quiet (decryptBulkItem (R := R) pkg storeName item).
Proof. unfold decryptBulkItem. repeat quiet_step; done. Qed.

Lemma decryptBulkItems_quiet {R} storeName items :
  quiet (decryptBulkItems (R := R) pkg storeName items).
Proof.
  induction items as [|item items IH]; simpl; [done|].
  apply quiet_bind; [apply decryptBulkItem_quiet|]. intros item'.
  apply quiet_bind; [exact IH|]. by intros rest.
Qed.

(** Decryption keeps the key of an item. *)
Lemma decryptBulkItem_key {R} storeName item t item' :
  fst (decryptBulkItem (R := R) pkg storeName item t) = inl item' ->
  bsi_Key item' = bsi_Key item.
Proof.
  unfold decryptBulkItem. case_decide; [by intros [= <-]|].
  destruct (TryDecryptValue pkg storeName (bsi_Data item)) as [[err|val]|];
    [by intros [= <-]|by intros [= <-]|done].
Qed.

(** The loop decrypts item by item: it returns as many items as it was
    given, with the same keys, in the same order. *)
Lemma decryptBulkItems_keys {R} storeName items t items' :
  fst (decryptBulkItems (R := R) pkg storeName items t) = inl items' ->
  Forall2 (fun item item' => bsi_Key item' = bsi_Key item) items items'.
Proof.
  revert t items'; induction items as [|item items IH]; intros t items';
    simpl.
  { intros [= <-]. constructor. }
  munfold.
  pose proof (decryptBulkItem_key (R := R) storeName item t) as Hkey.
  destruct (decryptBulkItem pkg storeName item t) as [[item1|e] t1];
    simpl in *; [|done].
  specialize (IH t1).
  destruct (decryptBulkItems pkg storeName items t1) as [[rest|e] t2];
    simpl in *; [|done].
  intros [= <-]. constructor; [by apply Hkey|by apply IH].
Qed.

(** The loop leaves the handler only by a panic of the decryption. *)
Lemma decryptBulkItems_exit {R} storeName items t ex :
  fst (decryptBulkItems (R := R) pkg storeName items t) = inr ex ->
  ex = Panic.
Proof.
  revert t; induction items as [|item items IH]; intros t; simpl; [done|].
  munfold. unfold decryptBulkItem at 1.
  case_decide; simpl.
  - specialize (IH t).
    destruct (decryptBulkItems pkg storeName items t) as [[rest|e] t2];
      simpl in *; [done|]. intros [= <-]. by apply IH.
  - destruct (TryDecryptValue pkg storeName (bsi_Data item))
      as [[err|val]|]; munfold; simpl; [| |by intros [= <-]];
      specialize (IH t);
      (destruct (decryptBulkItems pkg storeName items t) as [[rest|e] t2];
       simpl in *; [done|]); intros [= <-]; by apply IH.
Qed.

(** [GetBulkState] once its requests are built. *)
Lemma GetBulkState_dispatched ctx in_ store reqs :
  GetStateStore a (gbr_StoreName in_) = inr store ->
  gbr_Keys in_ <> [] ->
  fst (getBulkStateReqs pkg a in_ (gbr_Keys in_) []) = inl reqs ->
  let responses := fst (state.BulkGet store reqs (gbr_Parallelism in_)) in
  let err := snd (state.BulkGet store reqs (gbr_Parallelism in_)) in
  GetBulkState pkg a ctx in_
  = (match err with
     | Some e => Return {| gbres_Items := [] |} (Some (Upstream e))
     | None =>
         if EncryptedStateStore pkg (gbr_StoreName in_) then
           match fst (decryptBulkItems pkg (gbr_StoreName in_)
                        (map (bulkStateItem pkg) responses) []) with
           | inl items => Return {| gbres_Items := items |} None
           | inr ex => ex
           end
         else
           Return {| gbres_Items := map (bulkStateItem pkg) responses |} None
     end,
     [Call_BulkGet (gbr_StoreName in_) reqs (gbr_Parallelism in_);
      StateInvoked (gbr_StoreName in_) diag_BulkGet
        (bool_decide (err = None))]).
Proof.
  intros Hstore Hne Hloop responses err. unfold GetBulkState, run.
  rewrite Hstore.
  case_decide as Hlen.
  { destruct (gbr_Keys in_); [done|discriminate Hlen]. }
  munfold.
  pose proof (getBulkStateReqs_quiet pkg a in_ (gbr_Keys in_) []) as Hq.
  rewrite Hloop in Hq. rewrite Hq. simpl.
  subst responses err.
  destruct (state.BulkGet store reqs (gbr_Parallelism in_)) as [rs [e|]];
    simpl; [done|].
  destruct (EncryptedStateStore pkg (gbr_StoreName in_)); [|done].
  rewrite (decryptBulkItems_quiet (R := GetBulkStateResponse)
             (gbr_StoreName in_) (map (bulkStateItem pkg) rs)).
  by destruct (fst (decryptBulkItems pkg (gbr_StoreName in_)
                      (map (bulkStateItem pkg) rs) [])).
Qed.

(** What [GetBulkState] does when it does not reach the driver. *)
Lemma GetBulkState_not_dispatched ctx in_ store :
  GetStateStore a (gbr_StoreName in_) = inr store ->
  (gbr_Keys in_ = []
   \/ exists ex, fst (getBulkStateReqs pkg a in_ (gbr_Keys in_) []) = inr ex) ->
  calls (GetBulkState pkg a ctx in_) = []
  /\ forall resp, result (GetBulkState pkg a ctx in_) = Return resp None ->
                  gbres_Items resp = [].
Proof.
  intros Hstore [Hkeys|[ex Hex]].
  - rewrite (GetBulkState_empty pkg a ctx in_ store Hstore Hkeys).
    split; [done|]. by intros resp [= <-].
  - unfold GetBulkState, run. rewrite Hstore.
    case_decide as Hlen.
    { split; [done|]. by intros resp [= <-]. }
    munfold.
    pose proof (getBulkStateReqs_quiet pkg a in_ (gbr_Keys in_) []) as Hq.
    rewrite Hex in Hq. rewrite Hq. simpl. split; [done|].
    assert (Hstrict : strict (getBulkStateReqs pkg a in_ (gbr_Keys in_))).
    { clear. induction (gbr_Keys in_); simpl; repeat strict_step; done. }
    destruct (Hstrict [] ex Hex) as (r & e & ->). done.
Qed.

(** The items of a successful response stand for the responses of the
    driver, one for one and in order, each under the key the driver
    returned with the rewrite reversed. *)
Lemma GetBulkState_item_keys ctx in_ store reqs resp :
  GetStateStore a (gbr_StoreName in_) = inr store ->
  gbr_Keys in_ <> [] ->
  fst (getBulkStateReqs pkg a in_ (gbr_Keys in_) []) = inl reqs ->
  result (GetBulkState pkg a ctx in_) = Return resp None ->
  Forall2 (fun r item =>
             bsi_Key item = GetOriginalStateKey pkg (state.BulkKey r))
    (fst (state.BulkGet store reqs (gbr_Parallelism in_)))
    (gbres_Items resp).
Proof.
  intros Hstore Hne Hloop.
  rewrite (GetBulkState_dispatched ctx in_ store reqs Hstore Hne Hloop).
  unfold result. simpl.
  destruct (state.BulkGet store reqs (gbr_Parallelism in_))
    as [responses [e|]]; simpl; [done|].
  assert (Hplain : Forall2 (fun r item =>
                      bsi_Key item
                      = GetOriginalStateKey pkg (state.BulkKey r))
                     responses (map (bulkStateItem pkg) responses)).
  { apply Forall2_fmap_r, Forall_Forall2_diag, Forall_forall. done. }
  destruct (EncryptedStateStore pkg (gbr_StoreName in_)).
  - destruct (fst (decryptBulkItems pkg (gbr_StoreName in_)
                     (map (bulkStateItem pkg) responses) []))
      as [items|ex] eqn:Hdec.
    + intros [= <-]. simpl.
      apply decryptBulkItems_keys in Hdec.
      revert Hplain Hdec.
      generalize (map (bulkStateItem pkg) responses). intros plain Hplain.
      revert items.
      induction Hplain as [|r item rs plain Hkey _ IH]; intros items Hdec.
      { apply Forall2_nil_inv_l in Hdec as ->. constructor. }
      apply Forall2_cons_inv_l in Hdec as (item' & items' & Hk & Hrest & ->).
      constructor; [congruence|by apply IH].
    + apply decryptBulkItems_exit in Hdec as ->. done.
  - by intros [= <-].
Qed.
End BulkGetKeys.

(** C6: in [GetBulkState], whenever the driver is handed a read, the keys
    of its requests are, position by position, the rewritten forms of the
    requested keys, and the items of a successful response stand, one for
    one and in order, for the responses the driver gave to these requests,
    each item under the key the driver returned with the rewrite reversed.
    A call that does not reach the driver returns no item.  When reversing
    undoes the rewrite of the requested keys and the driver answers for
    keys it was asked for, the key of every item is a requested key, the
    original of the key the driver returned. *)
Theorem GetBulkState_keys pkg a ctx in_ store :
  GetStateStore a (gbr_StoreName in_) = inr store ->
  (forall reqs parallelism,
     Call_BulkGet (gbr_StoreName in_) reqs parallelism
       ∈ calls (GetBulkState pkg a ctx in_) ->
     Forall2 (fun k r =>
                GetModifiedStateKey pkg k (gbr_StoreName in_) (AppID a)
                = inr (state.GetKey r)) (gbr_Keys in_) reqs
     /\ forall resp,
          result (GetBulkState pkg a ctx in_) = Return resp None ->
          Forall2 (fun r item =>
                     bsi_Key item
                     = GetOriginalStateKey pkg (state.BulkKey r))
            (fst (state.BulkGet store reqs parallelism))
            (gbres_Items resp)
          /\ ((forall k k', k ∈ gbr_Keys in_ ->
                 GetModifiedStateKey pkg k (gbr_StoreName in_) (AppID a)
                 = inr k' ->
                 GetOriginalStateKey pkg k' = k) ->
              Forall (fun r => state.BulkKey r ∈ map state.GetKey reqs)
                (fst (state.BulkGet store reqs parallelism)) ->
              Forall2 (fun r item =>
                         bsi_Key item ∈ gbr_Keys in_
                         /\ GetModifiedStateKey pkg (bsi_Key item)
                              (gbr_StoreName in_) (AppID a)
                            = inr (state.BulkKey r))
                (fst (state.BulkGet store reqs parallelism))
                (gbres_Items resp)))
  /\ (calls (GetBulkState pkg a ctx in_) = [] ->
      forall resp,
        result (GetBulkState pkg a ctx in_) = Return resp None ->
        gbres_Items resp = []).
Proof.
  intros Hstore.
  destruct (decide (gbr_Keys in_ = [])) as [Hkeys|Hkeys].
  { destruct (GetBulkState_not_dispatched pkg a ctx in_ store Hstore
                (or_introl Hkeys)) as [Hcalls Hitems].
    split; [|by intros _].
    intros reqs par Hin. rewrite Hcalls in Hin. by apply elem_of_nil in Hin. }
  destruct (fst (getBulkStateReqs pkg a in_ (gbr_Keys in_) []))
    as [reqs|ex] eqn:Hloop.
  2:{ destruct (GetBulkState_not_dispatched pkg a ctx in_ store Hstore
                  (or_intror (ex_intro _ ex Hloop))) as [Hcalls Hitems].
      split; [|by intros _].
      intros reqs par Hin. rewrite Hcalls in Hin.
      by apply elem_of_nil in Hin. }
  pose proof (getBulkStateReqs_keys pkg a in_ _ _ _ Hloop) as Hkeys2.
  split.
  - intros reqs' par Hin.
    rewrite (GetBulkState_dispatched pkg a ctx in_ store reqs Hstore Hkeys
               Hloop) in Hin.
    unfold calls in Hin. simpl in Hin.
    apply elem_of_cons in Hin as [Heq|Hin].
    2:{ apply elem_of_cons in Hin as [Heq|Hin]; [discriminate Heq|].
        by apply elem_of_nil in Hin. }
    injection Heq as -> ->. split; [exact Hkeys2|].
    intros resp Hres.
    pose proof (GetBulkState_item_keys pkg a ctx in_ store reqs resp Hstore
                  Hkeys Hloop Hres) as Hitems.
    split; [exact Hitems|].
    intros Hround Hdriver.
    revert Hdriver. induction Hitems as [|r item rs items Hkey _ IH];
      intros Hdriver; [constructor|].
    apply Forall_cons in Hdriver as [Hr Hrs].
    constructor; [|by apply IH].
    apply list_elem_of_fmap in Hr as (req & Hreq & Hin).
    apply list_elem_of_lookup in Hin as [i Hi].
    destruct (Forall2_lookup_r _ _ _ _ _ Hkeys2 Hi) as (k & Hk & Hmod).
    rewrite <- Hreq in Hmod.
    assert (Hkin : k ∈ gbr_Keys in_) by (eapply list_elem_of_lookup; eauto).
    rewrite Hkey, (Hround k _ Hkin Hmod). by split.
  - intros Hnone. exfalso.
    rewrite (GetBulkState_dispatched pkg a ctx in_ store reqs Hstore Hkeys
               Hloop) in Hnone.
    discriminate Hnone.
Qed.

Lemma GetBulkState_keys_witness :
  let a := Demo.receiver None (Demo.store None [] None) in
  let in_ := {| gbr_StoreName := "store1"; gbr_Keys := ["k1"; "k2"];
                gbr_Parallelism := 0; gbr_Metadata := ∅ |} in
  let reqs :=
    [{| state.GetKey := "app||k1"; state.GetMetadata := ∅;
        state.GetOptions := {| state.GetConsistency := "" |} |};
     {| state.GetKey := "app||k2"; state.GetMetadata := ∅;
        state.GetOptions := {| state.GetConsistency := "" |} |}] in
  Forall2 (fun k r =>
             GetModifiedStateKey Demo.pkg k "store1" "app"
             = inr (state.GetKey r)) ["k1"; "k2"] reqs
  /\ exists resp,
       result (GetBulkState Demo.pkg a (Demo.ctx None) in_)
       = Return resp None
       /\ Forall2 (fun r item =>
                     bsi_Key item
                     = GetOriginalStateKey Demo.pkg (state.BulkKey r))
            (fst (state.BulkGet (Demo.store None [] None) reqs 0))
            (gbres_Items resp)
       /\ map bsi_Key (gbres_Items resp) = ["k1"; "k2"].
Proof.
  intros a in_ reqs.
  destruct (proj1 (GetBulkState_keys Demo.pkg a (Demo.ctx None) in_
                     (Demo.store None [] None) eq_refl) reqs 0
              ltac:(vm_compute; left)) as [Hreqs Hitems].
  split; [exact Hreqs|].
  eexists. split; [vm_compute; reflexivity|].
  split; [|reflexivity].
  exact (proj1 (Hitems _ ltac:(vm_compute; reflexivity))).
Defined.

(** ** Entry ids in [BulkPublishEventAlpha1] *)

Lemma invalid_entry_ids_tail seen entry rest :
  ~ (bpe_EntryId entry ∈ seen \/ bpe_EntryId entry = "") ->
  invalid_entry_ids seen (entry :: rest) ->
  invalid_entry_ids ({[ bpe_EntryId entry ]} ∪ seen) rest.
Proof.
  intros Hok [(e & Hin & Hbad)|Hdup].
  - apply elem_of_cons in Hin as [->|Hin].
    + exfalso. apply Hok. tauto.
    + left. exists e. split; [done|].
      destruct Hbad as [?|?]; [by left|right; set_solver].
  - destruct (decide (bpe_EntryId entry ∈ map bpe_EntryId rest)) as [Hin|Hnin].
    + apply list_elem_of_fmap in Hin as (e & Heq & Hin).
      left. exists e. split; [done|]. right. set_solver.
    + right. intros Hnd. apply Hdup. simpl. by constructor.
Qed.

Section EntryIds.
Context (pkg : Imports) (a : api).

Lemma closeChildSpans_calls {R} spanMap err t :
  closeChildSpans (R := R) pkg spanMap err t
  = (inl tt, t ++ map (fun i => EndChildSpan i err) (mapRange pkg spanMap)).
Proof.
  unfold closeChildSpans. generalize (mapRange pkg spanMap). intros spans.
  revert t; induction spans as [|i rest IH]; intros t; simpl.
  { by rewrite app_nil_r. }
  munfold. rewrite IH. by rewrite <- app_assoc.
Qed.

(** On a list that breaks the rule the loop leaves the handler with an
    error, having started and ended spans only; the error is the entry-id
    error exactly when no envelope had to be built or those that had to be
    built could be. *)
Lemma bulkPublishEntries_invalid ctx in_ features pubsubName topic
    rawPayload rest :
  forall i seen spanMap entries t,
  invalid_entry_ids seen rest ->
  exists e t2,
    bulkPublishEntries pkg a ctx in_ features pubsubName topic rawPayload
      i rest seen spanMap entries t
    = (inr (Return {| bres_FailedEntries := [] |} (Some e)), t ++ t2)
    /\ Forall (fun ev => is_tracing ev = true) t2
    /\ (e = PubSubError PS_MarshalEvents pubsubName topic
              (Some (errors_New
                 "entryId is duplicated or not present for entry"))
        <-> rawPayload = true
            \/ envelopes_built pkg a ctx in_ features pubsubName topic i
                 seen rest).
Proof.
  induction rest as [|entry rest IH]; intros i seen spanMap entries t Hbad.
  { exfalso. destruct Hbad as [(e & Hin & _)|Hdup].
    - by apply elem_of_nil in Hin.
    - apply Hdup. constructor. }
  simpl. case_decide as Hid.
  { eexists _, []. rewrite app_nil_r. split; [reflexivity|].
    split; [done|]. split; [by right|done]. }
  pose proof (invalid_entry_ids_tail _ _ _ Hid Hbad) as Hrest.
  destruct rawPayload eqn:Hraw.
  { edestruct (IH (S i)) as (e & t2 & Heq & Htr & Herr); [exact Hrest|].
    rewrite Heq. exists e, t2. split; [done|]. split; [done|].
    split; [by left|]. intros _. apply Herr. by left. }
  munfold. unfold envelope_built.
  destruct (ChildTraceIDAndState ctx i) as [traceID traceState]. simpl.
  destruct (NewCloudEvent pkg _ _) as [err|envelope] eqn:Hce.
  { rewrite closeChildSpans_calls.
    eexists _, (_ :: _). rewrite <- app_assoc. split; [reflexivity|].
    split.
    - constructor; [done|]. apply Forall_map, Forall_forall. done.
    - split; [done|].
      intros [?|[(envelope & event & Henv & _) _]]; [done|].
      discriminate Henv. }
  destruct (json_Marshal pkg _) as [err|event] eqn:Hjson.
  { rewrite closeChildSpans_calls.
    eexists _, (_ :: _). rewrite <- app_assoc. split; [reflexivity|].
    split.
    - constructor; [done|]. apply Forall_map, Forall_forall. done.
    - split; [done|].
      intros [?|[(envelope' & event & Henv & Hev) _]]; [done|].
      injection Henv as <-. rewrite Hjson in Hev. discriminate Hev. }
  edestruct (IH (S i)) as (e & t2 & Heq & Htr & Herr); [exact Hrest|].
  rewrite Heq. exists e, (StartChildSpan i :: t2).
  rewrite <- app_assoc. split; [reflexivity|].
  split; [by constructor|]. split.
  - intros He. apply Herr in He as [?|Hbuilt]; [done|]. right.
    split; [by exists envelope, event|exact Hbuilt].
  - intros [?|[_ Hbuilt]]; [done|]. apply Herr. by right.
Qed.

(** Where no envelope can fail, the envelopes of every request can be
    built. *)
Lemma envelopes_succeed_built ctx in_ features pubsubName topic rest :
  envelopes_succeed pkg ->
  forall i seen,
    envelopes_built pkg a ctx in_ features pubsubName topic i seen rest.
Proof.
  intros [Hnew Hmarshal].
  induction rest as [|entry rest IH]; intros i seen; simpl; [done|].
  case_decide; [done|]. split; [|apply IH].
  unfold envelope_built.
  match goal with
  | |- context [NewCloudEvent pkg ?ce ?md] =>
      destruct (Hnew ce md) as [envelope Henv]
  end.
  destruct (Hmarshal (ApplyMetadata pkg envelope features
              match bpe_Metadata entry with
              | Some m =>
                  Some (PopulateMetadataForBulkPublishEntry pkg
                          (bpr_Metadata in_) m)
              | None => None
              end)) as [event Hev].
  by exists envelope, event.
Qed.
End EntryIds.


Lemma envelopes_succeed_demo : envelopes_succeed Demo.pkg.
Proof. split; intros; eexists; reflexivity. Qed.



(** ** Broker errors in [BulkPublishEventAlpha1] *)

Section BrokerErrors.
Context (pkg : Imports) (a : api).

(** The loop over the entries only starts and ends spans. *)
Lemma bulkPublishEntries_calls ctx in_ features pubsubName topic rawPayload
    rest :
  forall i seen spanMap entries t,
  exists t2,
    snd (bulkPublishEntries pkg a ctx in_ features pubsubName topic
           rawPayload i rest seen spanMap entries t) = t ++ t2
    /\ Forall (fun ev => is_tracing ev = true) t2.
Proof.
  induction rest as [|entry rest IH]; intros i seen spanMap entries t;
    simpl.
  { exists []. by rewrite app_nil_r. }
  case_decide.
  { exists []. by rewrite app_nil_r. }
  destruct rawPayload; [apply IH|].
  munfold.
  destruct (ChildTraceIDAndState ctx i) as [traceID traceState].
  destruct (NewCloudEvent pkg _ _) as [err|envelope].
  { rewrite closeChildSpans_calls. simpl.
    eexists (_ :: _). rewrite <- app_assoc. split; [reflexivity|].
    constructor; [done|]. apply Forall_map, Forall_forall. done. }
  destruct (json_Marshal pkg _) as [err|event].
  { rewrite closeChildSpans_calls. simpl.
    eexists (_ :: _). rewrite <- app_assoc. split; [reflexivity|].
    constructor; [done|]. apply Forall_map, Forall_forall. done. }
  edestruct (IH (S i)) as (t2 & Heq & Htr).
  rewrite Heq. exists (StartChildSpan i :: t2).
  rewrite <- app_assoc. split; [reflexivity|]. by constructor.
Qed.

(** The outcome of [BulkPublishEventAlpha1] once the broker was called:
    the request that reached the adapter decides the response. *)
Lemma BulkPublishEventAlpha1_dispatched ctx in_ adapter req :
  pubsubAdapter a = Some adapter ->
  Call_BulkPublish req ∈ calls (BulkPublishEventAlpha1 pkg a ctx in_) ->
  result (BulkPublishEventAlpha1 pkg a ctx in_)
  = match snd (BulkPublish adapter req) with
    | Some err =>
        Return {| bres_FailedEntries := [] |}
          (Some (publish_error (pubsub.PubsubName req) (pubsub.Topic req)
                   err))
    | None =>
        Return {| bres_FailedEntries :=
                    failedEntries (fst (BulkPublish adapter req)) |} None
    end.
Proof.
  intros Hadapter. unfold BulkPublishEventAlpha1, run.
  destruct (validateAndGetPubsubAndTopic pkg a _ _ _)
    as [validationErr|[[[thepubsub pubsubName] topic] rawPayload]].
  { simpl. intros Hin. by apply elem_of_nil in Hin. }
  munfold.
  destruct (bulkPublishEntries_calls ctx in_ (pubsub.Features thepubsub)
              pubsubName topic rawPayload (bpr_Entries in_)
              0%nat ∅ [] [] []) as (t2 & Heq & Htr).
  destruct (bulkPublishEntries pkg a ctx in_ _ _ _ _ _ _ _ _ _ _)
    as [[[spanMap entries]|ex] t1]; simpl in Heq; subst t1.
  2:{ simpl. intros Hin. rewrite Forall_forall in Htr.
      specialize (Htr _ Hin). discriminate Htr. }
  rewrite Hadapter.
  set (req' := {| pubsub.Entries := entries;
                  pubsub.PubsubName := pubsubName;
                  pubsub.Topic := topic;
                  pubsub.ReqMetadata := bpr_Metadata in_ |}).
  assert (Hreq : forall evs,
    Forall (fun ev => forall r, ev <> Call_BulkPublish r) evs ->
    Call_BulkPublish req ∈ t2 ++ [Call_BulkPublish req'] ++ evs ->
    req = req').
  { intros evs Hevs Hin.
    apply elem_of_app in Hin as [Hin|Hin].
    - rewrite Forall_forall in Htr. specialize (Htr _ Hin).
      discriminate Htr.
    - apply elem_of_cons in Hin as [Heq|Hin]; [by injection Heq|].
      rewrite Forall_forall in Hevs. by destruct (Hevs _ Hin req). }
  destruct (BulkPublish adapter req') as [res [err|]] eqn:Hpub;
    rewrite closeChildSpans_calls; simpl; intros Hin.
  - rewrite <- !app_assoc in Hin. simpl in Hin.
    apply Hreq in Hin as ->.
    + rewrite Hpub. simpl. unfold publish_error.
      destruct (errors_As_NotAllowedError err); [done|].
      by destruct (errors_As_NotFoundError err).
    + constructor; [done|]. apply Forall_map, Forall_forall. done.
  - rewrite <- !app_assoc in Hin. simpl in Hin.
    apply Hreq in Hin as ->.
    + by rewrite Hpub.
    + constructor; [done|]. apply Forall_map, Forall_forall. done.
Qed.
End BrokerErrors.

(** C1, the behaviour of the code on its failing input: whenever the
    adapter answers a bulk publish with a non-nil error, the handler returns
    a top-level error and an empty response, whatever failed entries the
    adapter reported next to the error.  The failed entries reach the caller
    only when the adapter returns a nil error.  By the comment at the call
    site a partial failure is reported by the adapter with a non-nil error,
    so on a partial failure the caller gets an error and no failed-entries
    list. *)
Theorem BulkPublishEventAlpha1_broker_error pkg a ctx in_ adapter req res err :
  pubsubAdapter a = Some adapter ->
  Call_BulkPublish req ∈ calls (BulkPublishEventAlpha1 pkg a ctx in_) ->
  BulkPublish adapter req = (res, Some err) ->
  result (BulkPublishEventAlpha1 pkg a ctx in_)
  = Return {| bres_FailedEntries := [] |}
      (Some (publish_error (pubsub.PubsubName req) (pubsub.Topic req) err)).
Proof.
  intros Hadapter Hin Hpub.
  rewrite (BulkPublishEventAlpha1_dispatched pkg a ctx in_ adapter req
             Hadapter Hin).
  by rewrite Hpub.
Qed.

Lemma BulkPublishEventAlpha1_broker_error_witness :
  Call_BulkPublish PartialFailure.dispatched
    ∈ calls (BulkPublishEventAlpha1 Demo.pkg
               (Demo.receiver (Some PartialFailure.adapter)
                  (Demo.store None [] None))
               (Demo.ctx None) PartialFailure.request)
  /\ result (BulkPublishEventAlpha1 Demo.pkg
               (Demo.receiver (Some PartialFailure.adapter)
                  (Demo.store None [] None))
               (Demo.ctx None) PartialFailure.request)
     = Return {| bres_FailedEntries := [] |}
         (Some (PubSubError PS_PublishMessage "ps1" "t"
                  (Some (errors_New "1 of 2 entries failed to publish")))).
Proof.
  assert (Hin : Call_BulkPublish PartialFailure.dispatched
    ∈ calls (BulkPublishEventAlpha1 Demo.pkg
               (Demo.receiver (Some PartialFailure.adapter)
                  (Demo.store None [] None))
               (Demo.ctx None) PartialFailure.request)).
  { vm_compute. right. right. left. }
  split; [exact Hin|].
  exact (BulkPublishEventAlpha1_broker_error Demo.pkg
           (Demo.receiver (Some PartialFailure.adapter)
              (Demo.store None [] None))
           (Demo.ctx None) PartialFailure.request PartialFailure.adapter
           PartialFailure.dispatched _ _ eq_refl Hin eq_refl).
Defined.

(** ** Encryption of state values *)

Lemma bytes_of_string_length s :
  length (bytes_of_string s) = String.length s.
Proof.
  unfold bytes_of_string, list_byte_of_string.
  rewrite length_map. induction s as [|c s IH]; simpl; [done|].
  by rewrite IH.
Qed.

Lemma append_length s1 s2 :
  String.length (s1 +:+ s2) = (String.length s1 + String.length s2)%nat.
Proof. induction s1 as [|c s1 IH]; simpl; [done|]. by rewrite IH. Qed.

Lemma fmt_byte_nonempty b : (1 <= String.length (fmt_byte b))%nat.
Proof. destruct b; vm_compute; lia. Qed.

Lemma strings_Join_fmt_length (b : bytes) :
  (length b <= String.length (strings_Join (map fmt_byte b) " "))%nat.
Proof.
  induction b as [|x [|y rest] IH]; simpl in *; [lia| |].
  - pose proof (fmt_byte_nonempty x). lia.
  - rewrite !append_length. simpl.
    pose proof (fmt_byte_nonempty x). lia.
Qed.

(** Formatting a byte slice with the verb v never gives back the bytes:
    the text is longer than the slice. *)
Lemma Sprintf_v_bytes_differs (b : bytes) :
  bytes_of_string (Sprintf_v_bytes b) <> b.
Proof.
  intros Heq. apply (f_equal length) in Heq.
  rewrite bytes_of_string_length in Heq. unfold Sprintf_v_bytes in Heq.
  rewrite !append_length in Heq. simpl in Heq.
  pose proof (strings_Join_fmt_length b). lia.
Qed.

Section Encryption.
Context (pkg : Imports) (a : api).

(** [GetState] on an encrypted store whose driver answers with [data]
    that decrypts to [plain]. *)
Lemma GetState_decrypts ctx in_ store key getResponse plain :
  GetStateStore a (gsr_StoreName in_) = inr store ->
  GetModifiedStateKey pkg (gsr_Key in_) (gsr_StoreName in_) (AppID a)
  = inr key ->
  (forall req, state.GetKey req = key ->
               state.Get store req = (Some getResponse, None)) ->
  EncryptedStateStore pkg (gsr_StoreName in_) = true ->
  TryDecryptValue pkg (gsr_StoreName in_) (state.Data getResponse)
  = Some (inr plain) ->
  result (GetState pkg a ctx in_)
  = Return {| gsres_Data := plain;
              gsres_Etag := stringValueOrEmpty (state.ETag getResponse);
              gsres_Metadata := state.Metadata getResponse |} None.
Proof.
  intros Hstore Hkey Hget Henc Hdec. unfold GetState, run.
  rewrite Hstore, Hkey. munfold. rewrite Hget by done. simpl.
  rewrite Henc, Hdec. done.
Qed.

(** On an encrypted store every set request of [SaveState] carries the
    encryption of the submitted value, under the rewritten key. *)
Lemma saveStateReqs_encrypted storeName states t reqs :
  EncryptedStateStore pkg storeName = true ->
  fst (saveStateReqs pkg a storeName states t) = inl reqs ->
  Forall2 (fun s r =>
             GetModifiedStateKey pkg (si_Key s) storeName (AppID a)
             = inr (state.SetKey r)
             /\ exists cipher,
                  TryEncryptValue pkg storeName (si_Value s) = inr cipher
                  /\ state.SetValue r = VBytes cipher) states reqs.
Proof.
  intros Henc. revert t reqs.
  induction states as [|s states IH]; intros t reqs; simpl.
  { intros [= <-]. constructor. }
  case_decide; [done|].
  destruct (GetModifiedStateKey pkg _ _ _) as [e|key] eqn:Hkey; [done|].
  munfold. rewrite Henc.
  case_decide; [destruct (json_Unmarshal pkg (si_Value s)); [done|]|];
    (destruct (TryEncryptValue pkg storeName (si_Value s)) as [e|cipher]
       eqn:Hcipher; [done|];
     specialize (IH t);
     destruct (saveStateReqs pkg a storeName states t) as [[x|e] t'];
       simpl in *; [|done];
     intros [= <-]; constructor; [|by apply IH];
     simpl; split; [done|]; by exists cipher).
Qed.
End Encryption.

(** The part of the round trip that holds: a value saved with [SaveState]
    on an encrypted store reaches the driver encrypted, under the rewritten
    key, and a [GetState] that is answered with that ciphertext returns the
    submitted bytes, provided decryption undoes encryption. *)
Lemma SaveState_round_trip pkg a ctx in_ store reqs :
  GetStateStore a (ssr_StoreName in_) = inr store ->
  EncryptedStateStore pkg (ssr_StoreName in_) = true ->
  (forall plain cipher,
     TryEncryptValue pkg (ssr_StoreName in_) plain = inr cipher ->
     TryDecryptValue pkg (ssr_StoreName in_) cipher = Some (inr plain)) ->
  Call_PerformBulkStoreOperation_Set (ssr_StoreName in_) reqs
    ∈ calls (SaveState pkg a ctx in_) ->
  Forall2 (fun s r =>
     exists cipher,
       state.SetValue r = VBytes cipher
       /\ TryEncryptValue pkg (ssr_StoreName in_) (si_Value s) = inr cipher
       /\ forall getReq getResponse,
            gsr_StoreName getReq = ssr_StoreName in_ ->
            gsr_Key getReq = si_Key s ->
            (forall req, state.GetKey req = state.SetKey r ->
                         state.Get store req = (Some getResponse, None)) ->
            state.Data getResponse = cipher ->
            exists resp,
              result (GetState pkg a ctx getReq) = Return resp None
              /\ gsres_Data resp = si_Value s)
    (ssr_States in_) reqs.
Proof.
  intros Hstore Henc Hlaw Hin.
  assert (Hloop : fst (saveStateReqs pkg a (ssr_StoreName in_)
                         (ssr_States in_) []) = inl reqs).
  { revert Hin. unfold SaveState, run. rewrite Hstore.
    case_decide; [simpl; intros Hin; by apply elem_of_nil in Hin|].
    munfold.
    rewrite (saveStateReqs_quiet pkg a (ssr_StoreName in_)
               (ssr_States in_) []).
    destruct (fst (saveStateReqs pkg a (ssr_StoreName in_)
                     (ssr_States in_) [])) as [reqs'|ex]; simpl.
    - destruct (PerformBulkStoreOperation pkg state.SetRequest reqs' _ _);
        simpl; intros Hin;
        (apply elem_of_cons in Hin as [Heq|Hin]; [by injection Heq as ->|]);
        (apply elem_of_cons in Hin as [Heq|Hin]; [discriminate Heq|]);
        by apply elem_of_nil in Hin.
    - intros Hin. by apply elem_of_nil in Hin. }
  eapply Forall2_impl;
    [exact (saveStateReqs_encrypted pkg a _ _ _ _ Henc Hloop)|].
  intros s r [Hkey (cipher & Hcipher & Hval)]. exists cipher.
  split; [done|]. split; [done|].
  intros getReq getResponse Hname Hk Hget Hdata.
  eexists. split.
  { eapply (GetState_decrypts pkg a ctx getReq store (state.SetKey r)
              getResponse (si_Value s)).
    - by rewrite Hname.
    - by rewrite Hname, Hk.
    - exact Hget.
    - by rewrite Hname.
    - rewrite Hname, Hdata. by apply Hlaw. }
  reflexivity.
Qed.

(** C3, the behaviour of the code on its failing input: an upsert inside
    [ExecuteStateTransaction] on an encrypted store does not encrypt the
    submitted bytes but their rendering under the verb v of [fmt.Sprintf]
    (for the bytes of "hi", the text "[104 105]").  The set request handed
    to the store carries the encryption of that text, and a [GetState] that
    is answered with this ciphertext returns the text, which is never equal
    to the submitted bytes.  [SaveState] encrypts the submitted bytes
    themselves (see [SaveState_round_trip]). *)
Theorem ExecuteStateTransaction_upsert_round_trip pkg a ctx in_ store item
    key cipher getReq :
  GetStateStore a (etr_StoreName in_) = inr store ->
  state.IsTransactionalStore store = true ->
  state.FeatureTransactional ∈ state.Features store ->
  EncryptedStateStore pkg (etr_StoreName in_) = true ->
  Enabled (outbox a) (etr_StoreName in_) = false ->
  etr_Operations in_
  = [{| tso_OperationType := state.OperationUpsert; tso_Request := item |}] ->
  GetModifiedStateKey pkg (si_Key item) (etr_StoreName in_) (AppID a)
  = inr key ->
  TryEncryptValue pkg (etr_StoreName in_)
    (bytes_of_string (Sprintf_v_bytes (si_Value item))) = inr cipher ->
  TryDecryptValue pkg (etr_StoreName in_) cipher
  = Some (inr (bytes_of_string (Sprintf_v_bytes (si_Value item)))) ->
  (forall req, state.GetKey req = key ->
     state.Get store req
     = (Some {| state.Data := cipher; state.ETag := None;
                state.Metadata := ∅ |}, None)) ->
  gsr_StoreName getReq = etr_StoreName in_ ->
  gsr_Key getReq = si_Key item ->
  (exists setReq success,
     calls (ExecuteStateTransaction pkg a ctx in_)
     = [Call_Multi (etr_StoreName in_)
          {| state.Operations := [state.OpSet setReq];
             state.TxMetadata := etr_Metadata in_ |};
        StateInvoked (etr_StoreName in_) diag_StateTransaction success]
     /\ state.SetKey setReq = key
     /\ state.SetValue setReq = VBytes cipher)
  /\ exists resp,
       result (GetState pkg a ctx getReq) = Return resp None
       /\ gsres_Data resp = bytes_of_string (Sprintf_v_bytes (si_Value item))
       /\ gsres_Data resp <> si_Value item.
Proof.
  intros Hstore Htx Hfeat Henc Hout Hops Hkey Hcipher Hdec Hget Hname Hk.
  split.
  - unfold ExecuteStateTransaction, run. rewrite Hstore, Htx. simpl.
    rewrite bool_decide_eq_true_2 by done. simpl.
    rewrite Hops. simpl. unfold extractEtag.
    destruct (si_Etag item) as [etag|]; rewrite Hkey; munfold; simpl;
      (destruct (state.MultiMaxSize store) as [max|];
       [destruct (decide (0 < max < Z.of_nat 1)) as [Hmax|_]; [lia|]|]);
      rewrite Henc; simpl; rewrite Hcipher; simpl; rewrite Hout; simpl;
      destruct (state.Multi store _); simpl; eauto 10.
  - eexists. split.
    { eapply (GetState_decrypts pkg a ctx getReq store key).
      - by rewrite Hname.
      - by rewrite Hname, Hk.
      - exact Hget.
      - by rewrite Hname.
      - simpl. rewrite Hname. exact Hdec. }
    split; [reflexivity|]. simpl. apply Sprintf_v_bytes_differs.
Qed.

Lemma ExecuteStateTransaction_upsert_round_trip_witness :
  TryEncryptValue Demo.pkg "secure" (bytes_of_string "[104 105]")
  = inr EncryptedTransaction.written
  /\ result (GetState Demo.pkg EncryptedTransaction.receiver (Demo.ctx None)
               EncryptedTransaction.read)
     = Return {| gsres_Data := bytes_of_string "[104 105]";
                 gsres_Etag := ""; gsres_Metadata := ∅ |} None
  /\ bytes_of_string "[104 105]" <> bytes_of_string "hi".
Proof.
  split; [reflexivity|].
  destruct (ExecuteStateTransaction_upsert_round_trip Demo.pkg
              EncryptedTransaction.receiver (Demo.ctx None)
              EncryptedTransaction.request
              (Demo.store None EncryptedTransaction.written None)
              (Demo.item "k" "hi") "app||k" EncryptedTransaction.written
              EncryptedTransaction.read
              ltac:(reflexivity) ltac:(reflexivity) ltac:(left)
              ltac:(reflexivity) ltac:(reflexivity) ltac:(reflexivity)
              ltac:(reflexivity) ltac:(reflexivity) ltac:(reflexivity)
              ltac:(intros; reflexivity) ltac:(reflexivity)
              ltac:(reflexivity))
    as [_ (resp & Hres & Hdata & Hne)].
  split; [|discriminate].
  pose proof Hres as Hres'. vm_compute in Hres'. injection Hres' as <-.
  exact Hres.
Defined.

(** ** The id message comes first on a configuration stream *)

Section IdFirst.
Import Subscription.
Context (request : SubscribeConfigurationRequest).

(** An invocation of the handler waiting at the ready channel cannot move
    while the channel is open. *)
Lemma handler_blocked s i e sendResult :
  handlers s !! i = Some (e, AtReadyCh) ->
  readyClosed s = false ->
  step request s (Handler i sendResult) = None.
Proof.
  intros Hh Hr.
  assert (Hstep : updateEventHandler_step s i sendResult = None).
  { unfold updateEventHandler_step. by rewrite Hh, Hr. }
  unfold step. by destruct (pc s).
Qed.

(** A handler step needs the ready channel closed, leaves it closed,
    leaves [SubscribeConfiguration] where it is and only adds to the end
    of the stream. *)
Lemma updateEventHandler_step_effect s i sendResult s' :
  (readyClosed s = false ->
   Forall (fun h => snd h = AtReadyCh) (handlers s)) ->
  updateEventHandler_step s i sendResult = Some s' ->
  readyClosed s = true /\ readyClosed s' = true /\ pc s' = pc s
  /\ exists added, stream s' = stream s ++ added.
Proof.
  intros Hgate. unfold updateEventHandler_step.
  destruct (handlers s !! i) as [[e hpc]|] eqn:Hh; [|done].
  destruct (readyClosed s) eqn:Hr.
  2:{ specialize (Hgate eq_refl). rewrite Forall_forall in Hgate.
      assert (Hin : (e, hpc) ∈ handlers s)
        by (eapply list_elem_of_lookup; eauto).
      specialize (Hgate _ Hin). simpl in Hgate. subst hpc.
      done. }
  destruct hpc; try done.
  - intros [= <-]. simpl.
    repeat split; try done. exists []. by rewrite app_nil_r.
  - destruct (lockHeld s); [done|]. intros [= <-]. simpl.
    repeat split; try done. exists []. by rewrite app_nil_r.
  - intros [= <-]. simpl. repeat split; try done. by eexists.
  - intros [= <-]. simpl.
    repeat split; try done. exists []. by rewrite app_nil_r.
Qed.

Lemma starts_with_id_app id s s' added :
  stream s' = stream s ++ added ->
  starts_with_id id s -> starts_with_id id s'.
Proof.
  intros Hs (m & res & rest & Hst & Hid & Hitems). unfold starts_with_id.
  rewrite Hs, Hst. by exists m, res, (rest ++ added).
Qed.

Lemma ready_fields s :
  readyClosed (ready s) = true /\ stream (ready s) = stream s
  /\ handlers (ready s) = handlers s /\ pc (ready s) = pc s.
Proof. unfold ready. by destruct (readyClosed s) eqn:Hr. Qed.

Lemma return_deferred_fields s err :
  readyClosed (return_deferred s err) = true
  /\ stream (return_deferred s err) = stream s
  /\ pc (return_deferred s err) = Returned err.
Proof.
  unfold return_deferred. simpl.
  destruct (ready_fields (subscribeCancel s)) as (-> & -> & _ & _). done.
Qed.

(** One step keeps the invariant. *)
Lemma stream_inv_step o s l s' :
  stream_inv o s ->
  step request s l = Some s' ->
  stream_inv (match o with
              | Some id => Some id
              | None => subscribed [l]
              end) s'.
Proof.
  intros [Hgate Hpc] Hstep.
  destruct l.
  - (* GetStore *)
    unfold step in Hstep. destruct (pc s) eqn:Hp; try done.
    destruct o; [done|].
    destruct (getConfigurationStore _ _); injection Hstep as <-;
      split; simpl; try done.
  - (* Subscribe *)
    unfold step in Hstep. destruct (pc s) eqn:Hp; try done.
    destruct o; [done|]. destruct Hpc as [Hst Hr].
    destruct res as [err|id]; injection Hstep as <-.
    + match goal with
      | |- context [return_deferred ?x ?e] =>
          destruct (return_deferred_fields x e) as (Hr' & _ & Hpc')
      end.
      split; [by rewrite Hr'|]. simpl subscribed. by rewrite Hpc'.
    + split; [exact Hgate|]. done.
  - (* SendID *)
    unfold step in Hstep. destruct (pc s) eqn:Hp; try done.
    destruct o as [id|]; [|done]. destruct Hpc as (-> & Hst & Hr).
    destruct res as [err|]; injection Hstep as <-.
    + match goal with
      | |- context [return_deferred ?x ?e] =>
          destruct (return_deferred_fields x e) as (Hr' & Hst' & Hpc')
      end.
      split; [by rewrite Hr'|]. rewrite Hpc'.
      unfold starts_with_id. rewrite Hst'. simpl. rewrite Hst.
      eexists _, _, _. split; [reflexivity|]. by split.
    + split; [exact Hgate|]. simpl. split; [done|].
      unfold starts_with_id. simpl. rewrite Hst.
      eexists _, _, _. split; [reflexivity|]. by split.
  - (* AddSubscribe *)
    unfold step in Hstep. destruct (pc s) eqn:Hp; try done.
    destruct o as [id|]; [|done]. destruct Hpc as [-> Hst].
    injection Hstep as <-. simpl. split; [exact Hgate|]. done.
  - (* Ready *)
    unfold step in Hstep. destruct (pc s) eqn:Hp; try done.
    destruct o as [id|]; [|done]. destruct Hpc as [-> Hst].
    injection Hstep as <-.
    destruct (ready_fields s) as (Hr' & Hst' & _ & _).
    split; [simpl; by rewrite Hr'|]. simpl. split; [done|].
    unfold starts_with_id. simpl. by rewrite Hst'.
  - (* Select *)
    unfold step in Hstep. destruct (pc s) eqn:Hp; try done.
    destruct o as [id|]; [|done]. destruct Hpc as [-> Hst].
    destruct (ctxDone s || _); [|done].
    injection Hstep as <-. simpl. split; [exact Hgate|]. done.
  - (* Unsubscribe *)
    unfold step in Hstep. destruct (pc s) eqn:Hp; try done.
    destruct o as [id|]; [|done]. destruct Hpc as [-> Hst].
    destruct res as [err|]; injection Hstep as <-.
    + match goal with
      | |- context [return_deferred ?x ?e] =>
          destruct (return_deferred_fields x e) as (Hr' & Hst' & Hpc')
      end.
      split; [by rewrite Hr'|]. rewrite Hpc'.
      unfold starts_with_id. by rewrite Hst'.
    + split; [exact Hgate|]. done.
  - (* Delete *)
    unfold step in Hstep. destruct (pc s) eqn:Hp; try done.
    destruct o as [id|]; [|done]. destruct Hpc as [-> Hst].
    injection Hstep as <-.
    match goal with
      | |- context [return_deferred ?x ?e] =>
          destruct (return_deferred_fields x e) as (Hr' & Hst' & Hpc')
      end.
    split; [by rewrite Hr'|]. rewrite Hpc'.
    unfold starts_with_id. by rewrite Hst'.
  - (* ConsumerCancel *)
    assert (Hs' : s' = cancel_ctx s)
      by (unfold step in Hstep; destruct (pc s); congruence).
    subst s'. split; [exact Hgate|].
    simpl. destruct o; simpl; exact Hpc.
  - (* UnsubscribeRPC *)
    assert (Hs' : s' = with_compStore s
              (snd (UnsubscribeConfiguration (compStore s) req)))
      by (unfold step in Hstep; destruct (pc s); congruence).
    subst s'. split; [exact Hgate|].
    simpl. destruct o; simpl; exact Hpc.
  - (* Callback *)
    assert (Hs' : s' = with_handlers s (handlers s ++ [(e, AtReadyCh)])).
    { unfold step in Hstep. destruct (pc s); congruence. }
    subst s'. split.
    + simpl. intros Hr. apply Forall_app. split; [by apply Hgate|].
      by constructor.
    + simpl. destruct o; simpl; exact Hpc.
  - (* Handler *)
    assert (Hh : updateEventHandler_step s i sendResult = Some s').
    { unfold step in Hstep. destruct (pc s); congruence. }
    destruct (updateEventHandler_step_effect s i sendResult s' Hgate Hh)
      as (Hr & Hr' & Hpc' & added & Hadd).
    split; [by rewrite Hr'|].
    rewrite Hpc'.
    destruct o as [id|]; simpl.
    + destruct (pc s); try done.
      * destruct Hpc as (_ & _ & Hc). congruence.
      * destruct Hpc as [-> Hst]. split; [done|].
        by eapply starts_with_id_app.
      * destruct Hpc as [-> Hst]. split; [done|].
        by eapply starts_with_id_app.
      * destruct Hpc as [-> Hst]. split; [done|].
        by eapply starts_with_id_app.
      * destruct Hpc as [-> Hst]. split; [done|].
        by eapply starts_with_id_app.
      * destruct Hpc as [-> Hst]. split; [done|].
        by eapply starts_with_id_app.
      * by eapply starts_with_id_app.
    + destruct (pc s); try done; destruct Hpc as [_ Hc]; congruence.
Qed.

Lemma stream_inv_exec ls :
  forall o s s',
  stream_inv o s ->
  exec request s ls = Some s' ->
  stream_inv (match o with
              | Some id => Some id
              | None => subscribed ls
              end) s'.
Proof.
  induction ls as [|l ls IH]; intros o s s' Hinv; simpl.
  { intros [= <-]. by destruct o. }
  destruct (step request s l) as [s1|] eqn:Hstep; [|done].
  intros Hexec.
  pose proof (stream_inv_step o s l s1 Hinv Hstep) as Hinv1.
  pose proof (IH _ _ _ Hinv1 Hexec) as Hfinal.
  destruct o as [id|]; [exact Hfinal|].
  simpl in Hfinal.
  destruct l; try exact Hfinal.
  destruct res; exact Hfinal.
Qed.

(** C5: on every run of the stream in which the driver answered the
    subscribe call with an id, the first call of [Send] on the stream, if
    any call was made, is the one of [SubscribeConfiguration] and carries
    that id with no items; every message sent by the update handler comes
    after it; the ready channel is closed only when the id message has
    been handed to [Send]; an invocation of the update handler that is
    past the ready channel implies the channel is closed, and one that
    waits at the channel cannot move while it is open. *)
Theorem SubscribeConfiguration_id_first cs nextChannel ls s id :
  exec request (init cs nextChannel) ls = Some s ->
  subscribed ls = Some id ->
  (stream s = [] \/ starts_with_id id s)
  /\ (forall m res, SentByHandler m res ∈ stream s -> starts_with_id id s)
  /\ (readyClosed s = true -> starts_with_id id s)
  /\ (forall i e hpc,
        handlers s !! i = Some (e, hpc) -> hpc <> AtReadyCh ->
        readyClosed s = true)
  /\ (forall i e sendResult,
        handlers s !! i = Some (e, AtReadyCh) -> readyClosed s = false ->
        step request s (Handler i sendResult) = None).
Proof.
  intros Hexec Hsub.
  assert (Hinit : stream_inv None (init cs nextChannel)).
  { split; simpl; [constructor|done]. }
  pose proof (stream_inv_exec ls None _ s Hinit Hexec) as Hinv.
  simpl in Hinv. rewrite Hsub in Hinv. destruct Hinv as [Hgate Hpc].
  assert (Hhead : stream s = [] \/ starts_with_id id s).
  { destruct (pc s); try done;
      try (right; destruct Hpc as [_ Hst]; exact Hst).
    - left. by destruct Hpc as (_ & ? & _).
    - by right. }
  split; [exact Hhead|]. split.
  { intros m res Hin. destruct Hhead as [Hnil|?]; [|done].
    rewrite Hnil in Hin. by apply elem_of_nil in Hin. }
  split.
  { intros Hr. destruct (pc s); try done;
      try (destruct Hpc as [_ Hst]; exact Hst).
    destruct Hpc as (_ & _ & Hc). congruence. }
  split.
  { intros i e hpc Hh Hne. destruct (readyClosed s) eqn:Hr; [done|].
    specialize (Hgate eq_refl). rewrite Forall_forall in Hgate.
    assert (Hin : (e, hpc) ∈ handlers s)
      by (eapply list_elem_of_lookup; eauto).
    specialize (Hgate _ Hin). simpl in Hgate. done. }
  intros i e sendResult. apply handler_blocked.
Qed.
End IdFirst.

Example update_before_id_is_blocked :
  Subscription.exec StreamRun.request
    (Subscription.init StreamRun.componentStore 0) StreamRun.early = None.
Proof. reflexivity. Qed.

Lemma SubscribeConfiguration_id_first_witness :
  exists s,
    Subscription.exec StreamRun.request
      (Subscription.init StreamRun.componentStore 0) StreamRun.labels = Some s
    /\ subscribed StreamRun.labels = Some "sub-1"
    /\ Subscription.SentByHandler
         (Subscription.updateMessage StreamRun.update) None
       ∈ Subscription.stream s
    /\ starts_with_id "sub-1" s.
Proof.
  eexists. split; [vm_compute; reflexivity|].
  split; [reflexivity|].
  assert (Hin : Subscription.SentByHandler
                  (Subscription.updateMessage StreamRun.update) None
                ∈ Subscription.stream
                    (default (Subscription.init StreamRun.componentStore 0)
                       (Subscription.exec StreamRun.request
                          (Subscription.init StreamRun.componentStore 0)
                          StreamRun.labels))).
  { vm_compute. right. left. }
  split; [exact Hin|].
  eapply (proj1 (proj2 (SubscribeConfiguration_id_first StreamRun.request
                          StreamRun.componentStore 0 StreamRun.labels _
                          "sub-1" ltac:(vm_compute; reflexivity) eq_refl))).
  exact Hin.
Defined.

(** * Further properties *)

(** ** Publishing *)

(** What a successful validation has checked. *)
Lemma validateAndGetPubsubAndTopic_ok pkg a pubsubName topic reqMeta
    thepubsub name t rawPayload :
  validateAndGetPubsubAndTopic pkg a pubsubName topic reqMeta
  = inr (thepubsub, name, t, rawPayload) ->
  name = pubsubName /\ t = topic /\ pubsubName <> "" /\ topic <> ""
  /\ GetPubSub a pubsubName = Some thepubsub
  /\ pubsubAdapter a <> None
  /\ IsRawPayload pkg reqMeta = inr rawPayload.
Proof.
  unfold validateAndGetPubsubAndTopic.
  destruct (pubsubAdapter a); [|done].
  case_decide; [done|].
  destruct (GetPubSub a pubsubName); [|done].
  case_decide; [done|].
  destruct (IsRawPayload pkg reqMeta); [done|].
  intros [= <- <- <- <-]. done.
Qed.

(** [PublishEvent] either fails before it reaches the adapter, making no
    call, or hands exactly one publish to the adapter and records exactly
    one egress metric whose success flag tells whether the adapter
    returned no error.  The publish names the pubsub and the topic of the
    request, both non-empty, and the pubsub is a registered one; the error
    returned is the mapped error of the adapter. *)
Theorem PublishEvent_one_publish_one_metric pkg a publish ctx in_ :
  (exists e, PublishEvent pkg a publish ctx in_ = (Return tt (Some e), []))
  \/ (exists req,
        PublishEvent pkg a publish ctx in_
        = (Return tt (publish_error (pr_PubsubName req) (pr_Topic req)
                        <$> publish req),
           [Call_Publish req;
            PubsubEgressEvent (pr_PubsubName req) (pr_Topic req)
              (bool_decide (publish req = None))])
        /\ pr_PubsubName req = pe_PubsubName in_
        /\ pr_Topic req = pe_Topic in_
        /\ pr_Metadata req = pe_Metadata in_
        /\ pe_PubsubName in_ <> "" /\ pe_Topic in_ <> ""
        /\ is_Some (GetPubSub a (pe_PubsubName in_))
        /\ (IsRawPayload pkg (pe_Metadata in_) = inr true ->
            pr_Data req = default [] (pe_Data in_))).
Proof.
  unfold PublishEvent.
  destruct (validateAndGetPubsubAndTopic pkg a _ _ _)
    as [e|[[[thepubsub name] t] rawPayload]] eqn:Hval; [left; by eexists|].
  apply validateAndGetPubsubAndTopic_ok in Hval
    as (-> & -> & Hn & Ht & Hps & _ & Hraw).
  destruct rawPayload; simpl.
  - right.
    match goal with |- context [Call_Publish ?r] => exists r end.
    split; [reflexivity|]. simpl.
    repeat split; try done; try (by destruct (pe_Data in_)).
  - destruct (NewCloudEvent pkg _ _) as [err|envelope]; [left; by eexists|].
    destruct (json_Marshal pkg _) as [err|data]; [left; by eexists|].
    right.
    match goal with |- context [Call_Publish ?r] => exists r end.
    split; [reflexivity|]. simpl.
    repeat split; try done; try congruence.
Qed.

(** ** What the broker receives in a bulk publish *)

Section BulkDispatch.
Context (pkg : Imports) (a : api).

(** When the loop over the entries completes, it has built one entry for
    each entry of the request, in order, the ids are pairwise distinct, not
    empty and not seen before, and one span was started for each entry
    unless the payload is raw. *)
Lemma bulkPublishEntries_built ctx in_ features pubsubName topic rawPayload
    rest :
  forall i seen spanMap entries t spanMap' entries' t',
  bulkPublishEntries pkg a ctx in_ features pubsubName topic rawPayload
    i rest seen spanMap entries t = (inl (spanMap', entries'), t') ->
  exists new,
    entries' = entries ++ new
    /\ Forall2 (entry_of pkg in_ rawPayload) rest new
    /\ NoDup (map bpe_EntryId rest)
    /\ Forall (fun e => bpe_EntryId e <> "" /\ bpe_EntryId e ∉ seen) rest
    /\ spanMap' = spanMap ++ child_spans rawPayload i (length rest)
    /\ t' = t ++ map StartChildSpan (child_spans rawPayload i (length rest)).
Proof.
  induction rest as [|entry rest IH];
    intros i seen spanMap entries t spanMap' entries' t'; simpl.
  { intros [= <- <- <-]. exists [].
    unfold child_spans. destruct rawPayload; simpl;
      rewrite ?app_nil_r; repeat split; try constructor. }
  case_decide as Hid; [done|].
  assert (Hcons : forall spanMap0 t0 event,
    (rawPayload = true -> event = bpe_Event entry) ->
    bulkPublishEntries pkg a ctx in_ features pubsubName topic rawPayload
      (S i) rest ({[bpe_EntryId entry]} ∪ seen) spanMap0
      (entries ++
       [{| pubsub.EntryId := bpe_EntryId entry; pubsub.Event := event;
           pubsub.ContentType := bpe_ContentType entry;
           pubsub.Metadata :=
             match bpe_Metadata entry with
             | Some m =>
                 Some (PopulateMetadataForBulkPublishEntry pkg
                         (bpr_Metadata in_) m)
             | None => None
             end |}]) t0
    = (inl (spanMap', entries'), t') ->
    exists new,
      entries' = entries ++ new
      /\ Forall2 (entry_of pkg in_ rawPayload) (entry :: rest) new
      /\ NoDup (bpe_EntryId entry :: map bpe_EntryId rest)
      /\ Forall (fun e => bpe_EntryId e <> "" /\ bpe_EntryId e ∉ seen)
                (entry :: rest)
      /\ spanMap' = spanMap0 ++ child_spans rawPayload (S i) (length rest)
      /\ t' = t0 ++ map StartChildSpan
                      (child_spans rawPayload (S i) (length rest))).
  { intros spanMap0 t0 event Hev Hloop.
    apply IH in Hloop as (new & -> & Hnew & Hnd & Hall & -> & ->).
    eexists (_ :: new). rewrite <- app_assoc. split; [reflexivity|].
    split.
    { constructor; [|exact Hnew]. unfold entry_of. simpl.
      repeat split; try done; by destruct (bpe_Metadata entry). }
    split.
    { constructor; [|exact Hnd]. intros Hin.
      apply list_elem_of_fmap in Hin as (e & Heq & Hin).
      destruct (proj1 (Forall_forall _ _) Hall e Hin) as [_ Hnot].
      apply Hnot. rewrite <- Heq. set_solver. }
    split; [|done].
    constructor; [tauto|].
    eapply Forall_impl; [exact Hall|]. intros e [? ?]. split; [done|].
    set_solver. }
  destruct rawPayload.
  { intros Hloop.
    destruct (Hcons spanMap t (bpe_Event entry) ltac:(done) Hloop)
      as (new & ? & ? & ? & ? & ? & ?).
    exists new. repeat split; done. }
  munfold.
  destruct (ChildTraceIDAndState ctx i) as [traceID traceState].
  destruct (NewCloudEvent pkg _ _) as [err|envelope].
  { rewrite closeChildSpans_calls. done. }
  destruct (json_Marshal pkg _) as [err|event].
  { rewrite closeChildSpans_calls. done. }
  intros Hloop.
  destruct (Hcons (spanMap ++ [i]) (t ++ [StartChildSpan i]) event
              ltac:(done) Hloop) as (new & ? & ? & ? & ? & -> & ->).
  exists new. unfold child_spans in *. simpl.
  rewrite <- !app_assoc. repeat split; done.
Qed.

(** The whole of a bulk publish that reaches the broker. *)
Lemma BulkPublishEventAlpha1_reached ctx in_ req :
  Call_BulkPublish req ∈ calls (BulkPublishEventAlpha1 pkg a ctx in_) ->
  exists thepubsub rawPayload adapter,
    validateAndGetPubsubAndTopic pkg a (bpr_PubsubName in_) (bpr_Topic in_)
      (bpr_Metadata in_)
    = inr (thepubsub, bpr_PubsubName in_, bpr_Topic in_, rawPayload)
    /\ pubsubAdapter a = Some adapter
    /\ pubsub.PubsubName req = bpr_PubsubName in_
    /\ pubsub.Topic req = bpr_Topic in_
    /\ pubsub.ReqMetadata req = bpr_Metadata in_
    /\ Forall2 (entry_of pkg in_ rawPayload) (bpr_Entries in_)
               (pubsub.Entries req)
    /\ NoDup (map bpe_EntryId (bpr_Entries in_))
    /\ Forall (fun e => bpe_EntryId e <> "") (bpr_Entries in_)
    /\ let spans := child_spans rawPayload 0 (length (bpr_Entries in_)) in
       let res := fst (BulkPublish adapter req) in
       let err := snd (BulkPublish adapter req) in
       let status :=
         publish_error (bpr_PubsubName in_) (bpr_Topic in_) <$> err in
       BulkPublishEventAlpha1 pkg a ctx in_
       = (Return {| bres_FailedEntries :=
                      match err with
                      | Some _ => []
                      | None => failedEntries res
                      end |} status,
          map StartChildSpan spans
          ++ [Call_BulkPublish req;
              BulkPubsubEgressEvent (bpr_PubsubName in_) (bpr_Topic in_)
                (bool_decide (err = None))
                (Z.of_nat (length (bpr_Entries in_))
                 - Z.of_nat (length (pubsub.FailedEntries res)))]
          ++ map (fun i => EndChildSpan i status) (mapRange pkg spans)).
Proof.
  unfold BulkPublishEventAlpha1, run.
  destruct (validateAndGetPubsubAndTopic pkg a _ _ _)
    as [validationErr|[[[thepubsub pubsubName] topic] rawPayload]] eqn:Hval.
  { simpl. intros Hin. by apply elem_of_nil in Hin. }
  pose proof (validateAndGetPubsubAndTopic_ok _ _ _ _ _ _ _ _ _ Hval)
    as (-> & -> & _ & _ & _ & Had & _).
  munfold.
  destruct (bulkPublishEntries_calls pkg a ctx in_
              (pubsub.Features thepubsub) (bpr_PubsubName in_)
              (bpr_Topic in_) rawPayload (bpr_Entries in_)
              0%nat ∅ [] [] []) as (t2 & Heq & Htr).
  destruct (bulkPublishEntries pkg a ctx in_ _ _ _ _ _ _ _ _ _ _)
    as [[[spanMap entries]|ex] t1] eqn:Hloop; simpl in Heq; subst t1.
  2:{ simpl. intros Hin. rewrite Forall_forall in Htr.
      specialize (Htr _ Hin). discriminate Htr. }
  apply bulkPublishEntries_built in Hloop
    as (new & Hent & Hnew & Hnd & Hall & Hspans & Ht2).
  simpl in Hent, Hspans, Ht2. subst entries spanMap t2.
  destruct (pubsubAdapter a) as [adapter|]; [|done]. clear Had.
  set (req' := {| pubsub.Entries := new;
                  pubsub.PubsubName := bpr_PubsubName in_;
                  pubsub.Topic := bpr_Topic in_;
                  pubsub.ReqMetadata := bpr_Metadata in_ |}).
  assert (Hlen : length new = length (bpr_Entries in_))
    by (symmetry; eapply Forall2_length; eauto).
  assert (Hcount : forall n : nat,
    (if decide (n ≠ 0%nat)
     then Z.of_nat (length new) - Z.of_nat n
     else Z.of_nat (length new))
    = Z.of_nat (length (bpr_Entries in_)) - Z.of_nat n).
  { intros n. rewrite Hlen. case_decide; lia. }
  assert (Hreq : forall evs1 evs2,
    Forall (fun ev => forall r, ev <> Call_BulkPublish r) evs1 ->
    Forall (fun ev => forall r, ev <> Call_BulkPublish r) evs2 ->
    Call_BulkPublish req ∈ evs1 ++ [Call_BulkPublish req'] ++ evs2 ->
    req = req').
  { intros evs1 evs2 H1 H2 Hin. rewrite Forall_forall in H1, H2.
    apply elem_of_app in Hin as [Hin|Hin]; [by destruct (H1 _ Hin req)|].
    apply elem_of_cons in Hin as [Hin|Hin]; [by injection Hin|].
    by destruct (H2 _ Hin req). }
  assert (Hstarts : Forall (fun ev => forall r, ev <> Call_BulkPublish r)
            (map StartChildSpan
               (child_spans rawPayload 0 (length (bpr_Entries in_))))).
  { apply Forall_map, Forall_forall. done. }
  destruct (BulkPublish adapter req') as [res [err|]] eqn:Hpub;
    rewrite closeChildSpans_calls; simpl; rewrite Hcount;
    rewrite <- !app_assoc; simpl; intros Hin;
    (apply Hreq in Hin;
     [|exact Hstarts
      |constructor; [done|]; apply Forall_map, Forall_forall; done]);
    subst req; exists thepubsub, rawPayload, adapter;
    rewrite Hpub; simpl;
    (repeat split; try done;
     eapply Forall_impl; [exact Hall|]; by intros e [? ?]).
Qed.
End BulkDispatch.

(** The broker never receives a batch with an empty or a repeated entry
    id: whenever [BulkPublishEventAlpha1] calls the adapter, the batch names
    the pubsub and the topic of the request, both non-empty, the pubsub is a
    registered one, and the entries of the batch carry, in order, the ids
    and the content types of the entries of the request, the ids being
    pairwise distinct and none of them empty. *)
Theorem BulkPublishEventAlpha1_batch pkg a ctx in_ req :
  Call_BulkPublish req ∈ calls (BulkPublishEventAlpha1 pkg a ctx in_) ->
  pubsub.PubsubName req = bpr_PubsubName in_
  /\ pubsub.Topic req = bpr_Topic in_
  /\ bpr_PubsubName in_ <> "" /\ bpr_Topic in_ <> ""
  /\ is_Some (GetPubSub a (bpr_PubsubName in_))
  /\ map pubsub.EntryId (pubsub.Entries req)
     = map bpe_EntryId (bpr_Entries in_)
  /\ map pubsub.ContentType (pubsub.Entries req)
     = map bpe_ContentType (bpr_Entries in_)
  /\ NoDup (map pubsub.EntryId (pubsub.Entries req))
  /\ "" ∉ map pubsub.EntryId (pubsub.Entries req).
Proof.
  intros Hin.
  destruct (BulkPublishEventAlpha1_reached pkg a ctx in_ req Hin)
    as (thepubsub & rawPayload & adapter & Hval & _ & Hn & Ht & _ & Hent
        & Hnd & Hne & _).
  apply validateAndGetPubsubAndTopic_ok in Hval
    as (_ & _ & Hn0 & Ht0 & Hps & _ & _).
  assert (Hids : map pubsub.EntryId (pubsub.Entries req)
                 = map bpe_EntryId (bpr_Entries in_)).
  { clear -Hent. induction Hent as [|e m es ms (Hid & _) _ IH]; simpl;
      [done|]. by rewrite Hid, IH. }
  assert (Hcts : map pubsub.ContentType (pubsub.Entries req)
                 = map bpe_ContentType (bpr_Entries in_)).
  { clear -Hent. induction Hent as [|e m es ms (_ & Hct & _) _ IH]; simpl;
      [done|]. by rewrite Hct, IH. }
  assert (Hsome : is_Some (GetPubSub a (bpr_PubsubName in_)))
    by (by eexists).
  assert (Hnd' : NoDup (map pubsub.EntryId (pubsub.Entries req)))
    by (by rewrite Hids).
  assert (Hne' : "" ∉ map pubsub.EntryId (pubsub.Entries req)).
  { rewrite Hids. intros Hin0.
    apply list_elem_of_fmap in Hin0 as (e & Heq & Hin0).
    by destruct (proj1 (Forall_forall _ _) Hne e Hin0). }
  split_and!; assumption.
Qed.

Lemma BulkPublishEventAlpha1_batch_witness :
  map pubsub.EntryId (pubsub.Entries PartialFailure.dispatched) = ["a"; "b"]
  /\ NoDup (map pubsub.EntryId (pubsub.Entries PartialFailure.dispatched)).
Proof.
  split; [reflexivity|].
  pose proof (BulkPublishEventAlpha1_batch Demo.pkg
                (Demo.receiver (Some PartialFailure.adapter)
                   (Demo.store None [] None))
                (Demo.ctx None) PartialFailure.request
                PartialFailure.dispatched
                ltac:(vm_compute; right; right; left))
    as (_ & _ & _ & _ & _ & _ & _ & Hnd & _).
  exact Hnd.
Defined.

(** The egress metric of a bulk publish counts the entries of the request
    minus the failed entries the adapter reported, and its success flag
    tells whether the adapter returned no error. *)
Theorem BulkPublishEventAlpha1_events_published pkg a ctx in_ req adapter :
  Call_BulkPublish req ∈ calls (BulkPublishEventAlpha1 pkg a ctx in_) ->
  pubsubAdapter a = Some adapter ->
  BulkPubsubEgressEvent (bpr_PubsubName in_) (bpr_Topic in_)
    (bool_decide (snd (BulkPublish adapter req) = None))
    (Z.of_nat (length (bpr_Entries in_))
     - Z.of_nat (length (pubsub.FailedEntries
                           (fst (BulkPublish adapter req)))))
  ∈ calls (BulkPublishEventAlpha1 pkg a ctx in_).
Proof.
  intros Hin Had.
  destruct (BulkPublishEventAlpha1_reached pkg a ctx in_ req Hin)
    as (thepubsub & rawPayload & adapter' & _ & Had' & _ & _ & _ & _
        & _ & _ & Hout).
  rewrite Had in Had'. injection Had' as <-.
  simpl in Hout. rewrite Hout. simpl.
  apply elem_of_app. right. right. left.
Qed.

Lemma BulkPublishEventAlpha1_events_published_witness :
  BulkPubsubEgressEvent "ps1" "t" false 1
  ∈ calls (BulkPublishEventAlpha1 Demo.pkg
             (Demo.receiver (Some PartialFailure.adapter)
                (Demo.store None [] None))
             (Demo.ctx None) PartialFailure.request).
Proof.
  refine (BulkPublishEventAlpha1_events_published Demo.pkg
            (Demo.receiver (Some PartialFailure.adapter)
               (Demo.store None [] None))
            (Demo.ctx None) PartialFailure.request
            PartialFailure.dispatched PartialFailure.adapter _ eq_refl).
  vm_compute. right. right. left.
Defined.

(** Whenever a bulk publish reaches the broker, every child span that was
    started is ended exactly once, with the status the call returns, after
    the egress metric: the calls are the starts of the spans, the publish,
    the metric and then the ends of the same spans, in the order in which
    the span map is ranged over, whatever that order is.  With a raw
    payload no span is started; otherwise one is started for each entry. *)
Theorem BulkPublishEventAlpha1_spans_ended pkg a ctx in_ req :
  Call_BulkPublish req ∈ calls (BulkPublishEventAlpha1 pkg a ctx in_) ->
  exists rawPayload resp status success count ended,
    IsRawPayload pkg (bpr_Metadata in_) = inr rawPayload
    /\ BulkPublishEventAlpha1 pkg a ctx in_
       = (Return resp status,
          map StartChildSpan
              (child_spans rawPayload 0 (length (bpr_Entries in_)))
          ++ [Call_BulkPublish req;
              BulkPubsubEgressEvent (bpr_PubsubName in_) (bpr_Topic in_)
                success count]
          ++ map (fun i => EndChildSpan i status) ended)
    /\ ended ≡ₚ child_spans rawPayload 0 (length (bpr_Entries in_)).
Proof.
  intros Hin.
  destruct (BulkPublishEventAlpha1_reached pkg a ctx in_ req Hin)
    as (thepubsub & rawPayload & adapter & Hval & _ & _ & _ & _ & _
        & _ & _ & Hout).
  apply validateAndGetPubsubAndTopic_ok in Hval
    as (_ & _ & _ & _ & _ & _ & Hraw).
  simpl in Hout. exists rawPayload. do 4 eexists.
  exists (mapRange pkg
            (child_spans rawPayload 0 (length (bpr_Entries in_)))).
  split; [exact Hraw|]. split; [exact Hout|].
  unfold mapRange. apply merge_sort_Permutation.
Qed.

Lemma BulkPublishEventAlpha1_spans_ended_witness :
  exists resp status success count ended,
    BulkPublishEventAlpha1 Demo.pkg
      (Demo.receiver (Some PartialFailure.adapter)
         (Demo.store None [] None))
      (Demo.ctx None) PartialFailure.request
    = (Return resp status,
       [StartChildSpan 0; StartChildSpan 1;
        Call_BulkPublish PartialFailure.dispatched;
        BulkPubsubEgressEvent "ps1" "t" success count]
       ++ map (fun i => EndChildSpan i status) ended)
    /\ ended ≡ₚ [0; 1]%nat.
Proof.
  destruct (BulkPublishEventAlpha1_spans_ended Demo.pkg
              (Demo.receiver (Some PartialFailure.adapter)
                 (Demo.store None [] None))
              (Demo.ctx None) PartialFailure.request
              PartialFailure.dispatched
              ltac:(vm_compute; right; right; left))
    as (rawPayload & resp & status & success & count & ended & Hraw & Hout
        & Hperm).
  injection Hraw as <-.
  exists resp, status, success, count, ended. by split.
Defined.

(** With the raw-payload flag the envelope builder and the tracer are
    bypassed: the events handed to the broker are the events of the
    request, byte for byte and in order, and the only calls are the publish
    and the metric. *)
Theorem BulkPublishEventAlpha1_raw_payload pkg a ctx in_ req :
  IsRawPayload pkg (bpr_Metadata in_) = inr true ->
  Call_BulkPublish req ∈ calls (BulkPublishEventAlpha1 pkg a ctx in_) ->
  map pubsub.Event (pubsub.Entries req) = map bpe_Event (bpr_Entries in_)
  /\ exists success count,
       calls (BulkPublishEventAlpha1 pkg a ctx in_)
       = [Call_BulkPublish req;
          BulkPubsubEgressEvent (bpr_PubsubName in_) (bpr_Topic in_)
            success count].
Proof.
  intros Hraw Hin.
  destruct (BulkPublishEventAlpha1_reached pkg a ctx in_ req Hin)
    as (thepubsub & rawPayload & adapter & Hval & _ & _ & _ & _ & Hent
        & _ & _ & Hout).
  apply validateAndGetPubsubAndTopic_ok in Hval
    as (_ & _ & _ & _ & _ & _ & Hraw').
  rewrite Hraw in Hraw'. injection Hraw' as <-.
  split.
  - clear -Hent. induction Hent as [|e m es ms (_ & _ & _ & Hev) _ IH];
      simpl; [done|]. by rewrite (Hev eq_refl), IH.
  - simpl in Hout. rewrite Hout. simpl. by eexists _, _.
Qed.

Lemma BulkPublishEventAlpha1_raw_payload_witness :
  map pubsub.Event (pubsub.Entries RawPublish.dispatched)
  = map bpe_Event (bpr_Entries RawPublish.request).
Proof.
  refine (proj1 (BulkPublishEventAlpha1_raw_payload Demo.pkg
                   (Demo.receiver (Some RawPublish.adapter)
                      (Demo.store None [] None))
                   (Demo.ctx None) RawPublish.request
                   RawPublish.dispatched _ _)).
  - reflexivity.
  - vm_compute. left.
Defined.

Lemma bulkPublishEntries_invalid_calls pkg a ctx in_ features pubsubName
    topic rest :
  forall i seen spanMap entries t,
  invalid_entry_ids seen rest ->
  envelopes_built pkg a ctx in_ features pubsubName topic i seen rest ->
  snd (bulkPublishEntries pkg a ctx in_ features pubsubName topic false
         i rest seen spanMap entries t)
  = t ++ map StartChildSpan (seq i (entries_before_invalid seen rest)).
Proof.
  induction rest as [|entry rest IH];
    intros i seen spanMap entries t Hbad Hbuilt.
  { exfalso. destruct Hbad as [(e & Hin & _)|Hdup].
    - by apply elem_of_nil in Hin.
    - apply Hdup. constructor. }
  simpl in *. case_decide as Hid.
  { simpl. by rewrite app_nil_r. }
  pose proof (invalid_entry_ids_tail _ _ _ Hid Hbad) as Hrest.
  destruct Hbuilt as [(envelope & event & Henv & Hev) Hbuilt].
  munfold.
  destruct (ChildTraceIDAndState ctx i) as [traceID traceState].
  simpl in Henv. rewrite Henv, Hev.
  rewrite IH by done. simpl. by rewrite <- app_assoc.
Qed.

(** The spans started before an entry-id violation are not ended: when a
    validated bulk publish without the raw-payload flag holds an empty or
    repeated entry id, and the envelopes of the entries that stand before
    the offending one can be built, the handler returns the entry-id error
    having started one span for each of these entries, and ends none of
    them. *)
Theorem BulkPublishEventAlpha1_invalid_ids_leave_spans_open pkg a ctx in_
    thepubsub pubsubName topic :
  has_invalid_entry_id (bpr_Entries in_) ->
  validateAndGetPubsubAndTopic pkg a (bpr_PubsubName in_) (bpr_Topic in_)
    (bpr_Metadata in_) = inr (thepubsub, pubsubName, topic, false) ->
  envelopes_built pkg a ctx in_ (pubsub.Features thepubsub) pubsubName topic
    0 ∅ (bpr_Entries in_) ->
  BulkPublishEventAlpha1 pkg a ctx in_
  = (Return {| bres_FailedEntries := [] |}
       (Some (PubSubError PS_MarshalEvents pubsubName topic
                (Some (errors_New
                   "entryId is duplicated or not present for entry")))),
     map StartChildSpan
       (seq 0 (entries_before_invalid ∅ (bpr_Entries in_))))
  /\ forall i status,
       EndChildSpan i status ∉ calls (BulkPublishEventAlpha1 pkg a ctx in_).
Proof.
  intros Hbad Hval Henv.
  assert (Hinv : invalid_entry_ids ∅ (bpr_Entries in_)).
  { destruct Hbad as [(e & Hin & Hempty)|Hdup]; [left|by right].
    exists e. split; [done|]. by left. }
  assert (Hrun : BulkPublishEventAlpha1 pkg a ctx in_
    = (Return {| bres_FailedEntries := [] |}
         (Some (PubSubError PS_MarshalEvents pubsubName topic
                  (Some (errors_New
                     "entryId is duplicated or not present for entry")))),
       map StartChildSpan
         (seq 0 (entries_before_invalid ∅ (bpr_Entries in_))))).
  { unfold BulkPublishEventAlpha1, run. rewrite Hval. munfold.
    pose proof (bulkPublishEntries_invalid_calls pkg a ctx in_
                  (pubsub.Features thepubsub) pubsubName topic
                  (bpr_Entries in_) 0%nat ∅ [] [] [] Hinv Henv) as Hsnd.
    destruct (bulkPublishEntries_invalid pkg a ctx in_
                (pubsub.Features thepubsub) pubsubName topic false
                (bpr_Entries in_) 0%nat ∅ [] [] [] Hinv)
      as (e & t2 & Heq & _ & Herr).
    rewrite Heq in Hsnd |- *. simpl in *. subst t2.
    rewrite (proj2 Herr (or_intror Henv)). reflexivity. }
  split; [exact Hrun|].
  intros i status Hin. rewrite Hrun in Hin.
  apply list_elem_of_fmap in Hin as (? & ? & _). done.
Qed.

Lemma BulkPublishEventAlpha1_invalid_ids_leave_spans_open_witness :
  calls (BulkPublishEventAlpha1 Demo.pkg
           (Demo.receiver
              (Some {| BulkPublish := fun _ =>
                         ({| pubsub.FailedEntries := [] |}, None) |})
              (Demo.store None [] None))
           (Demo.ctx None)
           {| bpr_PubsubName := "ps1"; bpr_Topic := "t";
              bpr_Entries := [Demo.entry "a" "1"; Demo.entry "a" "2";
                              Demo.entry "b" "3"];
              bpr_Metadata := ∅ |})
  = [StartChildSpan 0].
Proof.
  refine (f_equal snd
            (proj1 (BulkPublishEventAlpha1_invalid_ids_leave_spans_open
                      Demo.pkg _ (Demo.ctx None) _
                      {| pubsub.Features := [] |} "ps1" "t" _ _ _))).
  - right. intros Hnd. apply NoDup_cons in Hnd as [Hnin _].
    apply Hnin. left.
  - reflexivity.
  - apply envelopes_succeed_built, envelopes_succeed_demo.
Defined.

(** ** The output binding *)

Lemma setHeaders_calls {R} kvs t :
  setHeaders (R:=R) kvs t
  = (inl tt,
     t ++ map (fun kv => grpc_SetHeader (metadataPrefix +:+ kv.1) kv.2) kvs).
Proof.
  revert t. induction kvs as [|[k v] kvs IH]; intros t; simpl.
  - by rewrite app_nil_r.
  - munfold. rewrite IH. by rewrite <- app_assoc.
Qed.

Lemma invokeBindingIncoming_kept {R} pkg kvs :
  forall md t,
  (exists md',
     invokeBindingIncoming (R:=R) pkg kvs md t = (inl md', t)
     /\ (forall k, is_Some (md !! k) -> is_Some (md' !! k))
     /\ (forall k v, md !! k = Some v ->
           k <> ReservedGRPCMetadataToDaprPrefixHeader pkg TraceparentHeader ->
           k <> ReservedGRPCMetadataToDaprPrefixHeader pkg TracestateHeader ->
           md' !! k = Some v))
  \/ invokeBindingIncoming (R:=R) pkg kvs md t = (inr Panic, t).
Proof.
  induction kvs as [|[key val] kvs IH]; intros md t; simpl.
  { left. exists md. done. }
  destruct (decide _) as [Hw|Hw].
  - destruct val as [|v0 val]; [by right|].
    destruct (IH (<[ReservedGRPCMetadataToDaprPrefixHeader pkg key := v0]> md)
                 t) as [(md' & -> & Hdom & Hval)| ->]; [left|by right].
    exists md'. split; [done|]. split.
    + intros k Hk. apply Hdom.
      destruct (decide (k = ReservedGRPCMetadataToDaprPrefixHeader pkg key))
        as [->|Hne].
      * rewrite lookup_insert_eq. by eexists.
      * by rewrite lookup_insert_ne.
    + intros k v Hk Htp Hts. apply Hval; [|done|done].
      destruct (decide (k = ReservedGRPCMetadataToDaprPrefixHeader pkg key))
        as [->|Hne].
      * destruct Hw as [Hnone|[Hw|Hw]]; [congruence|by subst|by subst].
      * by rewrite lookup_insert_ne.
  - apply IH.
Qed.

Lemma InvokeBinding_reached pkg a ctx in_ ctx' name req :
  Call_sendToOutputBindingFn ctx' name req
  ∈ calls (InvokeBinding pkg a ctx in_) ->
  name = ibr_Name in_
  /\ bindings.Operation req = ibr_Operation in_
  /\ bindings.Data req = ibr_Data in_
  /\ (ctx' = ctx
      /\ (forall incomingMD, FromIncomingContext ctx = Some incomingMD ->
            default [] (incomingMD !! BaggageHeader) = [])
      \/ exists incomingMD values,
           FromIncomingContext ctx = Some incomingMD
           /\ incomingMD !! BaggageHeader = Some values
           /\ values <> []
           /\ otelbaggage_Parse pkg (strings_Join values ",") = None
           /\ ctx' = ContextWithBaggage ctx (strings_Join values ","))
  /\ (forall k, is_Some (ibr_Metadata in_ !! k) ->
        is_Some (bindings.Metadata req !! k))
  /\ (SpanNonNil ctx = true ->
        is_Some (bindings.Metadata req !! TraceparentHeader))
  /\ (forall k v, ibr_Metadata in_ !! k = Some v ->
        k <> BaggageHeader ->
        k <> ReservedGRPCMetadataToDaprPrefixHeader pkg TraceparentHeader ->
        k <> ReservedGRPCMetadataToDaprPrefixHeader pkg TracestateHeader ->
        bindings.Metadata req !! k = Some v)
  /\ (forall incomingMD values,
        FromIncomingContext ctx = Some incomingMD ->
        incomingMD !! BaggageHeader = Some values -> values <> [] ->
        BaggageHeader
        <> ReservedGRPCMetadataToDaprPrefixHeader pkg TraceparentHeader ->
        BaggageHeader
        <> ReservedGRPCMetadataToDaprPrefixHeader pkg TracestateHeader ->
        bindings.Metadata req !! BaggageHeader = Some (strings_Join values ","))
  /\ InvokeBinding pkg a ctx in_
     = (binding_exit (ibr_Name in_)
          (fst (sendToOutputBindingFn a ctx' name req))
          (snd (sendToOutputBindingFn a ctx' name req)),
        [Call_sendToOutputBindingFn ctx' name req;
         OutputBindingEvent (ibr_Name in_) (ibr_Operation in_)
           (bool_decide (snd (sendToOutputBindingFn a ctx' name req) = None))]
        ++ binding_headers (fst (sendToOutputBindingFn a ctx' name req))).
Proof.
  unfold InvokeBinding, run.
  match goal with
  | |- context [if SpanNonNil ctx then ?x else ?y] =>
      set (md0 := if SpanNonNil ctx then x else y)
  end.
  assert (Hmd0 : (forall k v, ibr_Metadata in_ !! k = Some v ->
                              md0 !! k = Some v)
                 /\ (SpanNonNil ctx = true ->
                     is_Some (md0 !! TraceparentHeader))).
  { subst md0. destruct (SpanNonNil ctx); [|by split].
    set (m := match ibr_Metadata in_ !! TraceparentHeader with
              | Some _ => ibr_Metadata in_
              | None => <[TraceparentHeader := SpanContextToW3CString ctx]>
                          (ibr_Metadata in_)
              end).
    assert (Hm : (forall k v, ibr_Metadata in_ !! k = Some v ->
                              m !! k = Some v)
                 /\ is_Some (m !! TraceparentHeader)).
    { subst m. destruct (ibr_Metadata in_ !! TraceparentHeader) as [tp|]
        eqn:Htp.
      - split; [done|]. rewrite Htp. by eexists.
      - split.
        + intros k v Hk. rewrite lookup_insert_ne; [done|]. congruence.
        + rewrite lookup_insert_eq. by eexists. }
    destruct Hm as [Hm1 Hm2].
    destruct (m !! TracestateHeader) as [ts|] eqn:Hts; [by split|].
    destruct (TraceStateToW3CString ctx) as [ts|]; [|by split].
    split.
    - intros k v Hk. rewrite lookup_insert_ne; [by apply Hm1|].
      intros <-. apply Hm1 in Hk. congruence.
    - intros _. rewrite lookup_insert_ne; [done|]. done. }
  clearbody md0. destruct Hmd0 as [Hkeep0 Htp0].
  assert (Htail : forall c md,
    (c = ctx
     /\ (forall incomingMD, FromIncomingContext ctx = Some incomingMD ->
           default [] (incomingMD !! BaggageHeader) = [])
     \/ exists incomingMD values,
          FromIncomingContext ctx = Some incomingMD
          /\ incomingMD !! BaggageHeader = Some values
          /\ values <> []
          /\ otelbaggage_Parse pkg (strings_Join values ",") = None
          /\ c = ContextWithBaggage ctx (strings_Join values ",")) ->
    (forall k, is_Some (ibr_Metadata in_ !! k) -> is_Some (md !! k)) ->
    (SpanNonNil ctx = true -> is_Some (md !! TraceparentHeader)) ->
    (forall k v, ibr_Metadata in_ !! k = Some v ->
        k <> BaggageHeader ->
        k <> ReservedGRPCMetadataToDaprPrefixHeader pkg TraceparentHeader ->
        k <> ReservedGRPCMetadataToDaprPrefixHeader pkg TracestateHeader ->
        md !! k = Some v) ->
    (forall incomingMD values,
        FromIncomingContext ctx = Some incomingMD ->
        incomingMD !! BaggageHeader = Some values -> values <> [] ->
        BaggageHeader
        <> ReservedGRPCMetadataToDaprPrefixHeader pkg TraceparentHeader ->
        BaggageHeader
        <> ReservedGRPCMetadataToDaprPrefixHeader pkg TracestateHeader ->
        md !! BaggageHeader = Some (strings_Join values ",")) ->
    forall o,
    Call_sendToOutputBindingFn ctx' name req ∈ calls o ->
    o = (binding_exit (ibr_Name in_)
           (fst (sendToOutputBindingFn a c (ibr_Name in_)
                   {| bindings.Metadata := md;
                      bindings.Operation := ibr_Operation in_;
                      bindings.Data := ibr_Data in_ |}))
           (snd (sendToOutputBindingFn a c (ibr_Name in_)
                   {| bindings.Metadata := md;
                      bindings.Operation := ibr_Operation in_;
                      bindings.Data := ibr_Data in_ |})),
         [Call_sendToOutputBindingFn c (ibr_Name in_)
            {| bindings.Metadata := md;
               bindings.Operation := ibr_Operation in_;
               bindings.Data := ibr_Data in_ |};
          OutputBindingEvent (ibr_Name in_) (ibr_Operation in_)
            (bool_decide
               (snd (sendToOutputBindingFn a c (ibr_Name in_)
                       {| bindings.Metadata := md;
                          bindings.Operation := ibr_Operation in_;
                          bindings.Data := ibr_Data in_ |}) = None))]
         ++ binding_headers
              (fst (sendToOutputBindingFn a c (ibr_Name in_)
                      {| bindings.Metadata := md;
                         bindings.Operation := ibr_Operation in_;
                         bindings.Data := ibr_Data in_ |}))) ->
    name = ibr_Name in_
    /\ bindings.Operation req = ibr_Operation in_
    /\ bindings.Data req = ibr_Data in_
    /\ (ctx' = ctx
        /\ (forall incomingMD, FromIncomingContext ctx = Some incomingMD ->
              default [] (incomingMD !! BaggageHeader) = [])
        \/ exists incomingMD values,
             FromIncomingContext ctx = Some incomingMD
             /\ incomingMD !! BaggageHeader = Some values
             /\ values <> []
             /\ otelbaggage_Parse pkg (strings_Join values ",") = None
             /\ ctx' = ContextWithBaggage ctx (strings_Join values ","))
    /\ (forall k, is_Some (ibr_Metadata in_ !! k) ->
          is_Some (bindings.Metadata req !! k))
    /\ (SpanNonNil ctx = true ->
          is_Some (bindings.Metadata req !! TraceparentHeader))
    /\ (forall k v, ibr_Metadata in_ !! k = Some v ->
          k <> BaggageHeader ->
          k <> ReservedGRPCMetadataToDaprPrefixHeader pkg TraceparentHeader ->
          k <> ReservedGRPCMetadataToDaprPrefixHeader pkg TracestateHeader ->
          bindings.Metadata req !! k = Some v)
    /\ (forall incomingMD values,
        FromIncomingContext ctx = Some incomingMD ->
        incomingMD !! BaggageHeader = Some values -> values <> [] ->
        BaggageHeader
        <> ReservedGRPCMetadataToDaprPrefixHeader pkg TraceparentHeader ->
        BaggageHeader
        <> ReservedGRPCMetadataToDaprPrefixHeader pkg TracestateHeader ->
        bindings.Metadata req !! BaggageHeader = Some (strings_Join values ","))
    /\ o = (binding_exit (ibr_Name in_)
              (fst (sendToOutputBindingFn a ctx' name req))
              (snd (sendToOutputBindingFn a ctx' name req)),
            [Call_sendToOutputBindingFn ctx' name req;
             OutputBindingEvent (ibr_Name in_) (ibr_Operation in_)
               (bool_decide
                  (snd (sendToOutputBindingFn a ctx' name req) = None))]
            ++ binding_headers
                 (fst (sendToOutputBindingFn a ctx' name req)))).
  { intros c md Hc Hdom Htp Hkeep Hbagmd o Hin ->. unfold calls in Hin.
    simpl in Hin.
    apply elem_of_cons in Hin as [Heq|Hin].
    - injection Heq as -> -> ->. simpl. split_and!; try done.
    - exfalso. apply elem_of_cons in Hin as [Heq|Hin]; [done|].
      unfold binding_headers in Hin.
      destruct (sendToOutputBindingFn a c _ _).1; simpl in Hin.
      + apply list_elem_of_fmap in Hin as (? & ? & _). done.
      + by apply elem_of_nil in Hin. }
  munfold.
  destruct (FromIncomingContext ctx) as [incomingMD|] eqn:Hinc.
  - unfold invokeBindingBaggage.
    destruct (decide _) as [Hlen|Hlen].
    + destruct (otelbaggage_Parse pkg _) as [perr|] eqn:Hparse.
      { simpl. intros Hin. by apply elem_of_nil in Hin. }
      munfold. simpl.
      destruct (invokeBindingIncoming_kept (R:=option InvokeBindingResponse)
                  pkg (map_to_list incomingMD)
                  (<[BaggageHeader :=
                       strings_Join (default [] (incomingMD !! BaggageHeader))
                         ","]> md0) [])
        as [(md' & -> & Hdom & Hval)| ->].
      2:{ simpl. intros Hin. by apply elem_of_nil in Hin. }
      simpl.
      destruct (incomingMD !! BaggageHeader) as [values|] eqn:Hbag;
        [|simpl in Hlen; lia].
      simpl in *.
      intros Hin. eapply (Htail _ md'); [| | | | |exact Hin|].
      * right. exists incomingMD, values. split_and!; try done.
        intros ->. simpl in Hlen. lia.
      * intros k [v Hk]. apply Hdom.
        destruct (decide (k = BaggageHeader)) as [->|Hne].
        -- rewrite lookup_insert_eq. by eexists.
        -- rewrite lookup_insert_ne by done. eexists. by apply Hkeep0.
      * intros Hspan. apply Hdom. rewrite lookup_insert_ne by done.
        by apply Htp0.
      * intros k v Hk Hb Htp Hts. apply Hval; [|done|done].
        rewrite lookup_insert_ne by done. by apply Hkeep0.
      * intros ? values' [= <-] Hbag' _ Hbtp Hbts.
        rewrite Hbag in Hbag'. injection Hbag' as <-.
        apply Hval; [|done|done]. by rewrite lookup_insert_eq.
      * match goal with
        | |- context [sendToOutputBindingFn a ?c ?n ?r] =>
            destruct (sendToOutputBindingFn a c n r) as [[resp|] [err|]]
        end; cbv beta iota; rewrite ?setHeaders_calls; reflexivity.
    + munfold. simpl.
      destruct (invokeBindingIncoming_kept (R:=option InvokeBindingResponse)
                  pkg (map_to_list incomingMD) md0 [])
        as [(md' & -> & Hdom & Hval)| ->].
      2:{ simpl. intros Hin. by apply elem_of_nil in Hin. }
      simpl.
      intros Hin. eapply (Htail ctx md'); [| | | | |exact Hin|].
      * left. split; [done|]. intros ? [= <-].
        destruct (default [] (incomingMD !! BaggageHeader)); [done|].
        simpl in Hlen. lia.
      * intros k [v Hk]. apply Hdom. eexists. by apply Hkeep0.
      * intros Hspan. apply Hdom. by apply Htp0.
      * intros k v Hk Hb Htp Hts. apply Hval; [|done|done].
        by apply Hkeep0.
      * intros ? values' [= <-] Hbag' Hne _ _. exfalso.
        rewrite Hbag' in Hlen. simpl in Hlen.
        destruct values'; [done|]. simpl in Hlen. lia.
      * match goal with
        | |- context [sendToOutputBindingFn a ?c ?n ?r] =>
            destruct (sendToOutputBindingFn a c n r) as [[resp|] [err|]]
        end; cbv beta iota; rewrite ?setHeaders_calls; reflexivity.
  - simpl.
    intros Hin. eapply (Htail ctx md0); [| | | | |exact Hin|].
    + left. split; [done|]. by intros ? ?.
    + intros k [v Hk]. eexists. by apply Hkeep0.
    + done.
    + intros k v Hk _ _ _. by apply Hkeep0.
    + by intros ? ? ?.
    + match goal with
        | |- context [sendToOutputBindingFn a ?c ?n ?r] =>
            destruct (sendToOutputBindingFn a c n r) as [[resp|] [err|]]
        end; cbv beta iota; rewrite ?setHeaders_calls; reflexivity.
Qed.

(** What the caller put into the metadata of an [InvokeBinding] request
    reaches the binding unchanged, whatever the incoming gRPC metadata hold:
    a key of the request other than [baggage] and the (sanitized)
    [traceparent] and [tracestate] keeps its value, and the binding is
    called under the name, with the operation and the data of the
    request. *)
Theorem InvokeBinding_caller_metadata_kept pkg a ctx in_ ctx' name req k v :
  Call_sendToOutputBindingFn ctx' name req
  ∈ calls (InvokeBinding pkg a ctx in_) ->
  ibr_Metadata in_ !! k = Some v ->
  k <> BaggageHeader ->
  k <> ReservedGRPCMetadataToDaprPrefixHeader pkg TraceparentHeader ->
  k <> ReservedGRPCMetadataToDaprPrefixHeader pkg TracestateHeader ->
  name = ibr_Name in_
  /\ bindings.Operation req = ibr_Operation in_
  /\ bindings.Data req = ibr_Data in_
  /\ bindings.Metadata req !! k = Some v.
Proof.
  intros Hin Hk Hb Htp Hts.
  destruct (InvokeBinding_reached pkg a ctx in_ ctx' name req Hin)
    as (Hname & Hop & Hdata & _ & _ & _ & Hkeep & _).
  split_and!; try done. by apply Hkeep.
Qed.

Lemma InvokeBinding_caller_metadata_kept_witness :
  bindings.Metadata BindingRun.dispatched !! "x-id" = Some "caller".
Proof.
  refine (proj2 (proj2 (proj2
    (InvokeBinding_caller_metadata_kept Demo.pkg BindingRun.receiver
       (Demo.ctx (Some BindingRun.incoming)) BindingRun.request
       BindingRun.context "out" BindingRun.dispatched "x-id" "caller"
       _ _ _ _ _)))).
  - vm_compute. left.
  - reflexivity.
  - done.
  - done.
  - done.
Defined.

(** No key of the request is dropped on the way to the binding, and under
    a span the binding always receives a [traceparent]. *)
Theorem InvokeBinding_traceparent pkg a ctx in_ ctx' name req :
  Call_sendToOutputBindingFn ctx' name req
  ∈ calls (InvokeBinding pkg a ctx in_) ->
  SpanNonNil ctx = true ->
  is_Some (bindings.Metadata req !! TraceparentHeader)
  /\ forall k, is_Some (ibr_Metadata in_ !! k) ->
               is_Some (bindings.Metadata req !! k).
Proof.
  intros Hin Hspan.
  destruct (InvokeBinding_reached pkg a ctx in_ ctx' name req Hin)
    as (_ & _ & _ & _ & Hdom & Htp & _).
  split; [by apply Htp|exact Hdom].
Qed.

Lemma InvokeBinding_traceparent_witness :
  is_Some (bindings.Metadata BindingRun.dispatched !! TraceparentHeader).
Proof.
  refine (proj1
    (InvokeBinding_traceparent Demo.pkg BindingRun.receiver
       (Demo.ctx (Some BindingRun.incoming)) BindingRun.request
       BindingRun.context "out" BindingRun.dispatched _ _)).
  - vm_compute. left.
  - reflexivity.
Defined.

(** Incoming baggage that parses is forwarded twice: the binding is called
    with a context that carries the joined baggage values, and, the
    sanitized trace keys being other keys, with the joined values under
    [baggage] in the metadata, in place of what the request had there. *)
Theorem InvokeBinding_baggage_forwarded pkg a ctx in_ incomingMD values
    ctx' name req :
  FromIncomingContext ctx = Some incomingMD ->
  incomingMD !! BaggageHeader = Some values ->
  values <> [] ->
  Call_sendToOutputBindingFn ctx' name req
  ∈ calls (InvokeBinding pkg a ctx in_) ->
  ctx' = ContextWithBaggage ctx (strings_Join values ",")
  /\ (BaggageHeader
      <> ReservedGRPCMetadataToDaprPrefixHeader pkg TraceparentHeader ->
      BaggageHeader
      <> ReservedGRPCMetadataToDaprPrefixHeader pkg TracestateHeader ->
      bindings.Metadata req !! BaggageHeader
      = Some (strings_Join values ",")).
Proof.
  intros Hinc Hbag Hne Hin.
  destruct (InvokeBinding_reached pkg a ctx in_ ctx' name req Hin)
    as (_ & _ & _ & Hctx & _ & _ & _ & Hmd & _).
  split.
  - destruct Hctx as [[_ Hnone]|(md & vs & Hinc' & Hbag' & _ & _ & ->)].
    + specialize (Hnone _ Hinc). rewrite Hbag in Hnone. done.
    + rewrite Hinc in Hinc'. injection Hinc' as <-.
      rewrite Hbag in Hbag'. by injection Hbag' as <-.
  - intros Htp Hts. by eapply Hmd.
Qed.

Lemma InvokeBinding_baggage_forwarded_witness :
  BindingRun.context
  = ContextWithBaggage (Demo.ctx (Some BindingRun.incoming)) "user=alice"
  /\ bindings.Metadata BindingRun.dispatched !! BaggageHeader
     = Some "user=alice".
Proof.
  destruct (InvokeBinding_baggage_forwarded Demo.pkg BindingRun.receiver
              (Demo.ctx (Some BindingRun.incoming)) BindingRun.request
              BindingRun.incoming ["user=alice"]
              BindingRun.context "out" BindingRun.dispatched
              eq_refl ltac:(reflexivity) ltac:(done)
              ltac:(vm_compute; left)) as [Hctx Hmd].
  split; [exact Hctx|]. apply Hmd; done.
Defined.

(** A binding that answers and fails: the headers of its answer are still
    set, after the metric, but the data and the metadata of the answer are
    left out of the response, which is returned empty, not nil, with an
    [Internal] error that names the binding and quotes the failure. *)
Theorem InvokeBinding_failed_binding pkg a ctx in_ ctx' name req resp err :
  Call_sendToOutputBindingFn ctx' name req
  ∈ calls (InvokeBinding pkg a ctx in_) ->
  sendToOutputBindingFn a ctx' name req = (resp, Some err) ->
  InvokeBinding pkg a ctx in_
  = (Return (Some {| ibres_Data := []; ibres_Metadata := ∅ |})
       (Some (Basic codes.Internal 500 BindingInvokeOutputBinding
                (Sprintf ErrInvokeOutputBinding
                   [ibr_Name in_; Error err]))),
     [Call_sendToOutputBindingFn ctx' name req;
      OutputBindingEvent (ibr_Name in_) (ibr_Operation in_) false]
     ++ binding_headers resp).
Proof.
  intros Hin Hsend.
  destruct (InvokeBinding_reached pkg a ctx in_ ctx' name req Hin)
    as (_ & _ & _ & _ & _ & _ & _ & _ & Hout).
  rewrite Hsend in Hout. exact Hout.
Qed.

Lemma InvokeBinding_failed_binding_witness :
  calls (InvokeBinding Demo.pkg BindingRun.receiver
           (Demo.ctx (Some BindingRun.incoming)) BindingRun.request)
  = [Call_sendToOutputBindingFn BindingRun.context "out"
       BindingRun.dispatched;
     OutputBindingEvent "out" "create" false;
     grpc_SetHeader "metadata.status" "503"].
Proof.
  rewrite (InvokeBinding_failed_binding Demo.pkg BindingRun.receiver
             (Demo.ctx (Some BindingRun.incoming)) BindingRun.request
             BindingRun.context "out" BindingRun.dispatched
             (Some BindingRun.answer) BindingRun.failure
             ltac:(vm_compute; left) eq_refl).
  reflexivity.
Defined.

(** Once the binding has been called, [InvokeBinding] calls nothing else
    but the metric and the header setter, returns a response that is not
    nil, and the success flag of its metric is set exactly when it returns
    no error. *)
Theorem InvokeBinding_metric_agrees pkg a ctx in_ ctx' name req :
  Call_sendToOutputBindingFn ctx' name req
  ∈ calls (InvokeBinding pkg a ctx in_) ->
  exists r e success,
    InvokeBinding pkg a ctx in_
    = (Return (Some r) e,
       [Call_sendToOutputBindingFn ctx' name req;
        OutputBindingEvent (ibr_Name in_) (ibr_Operation in_) success]
       ++ binding_headers (fst (sendToOutputBindingFn a ctx' name req)))
    /\ (success = true <-> e = None).
Proof.
  intros Hin.
  destruct (InvokeBinding_reached pkg a ctx in_ ctx' name req Hin)
    as (_ & _ & _ & _ & _ & _ & _ & _ & Hout).
  rewrite Hout.
  destruct (sendToOutputBindingFn a ctx' name req) as [[resp|] [err|]];
    simpl; eexists _, _, _; (split; [reflexivity|]); by split.
Qed.

Lemma InvokeBinding_metric_agrees_witness :
  exists r e success,
    InvokeBinding Demo.pkg BindingRun.receiver
      (Demo.ctx (Some BindingRun.incoming)) BindingRun.request
    = (Return (Some r) e,
       [Call_sendToOutputBindingFn BindingRun.context "out"
          BindingRun.dispatched;
        OutputBindingEvent "out" "create" success]
       ++ binding_headers (Some BindingRun.answer))
    /\ (success = true <-> e = None).
Proof.
  exact (InvokeBinding_metric_agrees Demo.pkg BindingRun.receiver
           (Demo.ctx (Some BindingRun.incoming)) BindingRun.request
           BindingRun.context "out" BindingRun.dispatched
           ltac:(vm_compute; left)).
Defined.

(** ** The state handlers *)

Lemma quiet_strict_exit {R A} (m : M R A) ex :
  quiet m -> strict m -> fst (m []) = inr ex ->
  exists r e, m [] = (inr (Return r (Some e)), []).
Proof.
  intros Hq Hs Hex. destruct (Hs [] ex Hex) as (r & e & ->).
  exists r, e. rewrite (Hq []). by rewrite Hex.
Qed.

Section StateLoops.
Context (pkg : Imports) (a : api).

Lemma saveStateReqs_strict storeName states :
  strict (saveStateReqs pkg a storeName states).
Proof. induction states; simpl; repeat strict_step; done. Qed.

Lemma deleteBulkStateReqs_strict storeName states :
  strict (deleteBulkStateReqs pkg a storeName states).
Proof. induction states; simpl; repeat strict_step; done. Qed.

Lemma getBulkStateReqs_strict in_ keys :
  strict (getBulkStateReqs pkg a in_ keys).
Proof. induction keys; simpl; repeat strict_step; done. Qed.

Lemma encryptOperations_strict storeName ops :
  strict (encryptOperations pkg storeName ops).
Proof. induction ops; simpl; repeat strict_step; done. Qed.

(** The loop of [SaveState] fails on a list that holds an empty key. *)
Lemma saveStateReqs_empty_key storeName states t :
  Exists (fun s => si_Key s = "") states ->
  exists ex, fst (saveStateReqs pkg a storeName states t) = inr ex.
Proof.
  induction 1 as [s states Hempty|s states _ [ex IH]]; simpl.
  - rewrite Hempty. simpl. by eexists.
  - case_decide; [by eexists|].
    destruct (GetModifiedStateKey pkg _ _ _) as [e|key]; [by eexists|].
    munfold.
    assert (Hrest : forall t',
              exists ex', fst (saveStateReqs pkg a storeName states t')
                          = inr ex').
    { intros t'. rewrite (saveStateReqs_quiet pkg a storeName states t').
      rewrite (saveStateReqs_quiet pkg a storeName states t) in IH.
      simpl in *. by eexists. }
    case_decide;
      [destruct (json_Unmarshal pkg (si_Value s)); [by eexists|]|];
      (destruct (EncryptedStateStore pkg storeName);
       [destruct (TryEncryptValue pkg storeName (si_Value s));
          [by eexists|]|]);
      destruct (Hrest t) as [ex' Hex'];
      destruct (saveStateReqs pkg a storeName states t) as [[x|e] t'];
      simpl in *; try done; by eexists.
Qed.

(** What the loop of [SaveState] builds: one request for each item, in
    order, under the rewritten key and with the etag, the metadata and the
    options of the item. *)
Lemma saveStateReqs_built storeName states t reqs :
  fst (saveStateReqs pkg a storeName states t) = inl reqs ->
  Forall2 (fun s r =>
             si_Key s <> ""
             /\ GetModifiedStateKey pkg (si_Key s) storeName (AppID a)
                = inr (state.SetKey r)
             /\ state.SetETag r = si_Etag s
             /\ state.SetMetadata r = si_Metadata s
             /\ state.SetOptions r = setStateOption pkg (si_Options s)
             /\ (EncryptedStateStore pkg storeName = false ->
                 state.SetValue r
                 = if decide (si_Metadata s !! contribMetadata_ContentType
                              = Some JSONContentType)
                   then VJSON (si_Value s) else VBytes (si_Value s)))
          states reqs.
Proof.
  revert t reqs.
  induction states as [|s states IH]; intros t reqs; simpl.
  { intros [= <-]. constructor. }
  case_decide as Hlen; [done|].
  assert (Hkey0 : si_Key s <> "").
  { intros Heq. apply Hlen. by rewrite Heq. }
  destruct (GetModifiedStateKey pkg _ _ _) as [e|key] eqn:Hkey; [done|].
  munfold.
  case_decide as Hct;
    [destruct (json_Unmarshal pkg (si_Value s)); [done|]|];
    (destruct (EncryptedStateStore pkg storeName) eqn:Henc;
     [destruct (TryEncryptValue pkg storeName (si_Value s)) as [e|cipher];
        [done|]|]);
    specialize (IH t);
    destruct (saveStateReqs pkg a storeName states t) as [[x|e] t'];
    simpl in *; try done;
    intros [= <-]; (constructor; [|by apply IH]); simpl;
    split_and!; try done; intros _; by case_decide.
Qed.
End StateLoops.

(** [SaveState] writes a batch as a whole or not at all: when one of the
    items has an empty key, the handler returns an error and neither the
    store nor the metrics are called, wherever the item stands in the
    list. *)
Theorem SaveState_empty_key_rejected pkg a ctx in_ store :
  GetStateStore a (ssr_StoreName in_) = inr store ->
  Exists (fun s => si_Key s = "") (ssr_States in_) ->
  exists e, SaveState pkg a ctx in_ = (Return tt (Some e), []).
Proof.
  intros Hstore Hempty.
  destruct (saveStateReqs_empty_key pkg a (ssr_StoreName in_)
              (ssr_States in_) [] Hempty) as [ex Hex].
  destruct (quiet_strict_exit _ ex
              (saveStateReqs_quiet pkg a _ _)
              (saveStateReqs_strict pkg a _ _) Hex) as ([] & e & Hrun).
  exists e. unfold SaveState, run. rewrite Hstore.
  case_decide as Hlen.
  { destruct (ssr_States in_); [by apply Exists_nil in Hempty|done]. }
  munfold. by rewrite Hrun.
Qed.

Lemma SaveState_empty_key_rejected_witness :
  exists e,
    SaveState Demo.pkg (Demo.receiver None (Demo.store None [] None))
      (Demo.ctx None)
      {| ssr_StoreName := "store1";
         ssr_States := [Demo.item "k1" "v1"; Demo.item "" "v2"] |}
    = (Return tt (Some e), []).
Proof.
  apply (SaveState_empty_key_rejected Demo.pkg _ _ _
           (Demo.store None [] None)).
  - reflexivity.
  - apply Exists_cons_tl, Exists_cons_hd. reflexivity.
Defined.

(** The batch [SaveState] hands to the store holds one request for each
    item of the call, in the order of the call: under the rewritten key,
    which is the rewriting of a non-empty key, with the etag, the metadata
    and the options of the item, and, on a store that is not encrypted,
    with the value of the item unchanged. *)
Theorem SaveState_batch pkg a ctx in_ name reqs :
  Call_PerformBulkStoreOperation_Set name reqs
  ∈ calls (SaveState pkg a ctx in_) ->
  name = ssr_StoreName in_
  /\ Forall2 (fun s r =>
                si_Key s <> ""
                /\ GetModifiedStateKey pkg (si_Key s) (ssr_StoreName in_)
                     (AppID a) = inr (state.SetKey r)
                /\ state.SetETag r = si_Etag s
                /\ state.SetMetadata r = si_Metadata s
                /\ state.SetOptions r = setStateOption pkg (si_Options s)
                /\ (EncryptedStateStore pkg (ssr_StoreName in_) = false ->
                    state.SetValue r
                    = if decide (si_Metadata s !! contribMetadata_ContentType
                                 = Some JSONContentType)
                      then VJSON (si_Value s) else VBytes (si_Value s)))
             (ssr_States in_) reqs.
Proof.
  intros Hin.
  destruct (GetStateStore a (ssr_StoreName in_)) as [e|store] eqn:Hstore.
  { unfold SaveState, run in Hin. rewrite Hstore in Hin.
    by apply elem_of_nil in Hin. }
  destruct (decide (ssr_States in_ = [])) as [Hnil|Hne].
  { rewrite (SaveState_empty pkg a ctx in_ store Hstore Hnil) in Hin.
    by apply elem_of_nil in Hin. }
  destruct (fst (saveStateReqs pkg a (ssr_StoreName in_) (ssr_States in_)
                   [])) as [reqs'|ex] eqn:Hloop.
  - rewrite (SaveState_dispatched pkg a ctx in_ store reqs' Hstore Hne
               Hloop) in Hin.
    unfold calls in Hin. simpl in Hin.
    apply elem_of_cons in Hin as [Heq|Hin].
    + injection Heq as -> ->. split; [done|].
      by eapply saveStateReqs_built.
    + apply elem_of_cons in Hin as [Heq|Hin]; [done|].
      by apply elem_of_nil in Hin.
  - destruct (quiet_strict_exit _ ex
                (saveStateReqs_quiet pkg a _ _)
                (saveStateReqs_strict pkg a _ _) Hloop) as ([] & e & Hrun).
    unfold SaveState, run in Hin. rewrite Hstore in Hin.
    case_decide as Hlen; [by apply elem_of_nil in Hin|].
    munfold. rewrite Hrun in Hin. by apply elem_of_nil in Hin.
Qed.

Lemma SaveState_batch_witness :
  map state.SetKey SaveRun.dispatched = ["app||k1"; "app||k2"]
  /\ Forall2 (fun s r => state.SetETag r = si_Etag s
                         /\ state.SetMetadata r = si_Metadata s)
       (ssr_States SaveRun.request) SaveRun.dispatched.
Proof.
  split; [reflexivity|].
  destruct (SaveState_batch Demo.pkg
              (Demo.receiver None (Demo.store None [] None))
              (Demo.ctx None) SaveRun.request "store1" SaveRun.dispatched
              ltac:(vm_compute; left)) as [_ Hall].
  eapply Forall2_impl; [exact Hall|].
  by intros s r (_ & _ & Hetag & Hmd & _).
Defined.

(** ** Transactions *)

Section Transactions.
Context (pkg : Imports) (a : api).

(** Every way [ExecuteStateTransaction] can run: it fails before any call,
    or it has staged the operations of the request, within the bound of
    the store, and goes on to the outbox, if enabled, and to the store. *)
Lemma ExecuteStateTransaction_cases ctx in_ :
  (exists e,
     ExecuteStateTransaction pkg a ctx in_ = (Return tt (Some e), []))
  \/ exists store operations staged,
       GetStateStore a (etr_StoreName in_) = inr store
       /\ fst (transactionOperations pkg a (etr_StoreName in_)
                 (etr_Operations in_) []) = inl operations
       /\ (forall max, state.MultiMaxSize store = Some max -> 0 < max ->
             Z.of_nat (length operations) <= max)
       /\ (if EncryptedStateStore pkg (etr_StoreName in_)
           then fst (encryptOperations pkg (etr_StoreName in_) operations [])
                = inl staged
           else staged = operations)
       /\ if Enabled (outbox a) (etr_StoreName in_) then
            match PublishInternal (outbox a) (etr_StoreName in_) staged
                    (AppID a) (SpanContextToW3CString ctx)
                    (default "" (TraceStateToW3CString ctx)) with
            | inl err =>
                ExecuteStateTransaction pkg a ctx in_
                = (Return tt (Some (PubSubOutbox (AppID a) err)),
                   [Call_outbox_PublishInternal (etr_StoreName in_) staged])
            | inr ops =>
                ExecuteStateTransaction pkg a ctx in_
                = (Return tt
                     ((fun err =>
                         Basic codes.Internal 500 StateTransaction
                           (Sprintf ErrStateTransaction [Error err]))
                      <$> state.Multi store
                            {| state.Operations := ops;
                               state.TxMetadata := etr_Metadata in_ |}),
                   [Call_outbox_PublishInternal (etr_StoreName in_) staged;
                    Call_Multi (etr_StoreName in_)
                      {| state.Operations := ops;
                         state.TxMetadata := etr_Metadata in_ |};
                    StateInvoked (etr_StoreName in_) diag_StateTransaction
                      (bool_decide
                         (state.Multi store
                            {| state.Operations := ops;
                               state.TxMetadata := etr_Metadata in_ |}
                          = None))])
            end
          else
            ExecuteStateTransaction pkg a ctx in_
            = (Return tt
                 ((fun err =>
                     Basic codes.Internal 500 StateTransaction
                       (Sprintf ErrStateTransaction [Error err]))
                  <$> state.Multi store
                        {| state.Operations := staged;
                           state.TxMetadata := etr_Metadata in_ |}),
               [Call_Multi (etr_StoreName in_)
                  {| state.Operations := staged;
                     state.TxMetadata := etr_Metadata in_ |};
                StateInvoked (etr_StoreName in_) diag_StateTransaction
                  (bool_decide
                     (state.Multi store
                        {| state.Operations := staged;
                           state.TxMetadata := etr_Metadata in_ |}
                      = None))]).
Proof.
  unfold ExecuteStateTransaction, run.
  destruct (GetStateStore a (etr_StoreName in_)) as [e|store] eqn:Hstore.
  { left. by eexists. }
  destruct (negb _ || negb _) eqn:Htx.
  { left. by eexists. }
  munfold.
  destruct (fst (transactionOperations pkg a (etr_StoreName in_)
                   (etr_Operations in_) [])) as [operations|ex] eqn:Hloop.
  2:{ destruct (quiet_strict_exit _ ex
                  (transactionOperations_quiet pkg a _ _)
                  (transactionOperations_strict pkg a _ _) Hloop)
        as ([] & e & ->).
      left. by eexists. }
  pose proof (transactionOperations_quiet pkg a (etr_StoreName in_)
                (etr_Operations in_) []) as Hq.
  rewrite Hloop in Hq. rewrite Hq.
  destruct (state.MultiMaxSize store) as [max|] eqn:Hmax;
    [destruct (decide (0 < max /\ max < Z.of_nat (length operations)))
       as [Hgt|Hle]; [left; by eexists|]|];
    (destruct (EncryptedStateStore pkg (etr_StoreName in_)) eqn:Henc;
     [ destruct (fst (encryptOperations pkg (etr_StoreName in_)
                        operations [])) as [staged|ex] eqn:Hencl;
       [ pose proof (encryptOperations_quiet pkg (etr_StoreName in_)
                       operations []) as Hq2;
         rewrite Hencl in Hq2; rewrite Hq2;
         right; exists store, operations, staged
       | destruct (quiet_strict_exit _ ex
                     (encryptOperations_quiet pkg _ _)
                     (encryptOperations_strict pkg _ _) Hencl)
           as ([] & e & ->);
         left; by eexists ]
     | right; exists store, operations, operations ]);
    (split_and!; try done;
     try (intros ? Hm ?; rewrite Hmax in Hm;
          first [discriminate Hm|injection Hm as <-; lia]));
    (destruct (Enabled (outbox a) (etr_StoreName in_)); simpl;
     [destruct (PublishInternal _ _ _ _ _ _) as [err|ops]; [done|]; simpl|];
     by destruct (state.Multi store _)).
Qed.

(** What the first loop of [ExecuteStateTransaction] builds: one operation
    for each operation of the request, in order. *)
Lemma transactionOperations_built storeName ops t operations :
  fst (transactionOperations pkg a storeName ops t) = inl operations ->
  Forall2 (fun op o =>
             exists key,
               GetModifiedStateKey pkg (si_Key (tso_Request op)) storeName
                 (AppID a) = inr key
               /\ ((tso_OperationType op = state.OperationUpsert
                    /\ o = state.OpSet
                             {| state.SetKey := key;
                                state.SetValue :=
                                  VBytes (si_Value (tso_Request op));
                                state.SetETag := si_Etag (tso_Request op);
                                state.SetMetadata :=
                                  si_Metadata (tso_Request op);
                                state.SetOptions :=
                                  setStateOption pkg
                                    (si_Options (tso_Request op)) |})
                   \/ (tso_OperationType op = state.OperationDelete
                       /\ o = state.OpDelete
                                {| state.DelKey := key;
                                   state.DelETag :=
                                     si_Etag (tso_Request op);
                                   state.DelMetadata :=
                                     si_Metadata (tso_Request op);
                                   state.DelOptions :=
                                     deleteStateOption pkg
                                       (si_Options (tso_Request op)) |})))
          ops operations.
Proof.
  revert t operations; induction ops as [|op ops IH]; intros t operations;
    simpl.
  { intros [= <-]. constructor. }
  assert (Hetag : (let '(hasEtag, etag) := extractEtag (tso_Request op) in
                   if hasEtag then Some etag else None)
                  = si_Etag (tso_Request op)).
  { unfold extractEtag. by destruct (si_Etag (tso_Request op)). }
  destruct (extractEtag (tso_Request op)) as [hasEtag etag].
  destruct (GetModifiedStateKey pkg _ _ _) as [e|key] eqn:Hkey; [done|].
  munfold.
  repeat case_decide; simpl; try done;
    specialize (IH t);
    destruct (transactionOperations pkg a storeName ops t) as [[x|e] t'];
      simpl in *; try done;
    intros [= <-]; (constructor; [|by apply IH]);
    exists key; (split; [done|]); rewrite Hetag; [left|right]; done.
Qed.

(** What the encryption loop builds: the deletes as they are, and each set
    with the encryption of its printed value. *)
Lemma encryptOperations_built storeName operations t staged :
  fst (encryptOperations pkg storeName operations t) = inl staged ->
  Forall2 (fun o o' =>
             match o with
             | state.OpSet r =>
                 exists cipher,
                   TryEncryptValue pkg storeName
                     (bytes_of_string (Sprintf_v pkg (state.SetValue r)))
                   = inr cipher
                   /\ o' = state.OpSet
                              {| state.SetKey := state.SetKey r;
                                 state.SetValue := VBytes cipher;
                                 state.SetETag := state.SetETag r;
                                 state.SetMetadata := state.SetMetadata r;
                                 state.SetOptions := state.SetOptions r |}
             | state.OpDelete _ => o' = o
             end) operations staged.
Proof.
  revert t staged; induction operations as [|o operations IH];
    intros t staged; simpl.
  { intros [= <-]. constructor. }
  munfold. destruct o as [r|r].
  - destruct (TryEncryptValue pkg storeName _) as [e|cipher] eqn:Hcipher;
      [done|].
    specialize (IH t).
    destruct (encryptOperations pkg storeName operations t) as [[x|e] t'];
      simpl in *; [|done].
    intros [= <-]. constructor; [|by apply IH]. by exists cipher.
  - specialize (IH t).
    destruct (encryptOperations pkg storeName operations t) as [[x|e] t'];
      simpl in *; [|done].
    intros [= <-]. constructor; [done|by apply IH].
Qed.

(** [ExecuteStateTransaction] when it reaches the store. *)
Lemma ExecuteStateTransaction_reached ctx in_ name req :
  Call_Multi name req ∈ calls (ExecuteStateTransaction pkg a ctx in_) ->
  exists store operations staged,
    name = etr_StoreName in_
    /\ state.TxMetadata req = etr_Metadata in_
    /\ GetStateStore a (etr_StoreName in_) = inr store
    /\ fst (transactionOperations pkg a (etr_StoreName in_)
              (etr_Operations in_) []) = inl operations
    /\ (forall max, state.MultiMaxSize store = Some max -> 0 < max ->
          Z.of_nat (length operations) <= max)
    /\ (if EncryptedStateStore pkg (etr_StoreName in_)
        then fst (encryptOperations pkg (etr_StoreName in_) operations [])
             = inl staged
        else staged = operations)
    /\ (if Enabled (outbox a) (etr_StoreName in_)
        then PublishInternal (outbox a) (etr_StoreName in_) staged
               (AppID a) (SpanContextToW3CString ctx)
               (default "" (TraceStateToW3CString ctx))
             = inr (state.Operations req)
        else state.Operations req = staged)
    /\ ExecuteStateTransaction pkg a ctx in_
       = (Return tt
            ((fun err =>
                Basic codes.Internal 500 StateTransaction
                  (Sprintf ErrStateTransaction [Error err]))
             <$> state.Multi store req),
          (if Enabled (outbox a) (etr_StoreName in_)
           then [Call_outbox_PublishInternal (etr_StoreName in_) staged]
           else [])
          ++ [Call_Multi name req;
              StateInvoked (etr_StoreName in_) diag_StateTransaction
                (bool_decide (state.Multi store req = None))]).
Proof.
  intros Hin.
  destruct (ExecuteStateTransaction_cases ctx in_)
    as [[e He]|(store & operations & staged & Hstore & Hloop & Hbound
                & Henc & Hout)].
  { rewrite He in Hin. by apply elem_of_nil in Hin. }
  exists store, operations, staged.
  destruct (Enabled (outbox a) (etr_StoreName in_)).
  - destruct (PublishInternal _ _ _ _ _ _) as [err|ops] eqn:Hpub.
    + rewrite Hout in Hin. unfold calls in Hin. simpl in Hin.
      apply elem_of_cons in Hin as [Heq|Hin]; [done|].
      by apply elem_of_nil in Hin.
    + rewrite Hout in Hin |- *. unfold calls in Hin. simpl in Hin.
      apply elem_of_cons in Hin as [Heq|Hin]; [done|].
      apply elem_of_cons in Hin as [Heq|Hin].
      * injection Heq as -> ->. simpl. split_and!; done.
      * apply elem_of_cons in Hin as [Heq|Hin]; [done|].
        by apply elem_of_nil in Hin.
  - rewrite Hout in Hin |- *. unfold calls in Hin. simpl in Hin.
    apply elem_of_cons in Hin as [Heq|Hin].
    + injection Heq as -> ->. simpl. split_and!; done.
    + apply elem_of_cons in Hin as [Heq|Hin]; [done|].
      by apply elem_of_nil in Hin.
Qed.
End Transactions.

(** The bound of a store is checked on the request.  Whenever
    [ExecuteStateTransaction] hands a transaction to a store, the store is
    the one named in the request, the metadata are those of the request,
    every operation of the request is an upsert or a delete whose key
    could be rewritten, and the number of operations of the request is
    within the bound of the store, if the store has a bound above zero.
    Without an outbox the transaction holds exactly as many operations as
    the request, so that it is within the bound too.  With an outbox the
    transaction holds the operations the outbox gave back for a list of
    that length, and their number is not checked again. *)
Theorem ExecuteStateTransaction_within_bound pkg a ctx in_ name req :
  Call_Multi name req ∈ calls (ExecuteStateTransaction pkg a ctx in_) ->
  name = etr_StoreName in_
  /\ state.TxMetadata req = etr_Metadata in_
  /\ Forall (well_formed_operation pkg a (etr_StoreName in_))
        (etr_Operations in_)
  /\ exists store staged,
       GetStateStore a (etr_StoreName in_) = inr store
       /\ (forall max, state.MultiMaxSize store = Some max -> 0 < max ->
             Z.of_nat (length (etr_Operations in_)) <= max)
       /\ length staged = length (etr_Operations in_)
       /\ if Enabled (outbox a) (etr_StoreName in_)
          then PublishInternal (outbox a) (etr_StoreName in_) staged
                 (AppID a) (SpanContextToW3CString ctx)
                 (default "" (TraceStateToW3CString ctx))
               = inr (state.Operations req)
          else state.Operations req = staged
               /\ forall max, state.MultiMaxSize store = Some max ->
                    0 < max ->
                    Z.of_nat (length (state.Operations req)) <= max.
Proof.
  intros Hin.
  destruct (ExecuteStateTransaction_reached pkg a ctx in_ name req Hin)
    as (store & operations & staged & Hname & Hmd & Hstore & Hloop
        & Hbound & Henc & Hout & _).
  pose proof (transactionOperations_length pkg a _ _ _ _ Hloop) as Hlen.
  assert (Hstaged : length staged = length (etr_Operations in_)).
  { rewrite <- Hlen.
    destruct (EncryptedStateStore pkg (etr_StoreName in_)).
    - apply encryptOperations_built in Henc.
      symmetry. exact (Forall2_length _ _ _ Henc).
    - by rewrite Henc. }
  split; [done|]. split; [done|]. split.
  - apply transactionOperations_built in Hloop.
    clear -Hloop. induction Hloop as [|op o ops os (key & Hkey & Hop) _ IH];
      constructor; [|done].
    split; [|by exists key]. destruct Hop as [[? _]|[? _]]; [by left|by right].
  - exists store, staged. split; [done|]. split.
    { intros max Hmax Hpos. rewrite <- Hlen. by apply Hbound. }
    split; [done|].
    destruct (Enabled (outbox a) (etr_StoreName in_)); [done|].
    split; [done|]. intros max Hmax Hpos.
    rewrite Hout, Hstaged, <- Hlen. by apply Hbound.
Qed.

Lemma ExecuteStateTransaction_within_bound_witness :
  Z.of_nat (length (state.Operations TransactionRun.dispatched)) <= 2.
Proof.
  destruct (ExecuteStateTransaction_within_bound Demo.pkg
              (Demo.receiver None (Demo.store (Some 2) [] None))
              (Demo.ctx None) TransactionRun.request "store1"
              TransactionRun.dispatched ltac:(vm_compute; left))
    as (_ & _ & _ & store & staged & Hstore & _ & _ & Hout).
  injection Hstore as <-. simpl in Hout. by apply (proj2 Hout).
Defined.

(** Without an outbox, the transaction the store receives holds one
    operation for each operation of the request, in the order of the
    request: a set for an upsert and a delete for a delete, under the
    rewritten key and with the etag, the metadata and the options of the
    operation.  The value of a set is the value of the request on a store
    that is not encrypted, and on an encrypted store the encryption of the
    value as [%v] prints it. *)
Theorem ExecuteStateTransaction_operations pkg a ctx in_ name req :
  Enabled (outbox a) (etr_StoreName in_) = false ->
  Call_Multi name req ∈ calls (ExecuteStateTransaction pkg a ctx in_) ->
  Forall2 (fun op o =>
             exists key,
               GetModifiedStateKey pkg (si_Key (tso_Request op))
                 (etr_StoreName in_) (AppID a) = inr key
               /\ ((tso_OperationType op = state.OperationUpsert
                    /\ exists value,
                         o = state.OpSet
                               {| state.SetKey := key;
                                  state.SetValue := VBytes value;
                                  state.SetETag := si_Etag (tso_Request op);
                                  state.SetMetadata :=
                                    si_Metadata (tso_Request op);
                                  state.SetOptions :=
                                    setStateOption pkg
                                      (si_Options (tso_Request op)) |}
                         /\ if EncryptedStateStore pkg (etr_StoreName in_)
                            then TryEncryptValue pkg (etr_StoreName in_)
                                   (bytes_of_string
                                      (Sprintf_v_bytes
                                         (si_Value (tso_Request op))))
                                 = inr value
                            else value = si_Value (tso_Request op))
                   \/ (tso_OperationType op = state.OperationDelete
                       /\ o = state.OpDelete
                                {| state.DelKey := key;
                                   state.DelETag :=
                                     si_Etag (tso_Request op);
                                   state.DelMetadata :=
                                     si_Metadata (tso_Request op);
                                   state.DelOptions :=
                                     deleteStateOption pkg
                                       (si_Options (tso_Request op)) |})))
          (etr_Operations in_) (state.Operations req).
Proof.
  intros Hoff Hin.
  destruct (ExecuteStateTransaction_reached pkg a ctx in_ name req Hin)
    as (store & operations & staged & _ & _ & _ & Hloop & _ & Henc
        & Hout & _).
  rewrite Hoff in Hout. rewrite Hout. clear Hout Hin.
  apply transactionOperations_built in Hloop.
  destruct (EncryptedStateStore pkg (etr_StoreName in_)).
  - apply encryptOperations_built in Henc.
    revert staged Henc.
    induction Hloop as [|op o ops os (key & Hkey & Hop) _ IH];
      intros staged Henc.
    { apply Forall2_nil_inv_l in Henc as ->. constructor. }
    apply Forall2_cons_inv_l in Henc as (o' & staged' & Ho & Hrest & ->).
    constructor; [|by apply IH].
    exists key. split; [done|].
    destruct Hop as [[Htype ->]|[Htype ->]].
    + left. split; [done|]. destruct Ho as (cipher & Hcipher & ->).
      exists cipher. by split.
    + right. by subst o'.
  - subst staged.
    eapply Forall2_impl; [exact Hloop|].
    intros op o (key & Hkey & Hop). exists key. split; [done|].
    destruct Hop as [[Htype ->]|[Htype ->]]; [left|by right].
    split; [done|]. by eexists.
Qed.

Lemma ExecuteStateTransaction_operations_witness :
  Forall2 (fun op o =>
             match o with
             | state.OpSet r =>
                 tso_OperationType op = "upsert"
                 /\ state.SetKey r = "app||" +:+ si_Key (tso_Request op)
             | state.OpDelete r =>
                 tso_OperationType op = "delete"
                 /\ state.DelKey r = "app||" +:+ si_Key (tso_Request op)
             end)
    (etr_Operations TransactionRun.request) TransactionRun.staged.
Proof.
  pose proof (ExecuteStateTransaction_operations Demo.pkg
                (Demo.receiver None (Demo.store (Some 2) [] None))
                (Demo.ctx None) TransactionRun.request "store1"
                TransactionRun.dispatched eq_refl
                ltac:(vm_compute; left)) as Hall.
  eapply Forall2_impl; [exact Hall|].
  intros op o (key & Hkey & Hop). simpl in Hkey.
  unfold Demo.modifiedKey in Hkey.
  destruct (Demo.contains "||" (si_Key (tso_Request op))); [done|].
  injection Hkey as <-.
  destruct Hop as [[Htype (value & -> & _)]|[Htype ->]]; by split.
Defined.

(** A transaction is validated as a whole: when one of its operations is
    neither an upsert nor a delete, [ExecuteStateTransaction] on a store
    that exists returns an error and calls neither the outbox, nor the
    store, nor the metrics, wherever the operation stands in the list. *)
Theorem ExecuteStateTransaction_unsupported_operation pkg a ctx in_ store :
  GetStateStore a (etr_StoreName in_) = inr store ->
  Exists (fun op => tso_OperationType op <> state.OperationUpsert
                    /\ tso_OperationType op <> state.OperationDelete)
    (etr_Operations in_) ->
  exists e,
    ExecuteStateTransaction pkg a ctx in_ = (Return tt (Some e), []).
Proof.
  intros Hstore Hbad.
  destruct (ExecuteStateTransaction_cases pkg a ctx in_)
    as [He|(store' & operations & staged & _ & Hloop & _)]; [done|].
  exfalso. apply transactionOperations_built in Hloop.
  clear -Hbad Hloop.
  induction Hloop as [|op o ops os (key & Hkey & Hop) _ IH].
  { by apply Exists_nil in Hbad. }
  apply Exists_cons in Hbad as [[Hu Hd]|Hbad]; [|by apply IH].
  destruct Hop as [[? _]|[? _]]; congruence.
Qed.

Lemma ExecuteStateTransaction_unsupported_operation_witness :
  exists e,
    ExecuteStateTransaction Demo.pkg
      (Demo.receiver None (Demo.store None [] None)) (Demo.ctx None)
      {| etr_StoreName := "store1";
         etr_Operations :=
           [{| tso_OperationType := "upsert";
               tso_Request := Demo.item "k1" "v1" |};
            {| tso_OperationType := "merge";
               tso_Request := Demo.item "k2" "v2" |}];
         etr_Metadata := ∅ |}
    = (Return tt (Some e), []).
Proof.
  apply (ExecuteStateTransaction_unsupported_operation Demo.pkg _ _ _
           (Demo.store None [] None)).
  - reflexivity.
  - apply Exists_cons_tl, Exists_cons_hd. done.
Defined.

(** With the outbox enabled, the store receives what the outbox returns:
    once [ExecuteStateTransaction] has handed the staged operations to the
    outbox, a failure of the outbox ends the call with the outbox error,
    before the store and the metrics are reached; otherwise the one
    transaction that follows holds exactly the operations the outbox
    returned, however many, with the metadata of the request. *)
Theorem ExecuteStateTransaction_outbox pkg a ctx in_ name staged :
  Call_outbox_PublishInternal name staged
  ∈ calls (ExecuteStateTransaction pkg a ctx in_) ->
  name = etr_StoreName in_
  /\ Enabled (outbox a) (etr_StoreName in_) = true
  /\ match PublishInternal (outbox a) (etr_StoreName in_) staged (AppID a)
             (SpanContextToW3CString ctx)
             (default "" (TraceStateToW3CString ctx)) with
     | inl err =>
         ExecuteStateTransaction pkg a ctx in_
         = (Return tt (Some (PubSubOutbox (AppID a) err)),
            [Call_outbox_PublishInternal name staged])
     | inr ops =>
         exists status success,
           ExecuteStateTransaction pkg a ctx in_
           = (Return tt status,
              [Call_outbox_PublishInternal name staged;
               Call_Multi name
                 {| state.Operations := ops;
                    state.TxMetadata := etr_Metadata in_ |};
               StateInvoked name diag_StateTransaction success])
     end.
Proof.
  intros Hin.
  destruct (ExecuteStateTransaction_cases pkg a ctx in_)
    as [[e He]|(store & operations & staged' & _ & _ & _ & _ & Hout)].
  { rewrite He in Hin. by apply elem_of_nil in Hin. }
  destruct (Enabled (outbox a) (etr_StoreName in_)).
  - assert (Heq : name = etr_StoreName in_ /\ staged = staged').
    { destruct (PublishInternal _ _ staged' _ _ _) as [err|ops];
        rewrite Hout in Hin; unfold calls in Hin; simpl in Hin;
        repeat (apply elem_of_cons in Hin as [Heq|Hin];
                [try done; try (by injection Heq as -> ->)|]);
        by apply elem_of_nil in Hin. }
    destruct Heq as [-> ->]. split; [done|]. split; [done|].
    destruct (PublishInternal _ _ staged' _ _ _) as [err|ops]; [done|].
    by eexists _, _.
  - exfalso. rewrite Hout in Hin. unfold calls in Hin. simpl in Hin.
    apply elem_of_cons in Hin as [Heq|Hin]; [done|].
    apply elem_of_cons in Hin as [Heq|Hin]; [done|].
    by apply elem_of_nil in Hin.
Qed.

Lemma ExecuteStateTransaction_outbox_witness :
  exists status success,
    ExecuteStateTransaction Demo.pkg
      (TransactionRun.withOutbox
         (fun ops => inr (ops ++ [TransactionRun.outboxMessage])))
      (Demo.ctx None) TransactionRun.request
    = (Return tt status,
       [Call_outbox_PublishInternal "store1" TransactionRun.staged;
        Call_Multi "store1"
          {| state.Operations :=
               TransactionRun.staged ++ [TransactionRun.outboxMessage];
             state.TxMetadata := {[ "partitionKey" := "p" ]} |};
        StateInvoked "store1" diag_StateTransaction success]).
Proof.
  exact (proj2 (proj2
    (ExecuteStateTransaction_outbox Demo.pkg
       (TransactionRun.withOutbox
          (fun ops => inr (ops ++ [TransactionRun.outboxMessage])))
       (Demo.ctx None) TransactionRun.request "store1"
       TransactionRun.staged ltac:(vm_compute; left)))).
Defined.

(** ** Calls and metrics of the state handlers *)

Section CallThenMetric.
Context (pkg : Imports) (a : api) (ctx : RequestContext).

Lemma SaveState_call_then_metric in_ :
  call_then_metric (SaveState pkg a ctx in_) (ssr_StoreName in_) diag_Set.
Proof.
  destruct (GetStateStore a (ssr_StoreName in_)) as [e|store] eqn:Hstore.
  { left. unfold SaveState, run. by rewrite Hstore. }
  destruct (decide (ssr_States in_ = [])) as [Hnil|Hne].
  { left. by rewrite (SaveState_empty pkg a ctx in_ store Hstore Hnil). }
  destruct (fst (saveStateReqs pkg a (ssr_StoreName in_) (ssr_States in_)
                   [])) as [reqs|ex] eqn:Hloop.
  - right.
    rewrite (SaveState_dispatched pkg a ctx in_ store reqs Hstore Hne Hloop).
    eexists _, _. split; [reflexivity|]. split; [done|].
    unfold result. simpl.
    destruct (PerformBulkStoreOperation pkg _ _ _ _); simpl;
      rewrite ?bool_decide_eq_true; split; try done.
    + by intros [r Hr].
    + intros _. by eexists.
  - left.
    destruct (quiet_strict_exit _ ex
                (saveStateReqs_quiet pkg a _ _)
                (saveStateReqs_strict pkg a _ _) Hloop) as ([] & e & Hrun).
    unfold SaveState, run. rewrite Hstore.
    case_decide as Hlen; [done|].
    munfold. by rewrite Hrun.
Qed.

Lemma DeleteState_call_then_metric in_ :
  call_then_metric (DeleteState pkg a ctx in_) (dsr_StoreName in_)
    diag_Delete.
Proof.
  destruct (GetStateStore a (dsr_StoreName in_)) as [e|store] eqn:Hstore.
  { left. unfold DeleteState, run. by rewrite Hstore. }
  destruct (GetModifiedStateKey pkg (dsr_Key in_) (dsr_StoreName in_)
              (AppID a)) as [e|key] eqn:Hkey.
  { left. unfold DeleteState, run. by rewrite Hstore, Hkey. }
  right. rewrite (DeleteState_dispatched pkg a ctx in_ store key Hstore Hkey).
  eexists _, _. split; [reflexivity|]. split; [done|].
  unfold result. simpl.
  destruct (state.Delete store _); simpl;
    rewrite ?bool_decide_eq_true; split; try done.
  - by intros [r Hr].
  - intros _. by eexists.
Qed.

Lemma DeleteBulkState_call_then_metric in_ :
  call_then_metric (DeleteBulkState pkg a ctx in_) (dbr_StoreName in_)
    diag_BulkDelete.
Proof.
  destruct (GetStateStore a (dbr_StoreName in_)) as [e|store] eqn:Hstore.
  { left. unfold DeleteBulkState, run. by rewrite Hstore. }
  destruct (fst (deleteBulkStateReqs pkg a (dbr_StoreName in_)
                   (dbr_States in_) [])) as [reqs|ex] eqn:Hloop.
  - right.
    rewrite (DeleteBulkState_dispatched pkg a ctx in_ store reqs Hstore
               Hloop).
    eexists _, _. split; [reflexivity|]. split; [done|].
    unfold result. simpl.
    destruct (PerformBulkStoreOperation pkg _ _ _ _); simpl;
      rewrite ?bool_decide_eq_true; split; try done.
    + by intros [r Hr].
    + intros _. by eexists.
  - left.
    destruct (quiet_strict_exit _ ex
                (deleteBulkStateReqs_quiet pkg a _ _)
                (deleteBulkStateReqs_strict pkg a _ _) Hloop)
      as ([] & e & Hrun).
    unfold DeleteBulkState, run. rewrite Hstore.
    munfold. by rewrite Hrun.
Qed.

Lemma ExecuteStateTransaction_call_then_metric in_ :
  Enabled (outbox a) (etr_StoreName in_) = false ->
  call_then_metric (ExecuteStateTransaction pkg a ctx in_)
    (etr_StoreName in_) diag_StateTransaction.
Proof.
  intros Hoff.
  destruct (ExecuteStateTransaction_cases pkg a ctx in_)
    as [[e He]|(store & operations & staged & _ & _ & _ & _ & Hout)].
  { left. by rewrite He. }
  rewrite Hoff in Hout. right. rewrite Hout.
  eexists _, _. split; [reflexivity|]. split; [done|].
  unfold result. simpl.
  destruct (state.Multi store _); simpl;
    rewrite ?bool_decide_eq_true; split; try done.
  - by intros [r Hr].
  - intros _. by eexists.
Qed.
End CallThenMetric.

(** Metrics follow the hand-over: [SaveState], [DeleteState],
    [DeleteBulkState] and, without an outbox, [ExecuteStateTransaction]
    either make no call at all, or hand one operation over, to
    [PerformBulkStoreOperation] or to the policy runner of the store, and
    then record one metric under the store name of the request, whose
    success flag is set exactly when the handler returns no error.  How
    often the runner calls the driver is not part of the statement. *)
Theorem state_handlers_call_then_metric pkg a ctx :
  (forall in_,
     call_then_metric (SaveState pkg a ctx in_) (ssr_StoreName in_)
       diag_Set)
  /\ (forall in_,
        call_then_metric (DeleteState pkg a ctx in_) (dsr_StoreName in_)
          diag_Delete)
  /\ (forall in_,
        call_then_metric (DeleteBulkState pkg a ctx in_) (dbr_StoreName in_)
          diag_BulkDelete)
  /\ (forall in_,
        Enabled (outbox a) (etr_StoreName in_) = false ->
        call_then_metric (ExecuteStateTransaction pkg a ctx in_)
          (etr_StoreName in_) diag_StateTransaction).
Proof.
  split_and!.
  - apply SaveState_call_then_metric.
  - apply DeleteState_call_then_metric.
  - apply DeleteBulkState_call_then_metric.
  - apply ExecuteStateTransaction_call_then_metric.
Qed.

Lemma state_handlers_call_then_metric_witness :
  call_then_metric
    (ExecuteStateTransaction Demo.pkg
       (Demo.receiver None (Demo.store (Some 2) [] None)) (Demo.ctx None)
       TransactionRun.request)
    "store1" diag_StateTransaction.
Proof.
  exact (proj2 (proj2 (proj2
    (state_handlers_call_then_metric Demo.pkg
       (Demo.receiver None (Demo.store (Some 2) [] None)) (Demo.ctx None))))
    TransactionRun.request eq_refl).
Defined.

(** ** Reads *)

(** The driver only sees rewritten keys: whenever [GetState] hands a read
    to the policy runner of a store, it is the store of the request, and
    the read is for the rewritten form of the requested key, with the
    metadata of the request and the consistency of the request as a
    string; the call also records the metric of the read, with success
    set exactly when the runner ended without an error. *)
Theorem GetState_request pkg a ctx in_ name req :
  Call_Get name req ∈ calls (GetState pkg a ctx in_) ->
  name = gsr_StoreName in_
  /\ GetModifiedStateKey pkg (gsr_Key in_) (gsr_StoreName in_) (AppID a)
     = inr (state.GetKey req)
  /\ state.GetMetadata req = gsr_Metadata in_
  /\ state.GetConsistency (state.GetOptions req)
     = stateConsistencyToString pkg (gsr_Consistency in_)
  /\ exists store,
       GetStateStore a (gsr_StoreName in_) = inr store
       /\ StateInvoked name diag_Get
            (bool_decide (snd (state.Get store req) = None))
          ∈ calls (GetState pkg a ctx in_).
Proof.
  intros Hin.
  destruct (GetStateStore a (gsr_StoreName in_)) as [e|store] eqn:Hstore.
  { unfold GetState, run in Hin. rewrite Hstore in Hin.
    by apply elem_of_nil in Hin. }
  destruct (GetModifiedStateKey pkg (gsr_Key in_) (gsr_StoreName in_)
              (AppID a)) as [e|key] eqn:Hkey.
  { unfold GetState, run in Hin. rewrite Hstore, Hkey in Hin.
    by apply elem_of_nil in Hin. }
  set (req0 := {| state.GetKey := key;
                  state.GetMetadata := gsr_Metadata in_;
                  state.GetOptions :=
                    {| state.GetConsistency :=
                         stateConsistencyToString pkg
                           (gsr_Consistency in_) |} |}).
  assert (Hcalls :
    calls (GetState pkg a ctx in_)
    = [Call_Get (gsr_StoreName in_) req0;
       StateInvoked (gsr_StoreName in_) diag_Get
         (bool_decide (snd (state.Get store req0) = None))]).
  { unfold GetState, run. rewrite Hstore, Hkey. munfold. simpl.
    fold req0.
    destruct (state.Get store req0) as [getResponse [err|]]; simpl;
      [done|].
    destruct (EncryptedStateStore pkg (gsr_StoreName in_)); [|done].
    by destruct (TryDecryptValue pkg _ _) as [[err|val]|]. }
  rewrite Hcalls in Hin |- *.
  apply elem_of_cons in Hin as [Heq|Hin].
  - injection Heq as -> ->. split_and!; try done. exists store.
    split; [done|]. apply elem_of_cons. right. apply elem_of_cons. by left.
  - apply elem_of_cons in Hin as [Heq|Hin]; [done|].
    by apply elem_of_nil in Hin.
Qed.

Lemma GetState_request_witness :
  GetModifiedStateKey Demo.pkg "k" "store1" "app" = inr "app||k".
Proof.
  exact (proj1 (proj2
    (GetState_request Demo.pkg
       (Demo.receiver None (Demo.store None [] None)) (Demo.ctx None)
       {| gsr_StoreName := "store1"; gsr_Key := "k";
          gsr_Consistency := CONSISTENCY_STRONG; gsr_Metadata := ∅ |}
       "store1"
       {| state.GetKey := "app||k"; state.GetMetadata := ∅;
          state.GetOptions := {| state.GetConsistency := "strong" |} |}
       ltac:(vm_compute; left)))).
Defined.

(** A key the store does not hold is not an error: when the driver answers
    a [GetState] with a nil response and no error, a store that is not
    encrypted gives the empty response and no error.  On an encrypted
    store the empty value is decrypted like any other, so the call returns
    what the decryption of no bytes gives, an [Internal] error when that
    fails, and panics when that panics; the metric has counted a success
    by then. *)
Theorem GetState_nil_response pkg a ctx in_ store key :
  GetStateStore a (gsr_StoreName in_) = inr store ->
  GetModifiedStateKey pkg (gsr_Key in_) (gsr_StoreName in_) (AppID a)
  = inr key ->
  (forall req, state.GetKey req = key -> state.Get store req = (None, None))
  ->
  StateInvoked (gsr_StoreName in_) diag_Get true
  ∈ calls (GetState pkg a ctx in_)
  /\ result (GetState pkg a ctx in_)
     = if EncryptedStateStore pkg (gsr_StoreName in_) then
         match TryDecryptValue pkg (gsr_StoreName in_) [] with
         | Some (inl err) =>
             Return {| gsres_Data := []; gsres_Etag := "";
                       gsres_Metadata := ∅ |}
               (Some (Basic codes.Internal 500 StateGet
                        (Sprintf ErrStateGet
                           [gsr_Key in_; gsr_StoreName in_; Error err])))
         | Some (inr val) =>
             Return {| gsres_Data := val; gsres_Etag := "";
                       gsres_Metadata := ∅ |} None
         | None => Panic
         end
       else
         Return {| gsres_Data := []; gsres_Etag := "";
                   gsres_Metadata := ∅ |} None.
Proof.
  intros Hstore Hkey Hget. unfold GetState, run.
  rewrite Hstore, Hkey. munfold. simpl.
  rewrite Hget by done. simpl.
  destruct (EncryptedStateStore pkg (gsr_StoreName in_)); simpl.
  - destruct (TryDecryptValue pkg _ _) as [[err|val]|]; simpl;
      (split; [apply elem_of_cons; right; apply elem_of_cons; by left|done]).
  - split; [apply elem_of_cons; right; apply elem_of_cons; by left|done].
Qed.

Lemma GetState_nil_response_witness :
  result (GetState Demo.pkg (Demo.receiver None (BulkRead.answering []))
            (Demo.ctx None) EncryptedTransaction.read)
  = Return {| gsres_Data := []; gsres_Etag := ""; gsres_Metadata := ∅ |}
      None.
Proof.
  refine (proj2 (GetState_nil_response Demo.pkg _ (Demo.ctx None)
                   EncryptedTransaction.read _ "app||k" _ _ _)).
  - reflexivity.
  - reflexivity.
  - reflexivity.
Defined.

Section BulkItems.
Context (pkg : Imports).

(** What the decryption loop of [GetBulkState] does to the items: it
    panics when the decryption of an item that has to be decrypted panics,
    and otherwise returns the items one for one. *)
Lemma decryptBulkItems_items {R} storeName items t :
  (fst (decryptBulkItems (R := R) pkg storeName items t) = inr Panic
   /\ Exists (fun item =>
                bsi_Error item = "" /\ bsi_Data item <> []
                /\ TryDecryptValue pkg storeName (bsi_Data item) = None)
        items)
  \/ exists items',
       fst (decryptBulkItems (R := R) pkg storeName items t) = inl items'
       /\ Forall2
            (fun item item' =>
               bsi_Key item' = bsi_Key item
               /\ bsi_Etag item' = bsi_Etag item
               /\ bsi_Metadata item' = bsi_Metadata item
               /\ if decide (bsi_Error item <> "" \/ bsi_Data item = [])
                  then bsi_Data item' = []
                       /\ bsi_Error item' = bsi_Error item
                  else
                    match TryDecryptValue pkg storeName (bsi_Data item) with
                    | Some (inl err) =>
                        bsi_Data item' = [] /\ bsi_Error item' = Error err
                    | Some (inr val) =>
                        bsi_Data item' = val /\ bsi_Error item' = ""
                    | None => False
                    end)
            items items'.
Proof.
  revert t. induction items as [|item items IH]; intros t; simpl.
  { right. exists []. split; [done|constructor]. }
  munfold. unfold decryptBulkItem.
  destruct (decide (bsi_Error item <> ""
                    \/ length (bsi_Data item) = 0%nat)) as [Hskip|Hgo].
  - assert (Hskip' : bsi_Error item <> "" \/ bsi_Data item = []).
    { destruct Hskip as [?|Hlen]; [by left|right].
      by destruct (bsi_Data item). }
    simpl.
    destruct (IH t) as [[Hp Hex]|(items' & Heq & Hall)].
    + left. destruct (decryptBulkItems pkg storeName items t) as [[x|e] t'];
        simpl in *; [done|]. split; [done|]. by apply Exists_cons_tl.
    + right.
      destruct (decryptBulkItems pkg storeName items t) as [[x|e] t'];
        simpl in *; [|done]. injection Heq as ->.
      eexists. split; [reflexivity|]. constructor; [|done]. simpl.
      rewrite decide_True by done. done.
  - assert (Hgo' : ~ (bsi_Error item <> "" \/ bsi_Data item = [])).
    { intros [?|Hd]; apply Hgo; [by left|right]. by rewrite Hd. }
    assert (Herr : bsi_Error item = "").
    { destruct (decide (bsi_Error item = "")) as [?|Hne]; [done|].
      exfalso. apply Hgo. by left. }
    assert (Hdata : bsi_Data item <> []).
    { intros Hd. apply Hgo'. by right. }
    destruct (TryDecryptValue pkg storeName (bsi_Data item))
      as [[err|val]|] eqn:Hdec; munfold; simpl.
    + destruct (IH t) as [[Hp Hex]|(items' & Heq & Hall)].
      * left.
        destruct (decryptBulkItems pkg storeName items t) as [[x|e] t'];
          simpl in *; [done|]. split; [done|]. by apply Exists_cons_tl.
      * right.
        destruct (decryptBulkItems pkg storeName items t) as [[x|e] t'];
          simpl in *; [|done]. injection Heq as ->.
        eexists. split; [reflexivity|]. constructor; [|done]. simpl.
        rewrite decide_False by done. by rewrite Hdec.
    + destruct (IH t) as [[Hp Hex]|(items' & Heq & Hall)].
      * left.
        destruct (decryptBulkItems pkg storeName items t) as [[x|e] t'];
          simpl in *; [done|]. split; [done|]. by apply Exists_cons_tl.
      * right.
        destruct (decryptBulkItems pkg storeName items t) as [[x|e] t'];
          simpl in *; [|done]. injection Heq as ->.
        eexists. split; [reflexivity|]. constructor; [|done]. simpl.
        rewrite decide_False by done. by rewrite Hdec, Herr.
    + left. split; [done|]. by apply Exists_cons_hd.
Qed.
End BulkItems.

(** A decryption that fails does not fail a bulk read, one that panics
    does.  When the driver answers a [GetBulkState] without an error, the
    call returns no error: on a store that is not encrypted it returns one
    item for each response of the driver, in order, with the key reversed
    and the etag, the metadata, the data and the error of the driver.  On
    an encrypted store it panics, after the metric, exactly when the
    decryption panics on the data of a response that has data and no
    error; otherwise an item for a response with an error, or without
    data, is passed on with its data cleared and is not decrypted, an item
    whose decryption fails has its data cleared and the failure as its
    error, and any other item carries the decrypted data. *)
Theorem GetBulkState_items pkg a ctx in_ store name reqs parallelism :
  GetStateStore a (gbr_StoreName in_) = inr store ->
  Call_BulkGet name reqs parallelism ∈ calls (GetBulkState pkg a ctx in_) ->
  snd (state.BulkGet store reqs parallelism) = None ->
  StateInvoked (gbr_StoreName in_) diag_BulkGet true
  ∈ calls (GetBulkState pkg a ctx in_)
  /\ ((result (GetBulkState pkg a ctx in_) = Panic
       /\ EncryptedStateStore pkg (gbr_StoreName in_) = true
       /\ Exists (fun r =>
                    state.BulkError r = "" /\ state.BulkData r <> []
                    /\ TryDecryptValue pkg (gbr_StoreName in_)
                         (state.BulkData r) = None)
            (fst (state.BulkGet store reqs parallelism)))
      \/ exists resp,
           result (GetBulkState pkg a ctx in_) = Return resp None
           /\ Forall2
                (fun r item =>
                   bsi_Key item = GetOriginalStateKey pkg (state.BulkKey r)
                   /\ bsi_Etag item = stringValueOrEmpty (state.BulkETag r)
                   /\ bsi_Metadata item = state.BulkMetadata r
                   /\ if EncryptedStateStore pkg (gbr_StoreName in_) then
                        if decide (state.BulkError r <> ""
                                   \/ state.BulkData r = [])
                        then bsi_Data item = []
                             /\ bsi_Error item = state.BulkError r
                        else
                          match TryDecryptValue pkg (gbr_StoreName in_)
                                  (state.BulkData r) with
                          | Some (inl err) =>
                              bsi_Data item = []
                              /\ bsi_Error item = Error err
                          | Some (inr val) =>
                              bsi_Data item = val /\ bsi_Error item = ""
                          | None => False
                          end
                      else bsi_Data item = state.BulkData r
                           /\ bsi_Error item = state.BulkError r)
                (fst (state.BulkGet store reqs parallelism))
                (gbres_Items resp)).
Proof.
  intros Hstore Hin Herr.
  destruct (decide (gbr_Keys in_ = [])) as [Hnil|Hne].
  { rewrite (GetBulkState_empty pkg a ctx in_ store Hstore Hnil) in Hin.
    by apply elem_of_nil in Hin. }
  destruct (fst (getBulkStateReqs pkg a in_ (gbr_Keys in_) []))
    as [reqs'|ex] eqn:Hloop.
  2:{ destruct (GetBulkState_not_dispatched pkg a ctx in_ store Hstore)
        as [Hnone _]; [right; by exists ex|].
      rewrite Hnone in Hin. by apply elem_of_nil in Hin. }
  pose proof (GetBulkState_dispatched pkg a ctx in_ store reqs' Hstore Hne
                Hloop) as Hrun.
  simpl in Hrun. rewrite Hrun in Hin |- *. unfold calls, result in *.
  simpl in Hin |- *.
  apply elem_of_cons in Hin as [Heq|Hin].
  2:{ apply elem_of_cons in Hin as [Heq|Hin]; [done|].
      by apply elem_of_nil in Hin. }
  injection Heq as -> -> ->. rewrite Herr. clear Hrun Herr.
  split; [apply elem_of_cons; right; apply elem_of_cons; by left|].
  generalize (fst (state.BulkGet store reqs' (gbr_Parallelism in_))).
  intros rs.
  destruct (EncryptedStateStore pkg (gbr_StoreName in_)).
  - destruct (decryptBulkItems_items (R := GetBulkStateResponse) pkg
                (gbr_StoreName in_) (map (bulkStateItem pkg) rs) [])
      as [[Hp Hex]|(items' & Heq & Hall)].
    + left. rewrite Hp. split; [done|]. split; [done|].
      apply Exists_fmap in Hex. exact Hex.
    + right. rewrite Heq. eexists. split; [reflexivity|]. simpl.
      apply Forall2_fmap_l in Hall. exact Hall.
  - right. eexists. split; [reflexivity|]. simpl.
    apply Forall2_fmap_r, Forall_Forall2_diag, Forall_forall. done.
Qed.

Lemma GetBulkState_items_witness :
  exists resp,
    result (GetBulkState Demo.pkg (Demo.receiver None BulkRead.store)
              (Demo.ctx None) BulkRead.request) = Return resp None
    /\ map bsi_Error (gbres_Items resp)
       = ["timeout"; "could not decrypt value"; ""].
Proof.
  destruct (GetBulkState_items Demo.pkg (Demo.receiver None BulkRead.store)
              (Demo.ctx None) BulkRead.request BulkRead.store "secure"
              BulkRead.dispatched 1 eq_refl ltac:(vm_compute; left) eq_refl)
    as [_ [(Hpanic & _)|(resp & Hres & Hall)]].
  - vm_compute in Hpanic. discriminate Hpanic.
  - exists resp. split; [exact Hres|].
    vm_compute in Hres. injection Hres as <-. reflexivity.
Defined.

Example GetBulkState_panics_on_unsealed_value :
  GetBulkState Demo.pkg
    (Demo.receiver None (BulkRead.answering BulkRead.unsealed))
    (Demo.ctx None) BulkRead.request
  = (Panic,
     [Call_BulkGet "secure" BulkRead.dispatched 1;
      StateInvoked "secure" diag_BulkGet true]).
Proof. reflexivity. Qed.

(** ** The configuration stream *)

Section Session.
Import Subscription.
Context (request : SubscribeConfigurationRequest).

Lemma updateEventHandler_step_fields s i sendResult s' :
  updateEventHandler_step s i sendResult = Some s' ->
  pc s' = pc s /\ configCalls s' = configCalls s
  /\ compStore s' = compStore s /\ stop s' = stop s
  /\ subscribeCtxDone s' = subscribeCtxDone s.
Proof.
  unfold updateEventHandler_step.
  destruct (handlers s !! i) as [[e hpc]|]; [|done].
  destruct hpc; try done.
  - destruct (readyClosed s); [|done]. by intros [= <-].
  - destruct (lockHeld s); [done|]. by intros [= <-].
  - by intros [= <-].
  - by intros [= <-].
Qed.

Lemma ready_session s :
  pc (ready s) = pc s /\ configCalls (ready s) = configCalls s
  /\ compStore (ready s) = compStore s /\ stop (ready s) = stop s
  /\ subscribeCtxDone (ready s) = subscribeCtxDone s
  /\ lockHeld (ready s) = lockHeld s.
Proof. unfold ready. by destruct (readyClosed s). Qed.

Lemma return_deferred_session s err :
  pc (return_deferred s err) = Returned err
  /\ configCalls (return_deferred s err) = configCalls s
  /\ compStore (return_deferred s err) = compStore s
  /\ subscribeCtxDone (return_deferred s err) = true
  /\ lockHeld (return_deferred s err) = lockHeld s
  /\ handlers (return_deferred s err) = handlers s.
Proof.
  unfold return_deferred. simpl.
  destruct (ready_session (subscribeCancel s)) as (_ & -> & -> & _ & -> & ->).
  destruct (ready_fields (subscribeCancel s)) as (_ & _ & -> & _).
  done.
Qed.

Lemma UnsubscribeConfiguration_table cs req :
  (forall id c,
     configurationSubscribes cs !! id = Some c \/ c ∈ closedChannels cs ->
     configurationSubscribes (snd (UnsubscribeConfiguration cs req)) !! id
     = Some c
     \/ c ∈ closedChannels (snd (UnsubscribeConfiguration cs req)))
  /\ (forall id,
        configurationSubscribes cs !! id = None ->
        configurationSubscribes (snd (UnsubscribeConfiguration cs req))
          !! id = None).
Proof.
  unfold UnsubscribeConfiguration, GetConfigurationSubscribe.
  destruct (configurationSubscribes cs !! ucr_Id req) as [c'|] eqn:Hreq;
    simpl; rewrite ?Hreq; [|done].
  split.
  - intros id c [Hid|Hin]; [|right; set_solver].
    destruct (decide (ucr_Id req = id)) as [Heq|Hne].
    + right. rewrite Heq in Hreq. rewrite Hreq in Hid.
      injection Hid as ->. set_solver.
    + left. by rewrite lookup_delete_ne.
  - intros id Hnone. destruct (decide (ucr_Id req = id)) as [Heq|Hne].
    + rewrite Heq. by rewrite lookup_delete_eq.
    + by rewrite lookup_delete_ne.
Qed.

(** The invariant only reads where the stream stands, the calls to the
    driver, the stop channel, the subscription table and whether the
    subscription context is cancelled. *)
Lemma session_inv_frame o s s' :
  pc s' = pc s -> configCalls s' = configCalls s -> stop s' = stop s ->
  (subscribeCtxDone s = true -> subscribeCtxDone s' = true) ->
  (forall id c,
     configurationSubscribes (compStore s) !! id = Some c
     \/ c ∈ closedChannels (compStore s) ->
     configurationSubscribes (compStore s') !! id = Some c
     \/ c ∈ closedChannels (compStore s')) ->
  (forall id,
     configurationSubscribes (compStore s) !! id = None ->
     configurationSubscribes (compStore s') !! id = None) ->
  session_inv request o s -> session_inv request o s'.
Proof.
  intros Hpc Hcalls Hstop Hdone Htable Hnone. unfold session_inv.
  rewrite Hpc, Hcalls, Hstop.
  destruct (pc s) as [| | | | | | | |[err|]]; try done.
  - intros (Ho & Hc & c & Hs & Ht). split_and!; try done.
    exists c. split; [done|]. by apply Htable.
  - intros (Ho & Hc & c & Hs & Ht). split_and!; try done.
    exists c. split; [done|]. by apply Htable.
  - intros (Ho & Hc & Hd). split_and!; try done. by apply Hdone.
  - intros (Ho & Hc & Hd). split_and!; try done. by apply Hdone.
  - intros (id & Ho & Hc & Ht & Hd). exists id. split_and!; try done.
    + by apply Hnone.
    + by apply Hdone.
Qed.

(** One step keeps the invariant of the session. *)
Lemma session_inv_step o s l s' :
  session_inv request o s ->
  step request s l = Some s' ->
  session_inv request
    (match o with
     | Some id => Some id
     | None => subscribed [l]
     end) s'.
Proof.
  intros Hinv Hstep. unfold session_inv in *.
  destruct l.
  - (* GetStore *)
    unfold step in Hstep. destruct (pc s) eqn:Hp; try done.
    destruct Hinv as [-> Hcalls].
    destruct (getConfigurationStore _ _); injection Hstep as <-; simpl.
    + left. done.
    + done.
  - (* Subscribe *)
    unfold step in Hstep. destruct (pc s) eqn:Hp; try done.
    destruct Hinv as [-> Hcalls].
    destruct res as [err|id]; injection Hstep as <-.
    + destruct (return_deferred_session
                  (with_calls s
                     (configCalls s ++ subscribe_calls request false))
                  (Some (Basic codes.InvalidArgument 500
                           ConfigurationSubscribe
                           (Sprintf ErrConfigurationSubscribe
                              [strings_Join (slices_Sort (Keys request)) " ";
                               StoreName request; Error err]))))
        as (Hpc & Hcc & _).
      unfold subscribe_calls in Hpc, Hcc. rewrite Hpc, Hcc. simpl.
      rewrite Hcalls. right. left. done.
    + simpl. rewrite Hcalls. done.
  - (* SendID *)
    unfold step in Hstep. destruct (pc s) eqn:Hp; try done.
    destruct Hinv as [-> Hcalls].
    destruct res as [err|]; injection Hstep as <-.
    + match goal with
      | |- context [return_deferred ?x ?e] =>
          destruct (return_deferred_session x e) as (Hpc & Hcc & _)
      end.
      rewrite Hpc, Hcc. simpl. right. right. left. by eexists.
    + simpl. done.
  - (* AddSubscribe *)
    unfold step in Hstep. destruct (pc s) eqn:Hp; try done.
    destruct Hinv as [-> Hcalls].
    injection Hstep as <-. simpl. split; [done|]. split; [done|].
    exists (nextChannel s). split; [done|]. left.
    by rewrite lookup_insert_eq.
  - (* Ready *)
    unfold step in Hstep. destruct (pc s) eqn:Hp; try done.
    destruct Hinv as (-> & Hcalls & c & Hstop & Htable).
    injection Hstep as <-. simpl.
    destruct (ready_session s) as (_ & -> & -> & -> & _). 
    split; [done|]. split; [done|]. by exists c.
  - (* Select *)
    unfold step in Hstep. destruct (pc s) eqn:Hp; try done.
    destruct Hinv as (-> & Hcalls & _).
    destruct (ctxDone s || _); [|done].
    injection Hstep as <-. simpl. done.
  - (* Unsubscribe *)
    unfold step in Hstep. destruct (pc s) eqn:Hp; try done.
    destruct Hinv as (-> & Hcalls & Hdone).
    destruct res as [err|]; injection Hstep as <-.
    + match goal with
      | |- context [return_deferred ?x ?e] =>
          destruct (return_deferred_session x e) as (Hpc & Hcc & _)
      end.
      rewrite Hpc, Hcc. simpl. right. right. right.
      exists subscribeID. rewrite Hcalls. done.
    + simpl. rewrite Hcalls. done.
  - (* Delete *)
    unfold step in Hstep. destruct (pc s) eqn:Hp; try done.
    destruct Hinv as (-> & Hcalls & Hdone).
    injection Hstep as <-.
    match goal with
    | |- context [return_deferred ?x ?e] =>
        destruct (return_deferred_session x e)
          as (Hpc & Hcc & Hcs & Hsd & _)
    end.
    rewrite Hpc, Hcc, Hcs, Hsd. simpl.
    exists subscribeID. split_and!; try done.
    by rewrite lookup_delete_eq.
  - (* ConsumerCancel *)
    assert (Hs' : s' = cancel_ctx s).
    { unfold step in Hstep. by destruct (pc s); injection Hstep as <-. }
    subst s'.
    replace (match o with Some id => Some id | None => _ end) with o
      by (by destruct o).
    by apply (session_inv_frame o s).
  - (* UnsubscribeRPC *)
    assert (Hs' : s' = with_compStore s
                         (snd (UnsubscribeConfiguration (compStore s) req))).
    { unfold step in Hstep. by destruct (pc s); injection Hstep as <-. }
    subst s'.
    replace (match o with Some id => Some id | None => _ end) with o
      by (by destruct o).
    destruct (UnsubscribeConfiguration_table (compStore s) req)
      as [Hkeep Hnone].
    by apply (session_inv_frame o s).
  - (* Callback *)
    assert (Hs' : s' = with_handlers s (handlers s ++ [(e, AtReadyCh)])).
    { unfold step in Hstep. by destruct (pc s); try injection Hstep as <-. }
    subst s'.
    replace (match o with Some id => Some id | None => _ end) with o
      by (by destruct o).
    by apply (session_inv_frame o s).
  - (* Handler *)
    assert (Hh : updateEventHandler_step s i sendResult = Some s').
    { unfold step in Hstep. by destruct (pc s). }
    destruct (updateEventHandler_step_fields s i sendResult s' Hh)
      as (Hpc & Hcalls & Hcs & Hstop & Hdone).
    replace (match o with Some id => Some id | None => _ end) with o
      by (by destruct o).
    apply (session_inv_frame o s); try done.
    + by rewrite Hdone.
    + by rewrite Hcs.
    + by rewrite Hcs.
Qed.

Lemma session_inv_exec ls :
  forall o s s',
  session_inv request o s ->
  exec request s ls = Some s' ->
  session_inv request
    (match o with
     | Some id => Some id
     | None => subscribed ls
     end) s'.
Proof.
  induction ls as [|l ls IH]; intros o s s' Hinv; simpl.
  { intros [= <-]. by destruct o. }
  destruct (step request s l) as [s1|] eqn:Hstep; [|done].
  intros Hexec.
  pose proof (session_inv_step o s l s1 Hinv Hstep) as Hinv1.
  pose proof (IH _ _ _ Hinv1 Hexec) as Hfinal.
  destruct o as [id|]; [exact Hfinal|].
  simpl in Hfinal.
  destruct l; try exact Hfinal.
  destruct res; exact Hfinal.
Qed.

Lemma session_inv_run cs nextChannel ls s :
  exec request (init cs nextChannel) ls = Some s ->
  session_inv request (subscribed ls) s.
Proof.
  intros Hexec.
  by apply (session_inv_exec ls None (init cs nextChannel) s).
Qed.

(** One step keeps the lock with the invocation that is between [Lock]
    and [Unlock]. *)
Lemma lock_inv_step s l s' :
  lock_inv s -> step request s l = Some s' -> lock_inv s'.
Proof.
  intros [Hcs Hheld] Hstep.
  assert (Hframe : forall s0,
            handlers s0 = handlers s -> lockHeld s0 = lockHeld s ->
            lock_inv s0).
  { intros s0 Hh Hl. unfold lock_inv. by rewrite Hh, Hl. }
  destruct l.
  - unfold step in Hstep. destruct (pc s); try done.
    destruct (getConfigurationStore _ _); injection Hstep as <-;
      by apply Hframe.
  - unfold step in Hstep. destruct (pc s); try done.
    destruct res; injection Hstep as <-; [|by apply Hframe].
    match goal with
    | |- context [return_deferred ?x ?e] =>
        destruct (return_deferred_session x e) as (_ & _ & _ & _ & Hl & Hh)
    end.
    by apply Hframe.
  - unfold step in Hstep. destruct (pc s); try done.
    destruct res; injection Hstep as <-; [|by apply Hframe].
    match goal with
    | |- context [return_deferred ?x ?e] =>
        destruct (return_deferred_session x e) as (_ & _ & _ & _ & Hl & Hh)
    end.
    by apply Hframe.
  - unfold step in Hstep. destruct (pc s); try done.
    injection Hstep as <-. by apply Hframe.
  - unfold step in Hstep. destruct (pc s); try done.
    injection Hstep as <-. apply Hframe; simpl.
    + by destruct (ready_fields s) as (_ & _ & -> & _).
    + by destruct (ready_session s) as (_ & _ & _ & _ & _ & ->).
  - unfold step in Hstep. destruct (pc s); try done.
    destruct (ctxDone s || _); [|done].
    injection Hstep as <-. by apply Hframe.
  - unfold step in Hstep. destruct (pc s); try done.
    destruct res; injection Hstep as <-; [|by apply Hframe].
    match goal with
    | |- context [return_deferred ?x ?e] =>
        destruct (return_deferred_session x e) as (_ & _ & _ & _ & Hl & Hh)
    end.
    by apply Hframe.
  - unfold step in Hstep. destruct (pc s); try done.
    injection Hstep as <-.
    match goal with
    | |- context [return_deferred ?x ?e] =>
        destruct (return_deferred_session x e) as (_ & _ & _ & _ & Hl & Hh)
    end.
    by apply Hframe.
  - assert (Hs' : s' = cancel_ctx s).
    { unfold step in Hstep. by destruct (pc s); injection Hstep as <-. }
    subst s'. by apply Hframe.
  - assert (Hs' : s' = with_compStore s
                         (snd (UnsubscribeConfiguration (compStore s) req))).
    { unfold step in Hstep. by destruct (pc s); injection Hstep as <-. }
    subst s'. by apply Hframe.
  - assert (Hs' : s' = with_handlers s (handlers s ++ [(e, AtReadyCh)])).
    { unfold step in Hstep. by destruct (pc s); try injection Hstep as <-. }
    subst s'. split; simpl.
    + intros i e0 hpc Hi Hin.
      apply lookup_app_Some in Hi as [Hi|[Hlen Hi]]; [by eapply Hcs|].
      apply list_lookup_singleton_Some in Hi as [_ [= <- <-]]. done.
    + intros i Hi. destruct (Hheld i Hi) as (e0 & hpc & Hl & Hin).
      exists e0, hpc. split; [|done].
      apply lookup_app_Some. by left.
  - assert (Hh : updateEventHandler_step s i sendResult = Some s').
    { unfold step in Hstep. by destruct (pc s). }
    clear Hstep. unfold updateEventHandler_step in Hh.
    destruct (handlers s !! i) as [[e hpc]|] eqn:Hi; [|done].
    assert (Hlt : (i < length (handlers s))%nat)
      by (by eapply lookup_lt_Some).
    destruct hpc; try done.
    + (* past the ready channel *)
      destruct (readyClosed s); [|done]. injection Hh as <-.
      split; simpl.
      * intros j e0 hpc Hj Hin.
        destruct (decide (j = i)) as [->|Hne].
        -- rewrite list_lookup_insert_eq in Hj by done.
           by injection Hj as <- <-.
        -- rewrite list_lookup_insert_ne in Hj by done. by eapply Hcs.
      * intros j Hj. destruct (Hheld j Hj) as (e0 & hpc & Hl & Hin).
        destruct (decide (j = i)) as [->|Hne].
        -- rewrite Hi in Hl. by injection Hl as <- <-.
        -- exists e0, hpc. by rewrite list_lookup_insert_ne.
    + (* Lock *)
      destruct (lockHeld s) as [k|] eqn:Hk; [done|]. injection Hh as <-.
      split; simpl.
      * intros j e0 hpc Hj Hin.
        destruct (decide (j = i)) as [->|Hne]; [done|].
        rewrite list_lookup_insert_ne in Hj by done.
        by specialize (Hcs j e0 hpc Hj Hin).
      * intros j [= <-]. exists e, AtSend.
        by rewrite list_lookup_insert_eq.
    + (* Send *)
      injection Hh as <-.
      assert (Hme : lockHeld s = Some i) by (by eapply Hcs).
      split; simpl.
      * intros j e0 hpc Hj Hin.
        destruct (decide (j = i)) as [->|Hne]; [done|].
        rewrite list_lookup_insert_ne in Hj by done. by eapply Hcs.
      * intros j Hj. rewrite Hme in Hj. injection Hj as <-.
        exists e, (AtUnlock sendResult).
        by rewrite list_lookup_insert_eq.
    + (* Unlock *)
      injection Hh as <-.
      assert (Hme : lockHeld s = Some i) by (by eapply Hcs).
      split; simpl; [|done].
      intros j e0 hpc Hj Hin.
      destruct (decide (j = i)) as [->|Hne].
      * rewrite list_lookup_insert_eq in Hj by done.
        by injection Hj as <- <-.
      * rewrite list_lookup_insert_ne in Hj by done.
        specialize (Hcs j e0 hpc Hj Hin). congruence.
Qed.

Lemma lock_inv_run cs nextChannel ls s :
  exec request (init cs nextChannel) ls = Some s -> lock_inv s.
Proof.
  assert (Hexec : forall s0 s1,
            lock_inv s0 -> exec request s0 ls = Some s1 -> lock_inv s1).
  { induction ls as [|l ls IH]; intros s0 s1 Hinv; simpl.
    - by intros [= <-].
    - destruct (step request s0 l) as [s2|] eqn:Hstep; [|done].
      apply IH. by eapply lock_inv_step. }
  apply Hexec. split; simpl; [by intros i e hpc Hi|done].
Qed.
End Session.

(** A stream uses the configuration store in a fixed order.  Along every
    run of [SubscribeConfiguration] the stream has handed nothing to the
    policy runner of the store; or one subscribe operation, with the
    sorted keys and the metadata of the request; or that and then one
    unsubscribe operation, with the id the subscribe operation ended
    with.  Each hand-over is followed by its metric.  How often the runner
    calls the driver for an operation is not part of the statement. *)
Theorem SubscribeConfiguration_driver_calls request cs nextChannel ls s :
  Subscription.exec request (Subscription.init cs nextChannel) ls = Some s ->
  Subscription.configCalls s = []
  \/ (exists ok, Subscription.configCalls s = subscribe_calls request ok)
  \/ exists id ok,
       subscribed ls = Some id
       /\ Subscription.configCalls s
          = subscribe_calls request true ++ unsubscribe_calls request id ok.
Proof.
  intros Hexec. pose proof (session_inv_run request _ _ _ _ Hexec) as Hinv.
  unfold session_inv in Hinv.
  destruct (Subscription.pc s) as [| | | | | | | |[err|]].
  - left. by destruct Hinv.
  - left. by destruct Hinv.
  - right. left. exists true. by destruct Hinv.
  - right. left. exists true. by destruct Hinv.
  - right. left. exists true. by destruct Hinv as (_ & ? & _).
  - right. left. exists true. by destruct Hinv as (_ & ? & _).
  - right. left. exists true. by destruct Hinv as (_ & ? & _).
  - right. right. exists subscribeID, true. by destruct Hinv as (? & ? & _).
  - destruct Hinv as [[_ ?]|[[_ ?]|[(id & _ & ?)|(id & ? & ?)]]].
    + by left.
    + right. left. by exists false.
    + right. left. by exists true.
    + right. right. by exists id, false.
  - destruct Hinv as (id & ? & ? & _). right. right. by exists id, true.
Qed.

Lemma SubscribeConfiguration_driver_calls_witness :
  exists s,
    Subscription.exec StreamRun.request
      (Subscription.init StreamRun.componentStore 0) StreamEnd.labels
    = Some s
    /\ (Subscription.configCalls s = []
        \/ (exists ok,
              Subscription.configCalls s
              = subscribe_calls StreamRun.request ok)
        \/ exists id ok,
             subscribed StreamEnd.labels = Some id
             /\ Subscription.configCalls s
                = subscribe_calls StreamRun.request true
                  ++ unsubscribe_calls StreamRun.request id ok).
Proof.
  eexists. split; [vm_compute; reflexivity|].
  apply (SubscribeConfiguration_driver_calls StreamRun.request
           StreamRun.componentStore 0 StreamEnd.labels).
  vm_compute. reflexivity.
Defined.

(** A stream that returns without an error has cleaned up: it has
    unsubscribed at the driver with the id the driver gave it, its id is
    no longer in the subscription table, and the context of the
    subscription is cancelled. *)
Theorem SubscribeConfiguration_teardown request cs nextChannel ls s :
  Subscription.exec request (Subscription.init cs nextChannel) ls = Some s ->
  Subscription.pc s = Subscription.Returned None ->
  exists id,
    subscribed ls = Some id
    /\ Subscription.Driver_Unsubscribe id ∈ Subscription.configCalls s
    /\ configurationSubscribes (Subscription.compStore s) !! id = None
    /\ Subscription.subscribeCtxDone s = true.
Proof.
  intros Hexec Hpc.
  pose proof (session_inv_run request _ _ _ _ Hexec) as Hinv.
  unfold session_inv in Hinv. rewrite Hpc in Hinv.
  destruct Hinv as (id & Hsub & Hcalls & Htable & Hdone).
  exists id. split_and!; try done.
  rewrite Hcalls. apply elem_of_app. right. left.
Qed.

Lemma SubscribeConfiguration_teardown_witness :
  exists s,
    Subscription.exec StreamRun.request
      (Subscription.init StreamRun.componentStore 0) StreamEnd.labels
    = Some s
    /\ configurationSubscribes (Subscription.compStore s) !! "sub-1" = None.
Proof.
  eexists. split; [vm_compute; reflexivity|].
  destruct (SubscribeConfiguration_teardown StreamRun.request
              StreamRun.componentStore 0 StreamEnd.labels _
              ltac:(vm_compute; reflexivity) eq_refl)
    as (id & Hsub & _ & Htable & _).
  injection Hsub as <-. exact Htable.
Defined.

(** Unsubscribing by id stops the stream: when a stream waits at its
    select, an [UnsubscribeConfiguration] for its id closes its stop
    channel, so that the stream can leave the select, cancels the context
    of the subscription and goes on to unsubscribe at the driver. *)
Theorem UnsubscribeConfiguration_stops_stream request cs nextChannel ls s
    id req :
  Subscription.exec request (Subscription.init cs nextChannel) ls = Some s ->
  Subscription.pc s = Subscription.AtSelect id ->
  ucr_Id req = id ->
  exists s1 s2,
    Subscription.step request s (Subscription.UnsubscribeRPC req) = Some s1
    /\ Subscription.step request s1 Subscription.Select = Some s2
    /\ Subscription.pc s2 = Subscription.AtUnsubscribe id
    /\ Subscription.subscribeCtxDone s2 = true
    /\ configurationSubscribes (Subscription.compStore s2) !! id = None.
Proof.
  intros Hexec Hpc Hid.
  pose proof (session_inv_run request _ _ _ _ Hexec) as Hinv.
  unfold session_inv in Hinv. rewrite Hpc in Hinv.
  destruct Hinv as (_ & _ & c & Hstop & Htable).
  assert (Hclosed :
    c ∈ closedChannels (snd (UnsubscribeConfiguration
                               (Subscription.compStore s) req))
    /\ configurationSubscribes
         (snd (UnsubscribeConfiguration (Subscription.compStore s) req))
         !! id = None).
  { unfold UnsubscribeConfiguration, GetConfigurationSubscribe.
    rewrite Hid.
    destruct (configurationSubscribes (Subscription.compStore s) !! id)
      as [c'|] eqn:Hc; simpl; rewrite ?Hc.
    - split; [|by rewrite lookup_delete_eq].
      destruct Htable as [[= ->]|Hin]; set_solver.
    - split; [|done]. by destruct Htable. }
  destruct Hclosed as [Hclosed Hgone].
  eexists _, _. split.
  { unfold Subscription.step. reflexivity. }
  split.
  { unfold Subscription.step. simpl. rewrite Hpc, Hstop. simpl.
    rewrite (bool_decide_eq_true_2 _ Hclosed), orb_true_r. reflexivity. }
  simpl. done.
Qed.

Lemma UnsubscribeConfiguration_stops_stream_witness :
  exists s s1 s2,
    Subscription.exec StreamRun.request
      (Subscription.init StreamRun.componentStore 0) StreamEnd.waiting
    = Some s
    /\ Subscription.step StreamRun.request s
         (Subscription.UnsubscribeRPC StreamEnd.unsubscribe) = Some s1
    /\ Subscription.step StreamRun.request s1 Subscription.Select = Some s2
    /\ Subscription.pc s2 = Subscription.AtUnsubscribe "sub-1".
Proof.
  eexists.
  destruct (UnsubscribeConfiguration_stops_stream StreamRun.request
              StreamRun.componentStore 0 StreamEnd.waiting _ "sub-1"
              StreamEnd.unsubscribe
              ltac:(vm_compute; reflexivity) eq_refl eq_refl)
    as (s1 & s2 & H1 & H2 & H3 & _).
  exists s1, s2. split; [vm_compute; reflexivity|]. done.
Defined.

(** The update handler sends under the lock: along every run of the
    stream at most one invocation of [updateEventHandler] is between
    [Lock] and [Unlock], that invocation holds the lock, and an
    invocation that asks for the lock meanwhile cannot move. *)
Theorem updateEventHandler_mutual_exclusion request cs nextChannel ls s i e
    hpc :
  Subscription.exec request (Subscription.init cs nextChannel) ls = Some s ->
  Subscription.handlers s !! i = Some (e, hpc) ->
  in_critical_section hpc ->
  Subscription.lockHeld s = Some i
  /\ (forall j e' hpc',
        Subscription.handlers s !! j = Some (e', hpc') ->
        in_critical_section hpc' -> j = i)
  /\ (forall j e' sendResult,
        Subscription.handlers s !! j = Some (e', Subscription.AtLock) ->
        Subscription.step request s (Subscription.Handler j sendResult)
        = None).
Proof.
  intros Hexec Hi Hin.
  destruct (lock_inv_run request _ _ _ _ Hexec) as [Hcs Hheld].
  pose proof (Hcs i e hpc Hi Hin) as Hme.
  split; [done|]. split.
  - intros j e' hpc' Hj Hin'. specialize (Hcs j e' hpc' Hj Hin').
    congruence.
  - intros j e' sendResult Hj.
    assert (Hstep : Subscription.updateEventHandler_step s j sendResult
                    = None).
    { unfold Subscription.updateEventHandler_step. by rewrite Hj, Hme. }
    unfold Subscription.step. by destruct (Subscription.pc s).
Qed.

Lemma updateEventHandler_mutual_exclusion_witness :
  exists s,
    Subscription.exec StreamRun.request
      (Subscription.init StreamRun.componentStore 0)
      (firstn 8 StreamRun.labels
       ++ [Subscription.Callback StreamRun.update;
           Subscription.Handler 1 None]) = Some s
    /\ Subscription.lockHeld s = Some 0%nat
    /\ Subscription.step StreamRun.request s (Subscription.Handler 1 None)
       = None.
Proof.
  eexists. split; [vm_compute; reflexivity|].
  destruct (updateEventHandler_mutual_exclusion StreamRun.request
              StreamRun.componentStore 0
              (firstn 8 StreamRun.labels
               ++ [Subscription.Callback StreamRun.update;
                   Subscription.Handler 1 None]) _ 0%nat StreamRun.update
              Subscription.AtSend
              ltac:(vm_compute; reflexivity) ltac:(vm_compute; reflexivity)
              I)
    as (Hlock & _ & Hblocked).
  split; [exact Hlock|].
  apply (Hblocked 1%nat StreamRun.update None). vm_compute. reflexivity.
Defined.

(** Unsubscribing twice: the second [UnsubscribeConfiguration] for an id
    answers that the subscription does not exist, records the error code,
    returns no error, and leaves the component store as the first call
    left it. *)
Theorem UnsubscribeConfiguration_twice cs request :
  let cs1 := snd (UnsubscribeConfiguration cs request) in
  UnsubscribeConfiguration cs1 request
  = (Return {| ucres_Ok := false;
               ucres_Message :=
                 Sprintf ErrConfigurationUnsubscribe
                   [ucr_Id request; "subscription does not exist"] |} None,
     [RecordErrorCode ConfigurationUnsubscribe],
     cs1).
Proof.
  simpl. unfold UnsubscribeConfiguration at 1.
  unfold GetConfigurationSubscribe.
  assert (Hgone : configurationSubscribes
                    (snd (UnsubscribeConfiguration cs request))
                    !! ucr_Id request = None).
  { unfold UnsubscribeConfiguration, GetConfigurationSubscribe.
    destruct (configurationSubscribes cs !! ucr_Id request) eqn:Hreq; simpl;
      [by rewrite lookup_delete_eq|done]. }
  by rewrite Hgone.
Qed.

(** ** Actors *)

Lemma actorOperations_built ops actorOps :
  Actors.actorOperations ops = inr actorOps ->
  Forall2 (fun op o =>
             (Actors.OperationType op = state.OperationUpsert
              /\ o = Actors.Upsert (Actors.Key op)
                       (default [] (Actors.Value op))
                       (if decide (Actors.OpMetadata op = ∅) then None
                        else Some (Actors.OpMetadata op)))
             \/ (Actors.OperationType op = state.OperationDelete
                 /\ o = Actors.Delete (Actors.Key op)))
          ops actorOps.
Proof.
  revert actorOps. induction ops as [|op ops IH]; intros actorOps; simpl.
  { intros [= <-]. constructor. }
  destruct (decide (Actors.OperationType op = state.OperationUpsert))
    as [Hup|Hnup].
  - destruct (Actors.actorOperations ops) as [e|rest]; [done|].
    intros [= <-]. constructor; [|by apply IH]. left. split; [done|].
    f_equal. destruct (decide (Actors.OpMetadata op = ∅)) as [Hemp|Hne].
    + rewrite decide_False; [done|]. rewrite Hemp, map_size_empty. lia.
    + rewrite decide_True; [done|].
      assert (size (Actors.OpMetadata op) <> 0%nat)
        by (by rewrite map_size_empty_iff).
      lia.
  - destruct (decide (Actors.OperationType op = state.OperationDelete))
      as [Hdel|Hndel]; [|done].
    destruct (Actors.actorOperations ops) as [e|rest]; [done|].
    intros [= <-]. constructor; [|by apply IH]. by right.
Qed.

Lemma actorOperations_unsupported ops :
  Exists (fun op => Actors.OperationType op <> state.OperationUpsert
                    /\ Actors.OperationType op <> state.OperationDelete)
    ops ->
  exists operationType,
    Actors.actorOperations ops
    = inl (Actors.NotSupportedStateOperation operationType)
    /\ operationType ∈ map Actors.OperationType ops
    /\ operationType <> state.OperationUpsert
    /\ operationType <> state.OperationDelete.
Proof.
  induction 1 as [op ops [Hu Hd]|op ops _ (t & IH & Hin & Hu & Hd)]; simpl.
  - rewrite decide_False by done. rewrite decide_False by done.
    exists (Actors.OperationType op). split_and!; try done. left.
  - destruct (decide (Actors.OperationType op = state.OperationUpsert));
      [|destruct (decide (Actors.OperationType op
                          = state.OperationDelete))].
    + rewrite IH. exists t. split_and!; try done. by right.
    + rewrite IH. exists t. split_and!; try done. by right.
    + exists (Actors.OperationType op). split_and!; try done. left.
Qed.

(** An actor state transaction is handed to the actor runtime as a whole
    or not at all.  [ExecuteActorStateTransaction] makes at most one call,
    for the actor of the request and with one operation for each operation
    of the request, in order: an upsert with the key, the value and the
    metadata unless empty, a delete with the key.  When an operation is
    neither, no call is made and the error names the type of such an
    operation.  The response is non-nil exactly when no error is
    returned. *)
Theorem ExecuteActorStateTransaction_request astate in_ :
  let '(resp, err, calls) :=
    Actors.ExecuteActorStateTransaction (inr astate) in_ in
  (calls = []
   \/ exists req,
        calls = [req]
        /\ Actors.ReqActorType req = Actors.ActorType in_
        /\ Actors.ReqActorID req = Actors.ActorId in_
        /\ Forall2 (fun op o =>
                      (Actors.OperationType op = state.OperationUpsert
                       /\ o = Actors.Upsert (Actors.Key op)
                                (default [] (Actors.Value op))
                                (if decide (Actors.OpMetadata op = ∅)
                                 then None
                                 else Some (Actors.OpMetadata op)))
                      \/ (Actors.OperationType op = state.OperationDelete
                          /\ o = Actors.Delete (Actors.Key op)))
             (Actors.Operations in_) (Actors.ReqOperations req))
  /\ (Exists (fun op =>
                Actors.OperationType op <> state.OperationUpsert
                /\ Actors.OperationType op <> state.OperationDelete)
        (Actors.Operations in_) ->
      calls = []
      /\ exists operationType,
           err = Some (Actors.NotSupportedStateOperation operationType)
           /\ operationType ∈ map Actors.OperationType (Actors.Operations in_)
           /\ operationType <> state.OperationUpsert
           /\ operationType <> state.OperationDelete)
  /\ (resp = Some tt <-> err = None).
Proof.
  unfold Actors.ExecuteActorStateTransaction.
  destruct (Actors.actorOperations (Actors.Operations in_))
    as [e|actorOps] eqn:Hops.
  - split; [by left|]. split; [|by split].
    intros Hbad.
    destruct (actorOperations_unsupported _ Hbad) as (t & Ht & Hin & Hu & Hd).
    rewrite Hops in Ht. injection Ht as ->. split; [done|]. by exists t.
  - assert (Hnot : ~ Exists (fun op =>
                Actors.OperationType op <> state.OperationUpsert
                /\ Actors.OperationType op <> state.OperationDelete)
              (Actors.Operations in_)).
    { intros Hbad.
      destruct (actorOperations_unsupported _ Hbad) as (t & Ht & _).
      congruence. }
    apply actorOperations_built in Hops.
    destruct (astate _) as [e|] eqn:Hcall; [destruct (Actors.IsStatus e)|];
      (split; [right; eexists; split; [reflexivity|]; by split_and!|]);
      (split; [done|]); by split.
Qed.

(** [InvokeActor] with a router hands one call of the router to the
    pre-lock policy runner, for the internal form of the request as
    [ToInternalInvokeRequest] builds it once the handler has marked the
    call as an API call in the metadata; the actor, the method, the data
    and the other metadata are those of the request when the conversion
    sees them.  An error is returned exactly when the runner ends with an
    error that is a status or is not an actor error; an actor error, one
    the actor itself returned, is not passed on: the response then carries
    the data of the answer.  With a status error the response is nil;
    otherwise it is not. *)
Theorem InvokeActor_router {Internal : Type}
    (toInternal : Actors.InvokeActorRequest -> Internal) call in_ :
  let '(resp, err, calls) :=
    Actors.InvokeActor toInternal (inr call) in_ in
  exists marked md,
    calls = [toInternal marked]
    /\ Actors.InvActorType marked = Actors.InvActorType in_
    /\ Actors.InvActorId marked = Actors.InvActorId in_
    /\ Actors.Method marked = Actors.Method in_
    /\ Actors.Data marked = Actors.Data in_
    /\ Actors.InvMetadata marked = Some md
    /\ md !! "Dapr-API-Call" = Some "true"
    /\ (forall k, k <> "Dapr-API-Call" ->
          md !! k = default ∅ (Actors.InvMetadata in_) !! k)
    /\ (err = None <->
        match snd (call (toInternal marked)) with
        | None => True
        | Some e => Actors.IsStatus e = false /\ Actors.IsActorError e = true
        end)
    /\ (resp = None <->
        exists e, snd (call (toInternal marked)) = Some e
                  /\ Actors.IsStatus e = true)
    /\ (err = None ->
        resp = Some (default [] (fst (call (toInternal marked))))).
Proof.
  unfold Actors.InvokeActor.
  match goal with
  | |- context [call (toInternal ?r)] => set (req := r)
  end.
  assert (Hmd : forall md : gmap string string,
            <["Dapr-API-Call" := "true"]> md !! "Dapr-API-Call" = Some "true"
            /\ forall k, k <> "Dapr-API-Call" ->
                  <["Dapr-API-Call" := "true"]> md !! k = md !! k).
  { intros md. split; [by rewrite lookup_insert_eq|].
    intros k Hk. by rewrite lookup_insert_ne. }
  destruct (Hmd (default ∅ (Actors.InvMetadata in_))) as [Hmark Hkeep].
  destruct (call (toInternal req)) as [res [e|]] eqn:Hcall;
    [destruct (Actors.IsStatus e) eqn:Hst;
       [|destruct (Actors.IsActorError e) eqn:Hact]|];
    simpl; eexists req, _; (split; [reflexivity|]);
    rewrite Hcall; simpl;
    (split; [done|]); (split; [done|]); (split; [done|]); (split; [done|]);
    (split; [reflexivity|]); (split; [exact Hmark|]);
    (split; [exact Hkeep|]); clear Hmark Hkeep; split_and!;
    try (by destruct res); try (split; intros; try done);
    try (by exists e);
    try (match goal with
         | H : _ /\ _ |- _ => destruct H; congruence
         | H : ex _ |- _ => destruct H as (? & ? & ?); congruence
         end).
Qed.

(** ** Shutting down *)

Lemma Close_closed l l' :
  Close l = Some l' ->
  closed l' = true
  /\ configurationSubscribes (lifecycleStore l') = ∅
  /\ (forall id c,
        configurationSubscribes (lifecycleStore l) !! id = Some c
        \/ c ∈ closedChannels (lifecycleStore l) ->
        c ∈ closedChannels (lifecycleStore l')).
Proof.
  unfold Close.
  assert (Himg : forall id c,
            configurationSubscribes (lifecycleStore l) !! id = Some c
            \/ c ∈ closedChannels (lifecycleStore l) ->
            c ∈ map_img (configurationSubscribes (lifecycleStore l))
                ∪ closedChannels (lifecycleStore l)).
  { intros id c [Hid|Hin]; [|set_solver].
    apply elem_of_union_l. apply elem_of_map_img. by exists id. }
  destruct (closed l); [|destruct (closeChClosed l); [done|]];
    intros [= <-]; simpl; done.
Qed.

(** [Close] can be called any number of times: from a new receiver no
    sequence of calls panics on the close channel, which is closed once,
    by the first call; after the first call the receiver is closed, the
    subscription table is empty, and the stop channel of every
    subscription the table held is closed. *)
Theorem Close_repeatedly cs n :
  exists l,
    CloseTimes (S n) (NewAPI cs) = Some l
    /\ closed l = true /\ closeChClosed l = true
    /\ configurationSubscribes (lifecycleStore l) = ∅
    /\ forall id c,
         configurationSubscribes cs !! id = Some c ->
         c ∈ closedChannels (lifecycleStore l).
Proof.
  assert (Hrest : forall n l,
            closed l = true -> closeChClosed l = true ->
            exists l',
              CloseTimes n l = Some l'
              /\ closed l' = true /\ closeChClosed l' = true
              /\ (configurationSubscribes (lifecycleStore l) = ∅ ->
                  configurationSubscribes (lifecycleStore l') = ∅)
              /\ closedChannels (lifecycleStore l)
                 ⊆ closedChannels (lifecycleStore l')).
  { clear n. induction n as [|n IH]; intros l Hc Hch; simpl.
    - exists l. by split_and!.
    - unfold Close. rewrite Hc.
      match goal with
      | |- context [CloseTimes n ?x] =>
          destruct (IH x eq_refl Hch) as (l' & -> & ? & ? & Hemp & Hsub)
      end.
      exists l'. split_and!; try done.
      + intros _. by apply Hemp.
      + simpl in Hsub. set_solver. }
  cbn [CloseTimes]. unfold Close at 1, NewAPI. cbn [closed closeChClosed].
  match goal with
  | |- context [CloseTimes n ?x] =>
      destruct (Hrest n x eq_refl eq_refl) as (l' & -> & ? & ? & Hemp & Hsub)
  end.
  exists l'. split_and!; try done.
  - by apply Hemp.
  - intros id c Hid. apply Hsub. simpl.
    apply elem_of_union_l. apply elem_of_map_img. by exists id.
Qed.

(** Shutting down stops the streams: when a stream waits at its select, a
    [Close] of the receiver closes its stop channel, so that the stream
    leaves the select and goes on to unsubscribe at the driver. *)
Theorem Close_stops_stream request cs nextChannel ls s id l l' :
  Subscription.exec request (Subscription.init cs nextChannel) ls = Some s ->
  Subscription.pc s = Subscription.AtSelect id ->
  lifecycleStore l = Subscription.compStore s ->
  Close l = Some l' ->
  exists s2,
    Subscription.step request
      (Subscription.with_compStore s (lifecycleStore l'))
      Subscription.Select = Some s2
    /\ Subscription.pc s2 = Subscription.AtUnsubscribe id
    /\ Subscription.subscribeCtxDone s2 = true.
Proof.
  intros Hexec Hpc Hstore Hclose.
  pose proof (session_inv_run request _ _ _ _ Hexec) as Hinv.
  unfold session_inv in Hinv. rewrite Hpc in Hinv.
  destruct Hinv as (_ & _ & c & Hstop & Htable).
  destruct (Close_closed l l' Hclose) as (_ & _ & Hclosed).
  rewrite Hstore in Hclosed. specialize (Hclosed id c Htable).
  eexists. split.
  { unfold Subscription.step. simpl. rewrite Hpc, Hstop. simpl.
    rewrite (bool_decide_eq_true_2 _ Hclosed), orb_true_r. reflexivity. }
  done.
Qed.

Lemma Close_stops_stream_witness :
  exists s l' s2,
    Subscription.exec StreamRun.request
      (Subscription.init StreamRun.componentStore 0) StreamEnd.waiting
    = Some s
    /\ Close (NewAPI (Subscription.compStore s)) = Some l'
    /\ Subscription.step StreamRun.request
         (Subscription.with_compStore s (lifecycleStore l'))
         Subscription.Select = Some s2
    /\ Subscription.pc s2 = Subscription.AtUnsubscribe "sub-1".
Proof.
  eexists. eexists.
  destruct (Close_stops_stream StreamRun.request
              StreamRun.componentStore 0 StreamEnd.waiting _ "sub-1"
              (NewAPI _) _
              ltac:(vm_compute; reflexivity) eq_refl eq_refl eq_refl)
    as (s2 & Hstep & Hpc & _).
  exists s2. split; [vm_compute; reflexivity|]. split; [reflexivity|].
  split; [exact Hstep|exact Hpc].
Defined.
